(** * Hebbian training loop of pytorch-hebbian: a shallow embedding

    The development follows [pytorch_hebbian/trainers.py] (class
    [HebbianTrainer]) and [pytorch_hebbian/learning_engines/hebbian_engine.py]
    (class [HebbianEngine]).

    - Python integers are [Z]; list slicing and indexing keep Python's
      treatment of negative bounds.
    - A tensor is a shape together with its row-major contents; the element
      type is a parameter (torch uses floating point numbers, on which no
      definition below computes).
    - The model is the ordered list of its named children.  Weights are
      mutated in place, so the model lives in a store that is threaded
      through every call; a layer object held elsewhere (the [layer] field
      of a trainable-layer record, [weights_np] of the engine) is a
      reference into that store.
    - Python exceptions are values of [Exn]; code that may raise returns a
      [Result], and the store survives a raise.
    - Calls into collaborators that are not part of the two files (the
      layers' forward pass, the learning rule, the optimizer, the patch
      extraction) go through type classes; each such call and each logging
      call is also recorded in a trace. *)

From Stdlib Require Import ZArith.
From stdpp Require Import base list strings sorting.

Local Open Scope Z_scope.

(** ** Python values *)

Inductive Exn :=
| IndexError
| KeyError (key : string)
| TypeError (msg : string)
| AttributeError (attr : string)
| RuntimeError (msg : string)
| ValueError (msg : string)
| StopIteration.

Inductive Result (A : Type) :=
| Ok (a : A)
| Raise (e : Exn).
Arguments Ok {A} a.
Arguments Raise {A} e.

#[export] Instance Result_ret : MRet Result := fun A a => Ok a.

#[export] Instance Result_bind : MBind Result := fun A B f r =>
  match r with
  | Ok a => f a
  | Raise e => Raise e
  end.

(** [l[:stop]] *)
Definition py_slice_to {A} (l : list A) (stop : Z) : list A :=
  if stop <? 0 then take (Z.to_nat (Z.of_nat (length l) + stop)) l
  else take (Z.to_nat stop) l.

(** [l[i]] *)
Definition py_getitem {A} (l : list A) (i : Z) : Result A :=
  let j := if i <? 0 then Z.of_nat (length l) + i else i in
  if j <? 0 then Raise IndexError
  else match l !! Z.to_nat j with
       | Some a => Ok a
       | None => Raise IndexError
       end.

(** [enumerate(l)] *)
Definition enumerate {A} (l : list A) : list (Z * A) :=
  imap (fun i a => (Z.of_nat i, a)) l.

(** A [dict] with string keys, in insertion order. *)
Abbreviation Dict V := (list (string * V)).

Fixpoint dict_lookup {V} (d : Dict V) (key : string) : option V :=
  match d with
  | [] => None
  | (k, v) :: d' => if decide (k = key) then Some v else dict_lookup d' key
  end.

(** [d[key]] *)
Definition dict_getitem {V} (d : Dict V) (key : string) : Result V :=
  match dict_lookup d key with
  | Some v => Ok v
  | None => Raise (KeyError key)
  end.

(** [d.values()] *)
Definition dict_values {V} (d : Dict V) : list V := map snd d.

(** ** Tensors *)

Record Tensor (elt : Type) := mkTensor {
  shape : list Z;
  data : list elt
}.
Arguments mkTensor {elt} shape data.
Arguments shape {elt} t.
Arguments data {elt} t.

(** Number of elements of a tensor of the given shape. *)
Definition numel (s : list Z) : Z := foldr Z.mul 1 s.

(** Size inference of [Tensor.view]: [sizes] may hold one [-1], which stands
    for the quotient of the element count [n] by the product of the other
    sizes. *)
Definition infer_size (sizes : list Z) (n : Z) : Result (list Z) :=
  let known := filter (fun d => d ≠ -1) sizes in
  let p := numel known in
  if existsb (fun d => d <? -1) sizes then
    Raise (RuntimeError "invalid shape dimension")
  else
    match (length sizes - length known)%nat with
    | O => if p =? n then Ok sizes
           else Raise (RuntimeError "shape is invalid for input size")
    | S O => if p =? 0 then Raise (RuntimeError "shape is invalid or ambiguous")
             else if n mod p =? 0
                  then Ok (map (fun d => if d =? -1 then n / p else d) sizes)
                  else Raise (RuntimeError "shape is invalid for input size")
    | _ => Raise (RuntimeError "only one dimension can be inferred")
    end.

(** [t.view(sizes)]: the contents stay, the shape changes.  The layout of a
    tensor in memory is not modelled: torch also refuses, with a
    [RuntimeError], the view of a tensor whose strides do not allow it, so a
    [view] that returns here is one whose sizes fit. *)
Definition view {elt} (t : Tensor elt) (sizes : list Z) : Result (Tensor elt) :=
  match infer_size sizes (numel (shape t)) with
  | Ok s => Ok (mkTensor s (data t))
  | Raise e => Raise e
  end.

(** ** Models *)

(** A child module of the model.  [type(layer)] is the constructor;
    [Other] stands for every class that is neither [torch.nn.Linear] nor
    [torch.nn.Conv2d], and may or may not carry a [weight] attribute. *)
Inductive Module (elt : Type) :=
| Linear (weight : Tensor elt) (bias : option (Tensor elt))
| Conv2d (weight : Tensor elt) (bias : option (Tensor elt))
         (kernel_size stride padding dilation : Z * Z)
| Other (cls : string) (weight : option (Tensor elt)).
Arguments Linear {elt} weight bias.
Arguments Conv2d {elt} weight bias kernel_size stride padding dilation.
Arguments Other {elt} cls weight.

(** [model.named_children()] *)
Abbreviation Model elt := (list (string * Module elt)).

(** [model.children()] *)
Definition children {elt} (model : Model elt) : list (Module elt) := map snd model.

(** [layer.weight], as a tensor.  [Other _ None] is a child from which no
    weight tensor can be read: it has no [weight] attribute, or one that is
    [None]; in the second case the attribute that the code fails on is the
    one it asks of that [None], which the model does not tell apart from
    [weight]. *)
Definition get_weight {elt} (layer : Module elt) : Result (Tensor elt) :=
  match layer with
  | Linear w _ => Ok w
  | Conv2d w _ _ _ _ _ => Ok w
  | Other _ (Some w) => Ok w
  | Other _ None => Raise (AttributeError "weight")
  end.

(** In-place replacement of the contents of [layer.weight]. *)
Definition set_weight {elt} (layer : Module elt) (w : Tensor elt) : Module elt :=
  match layer with
  | Linear _ b => Linear w b
  | Conv2d _ b ks st pd dl => Conv2d w b ks st pd dl
  | Other c (Some _) => Other c (Some w)
  | Other c None => Other c None
  end.

(** [type(layer) == torch.nn.Linear or type(layer) == torch.nn.Conv2d] *)
Definition is_linear_or_conv {elt} (layer : Module elt) : bool :=
  match layer with
  | Linear _ _ | Conv2d _ _ _ _ _ _ => true
  | Other _ _ => false
  end.

(** A reference to a child of the model: its position in the store. *)
Abbreviation Ref := nat.

(** [Layer = namedtuple('Layer', ['idx', 'name', 'layer'])] *)
Record Layer := mkLayer {
  idx : Z;
  name : string;
  layer : Ref
}.
Arguments mkLayer _%_Z _%_string _%_nat.

(** ** The layer registry ([HebbianTrainer.__init__], lines 176-181) *)

(** The loop body appends to [self.layers]; [items] is what is left of
    [enumerate(list(model.named_children())[:self.supervised_from])].  The
    object bound to [layer] at position [idx] of a prefix of the children is
    the child at that position of the model. *)
Fixpoint scan_layers {elt} (freeze_layers : list string)
    (items : list (Z * (string * Module elt))) (layers : list Layer) : list Layer :=
  match items with
  | [] => layers
  | (idx, (name, layer)) :: items' =>
      if is_linear_or_conv layer && bool_decide (name ∉ freeze_layers)
      then scan_layers freeze_layers items' (layers ++ [mkLayer idx name (Z.to_nat idx)])
      else scan_layers freeze_layers items' layers
  end.

Definition trainable_layers {elt} (model : Model elt) (supervised_from : Z)
    (freeze_layers : list string) : list Layer :=
  scan_layers freeze_layers (enumerate (py_slice_to model supervised_from)) [].

(** ** Collaborators outside the two files *)

(** What the training loop asks of torch and of the package's [utils].
    [forward training lyr x] is the call [lyr(x)] of a child in training or
    evaluation mode; [extract_image_patches x kernel_size stride padding
    dilation] is [utils.extract_image_patches]; [convert_tensor] moves a
    tensor to the device of the trainer.  These calls are taken to return,
    and what a call [lyr(x)] changes in the child itself (the running
    statistics of a batch normalisation in training mode) is not modelled:
    a [Module] holds the class, the weight, the bias and the geometry of a
    child and nothing else. *)
Class Torch (elt : Type) := {
  forward : bool -> Module elt -> Tensor elt -> Tensor elt;
  extract_image_patches :
    Tensor elt -> Z * Z -> Z * Z -> Z * Z -> Z * Z -> Tensor elt;
  convert_tensor : Tensor elt -> Tensor elt
}.

(** [pytorch_hebbian.learning_rules.LearningRule]: [init_layers] acts on the
    model through the records it is handed, [update] returns the weight
    change for prepared inputs and weights. *)
Class LearningRule (elt R : Type) := {
  init_layers : R -> list Layer -> Model elt -> Model elt;
  update : R -> Tensor elt -> Tensor elt -> Tensor elt
}.

(** The optimizer: [step opt p d_p] is the new content of a weight [p] to
    which the optimizer applies the change [d_p]. *)
Class Optimizer (elt O : Type) := {
  step : O -> Tensor elt -> Tensor elt -> Tensor elt
}.

(** Modelled from the spec: the optimizer class is not in the two files.
    Its named local step [local_step(d_p, layer_name=name)] "must apply the
    delta to the named layer's weights in place"; no other child changes. *)
Definition local_step {elt O} `{!Optimizer elt O} (optimizer : O)
    (d_p : Tensor elt) (layer_name : string) (model : Model elt) : Model elt :=
  map (fun child : string * Module elt =>
         if decide (child.1 = layer_name) then
           match get_weight child.2 with
           | Ok p => (child.1, set_weight child.2 (step optimizer p d_p))
           | Raise _ => child
           end
         else child) model.

(** Modelled from the spec: [utils.prepare_batch], the default of the
    [prepare_batch] argument, is not in the two files.  A batch is a pair of
    inputs and labels and the placement on a device is left to a
    collaborator: each component is moved on its own. *)
Definition prepare_batch {elt} `{!Torch elt} (batch : Tensor elt * Tensor elt)
    : Tensor elt * Tensor elt :=
  (convert_tensor batch.1, convert_tensor batch.2).

(** ** Effects: a store, a trace and exceptions *)

Definition M (S A : Type) : Type := S -> Result A * S.

#[export] Instance M_ret {S} : MRet (M S) := fun A a s => (Ok a, s).

#[export] Instance M_bind {S} : MBind (M S) := fun A B f m s =>
  match m s with
  | (Ok a, s') => f a s'
  | (Raise e, s') => (Raise e, s')
  end.

(** [raise e], and the embedding of a computation without effects. *)
Definition raise {S A} (e : Exn) : M S A := fun s => (Raise e, s).
Definition lift {S A} (r : Result A) : M S A := fun s => (r, s).
Definition gets {S A} (f : S -> A) : M S A := fun s => (Ok (f s), s).
Definition modify {S} (f : S -> S) : M S unit := fun s => (Ok tt, f s).

(** [try: body  except ...: handler] *)
Definition try_except {S A} (body : M S A) (handler : Exn -> M S A) : M S A :=
  fun s => match body s with
           | (Ok a, s') => (Ok a, s')
           | (Raise e, s') => handler e s'
           end.

(** [for a in l: body] *)
Fixpoint for_each {S A} (l : list A) (body : A -> M S unit) : M S unit :=
  match l with
  | [] => mret tt
  | a :: l' => body a ;; for_each l' body
  end.

(** [for a in l: v = body(v, a)], for a loop that rebinds a local variable. *)
Fixpoint for_fold {S A V} (l : list A) (v : V) (body : V -> A -> M S V) : M S V :=
  match l with
  | [] => mret v
  | a :: l' => v' ← body v a; for_fold l' v' body
  end.

Inductive Level := DEBUG | INFO | ERROR.

(** ** [pytorch_hebbian/trainers.py] *)

Module Trainer.

(** The logging calls of [HebbianTrainer], by the line that issues them. *)
Inductive LogRecord :=
| Received_layers (count : nat) (names : list string)
| Updating_layer (layer : Ref) (weight_shape : list Z)
| Prepared_shapes (x_shape w_shape : list Z)
| No_learning_rule (layer_name : string).

Inductive Event (elt R : Type) :=
| Logging (level : Level) (record : LogRecord)
| Rule_init_layers (rule : R) (layers : list Layer)
| Rule_update (rule : R) (inputs weights : Tensor elt)
| Optimizer_local_step (d_p : Tensor elt) (layer_name : string).
Arguments Updating_layer _%_nat _%_Z.
Arguments Logging {elt R} level record.
Arguments Rule_init_layers {elt R} rule layers.
Arguments Rule_update {elt R} rule inputs weights.
Arguments Optimizer_local_step {elt R} d_p layer_name.

(** The model object shared by the trainer, the rules and the optimizer,
    with its training flag, and what has been observed so far. *)
Record World (elt R : Type) := mkWorld {
  model : Model elt;
  training : bool;
  trace : list (Event elt R)
}.
Arguments mkWorld {elt R} model training trace.
Arguments model {elt R} _.
Arguments training {elt R} _.
Arguments trace {elt R} _.

(** [learning_rule: Union[LearningRule, Dict[str, LearningRule]]] *)
Inductive RuleArg (R : Type) :=
| SingleRule (rule : R)
| RuleDict (rules : Dict R).
Arguments SingleRule {R} rule.
Arguments RuleDict {R} rules.

(** The attributes of a [HebbianTrainer] that the Hebbian path reads. *)
Record HebbianTrainer (R : Type) := mkHebbianTrainer {
  supervised_from : Z;
  freeze_layers : list string;
  layers : list Layer;
  learning_rule : RuleArg R
}.
Arguments mkHebbianTrainer {R} supervised_from freeze_layers layers learning_rule.
Arguments supervised_from {R} _.
Arguments freeze_layers {R} _.
Arguments layers {R} _.
Arguments learning_rule {R} _.

Section Definitions.
Context {elt R O : Type}.
Context `{!Torch elt, !LearningRule elt R, !Optimizer elt O}.

Local Abbreviation world := (World elt R).

Definition emit (e : Event elt R) : M world unit :=
  modify (fun w => mkWorld (model w) (training w) (trace w ++ [e])).

Definition set_model (m : Model elt) : M world unit :=
  modify (fun w => mkWorld m (training w) (trace w)).

(** [model.train()] *)
Definition model_train : M world unit :=
  modify (fun w => mkWorld (model w) true (trace w)).

(** [layer.weight] for the object behind a reference; a reference that
    points outside the store has no counterpart in Python and shows as
    [IndexError]. *)
Definition weight_of (m : Model elt) (r : Ref) : Result (Tensor elt) :=
  l ← py_getitem (children m) (Z.of_nat r);
  get_weight l.

(** [rule.init_layers(self.layers)] *)
Definition call_init_layers (rule : R) (layers : list Layer) : M world unit :=
  emit (Rule_init_layers rule layers);;
  m ← gets model;
  set_model (init_layers rule layers m).

(** [HebbianTrainer.__init__], lines 171-191: the device, the progress
    bar and the handlers of the surrounding engine are left out. *)
Definition __init__ (learning_rule : RuleArg R) (optimizer : O)
    (supervised_from : Z) (freeze_layers : option (list string))
    : M world (HebbianTrainer R) :=
  let freeze_layers := default [] freeze_layers in
  m ← gets model;
  let layers := trainable_layers m supervised_from freeze_layers in
  emit (Logging INFO (Received_layers (length layers) (map name layers)));;
  match learning_rule with
  | RuleDict rules =>
      for_each (dict_values rules) (fun rule => call_init_layers rule layers)
  | SingleRule rule => call_init_layers rule layers
  end;;
  mret (mkHebbianTrainer supervised_from freeze_layers layers learning_rule).

(** The input right before the layer, lines 226-231. *)
Definition input_before (mode : bool) (inputs : Tensor elt)
    (layers : list (Module elt)) (layer_index : Z) : Tensor elt :=
  if layer_index =? 0 then inputs
  else fold_left (fun x lyr => forward mode lyr x)
                 (py_slice_to layers layer_index) inputs.

(** The layer weight and the input image patches, lines 234-242. *)
Definition weight_and_patches (layer : Module elt) (x : Tensor elt)
    : Result (Tensor elt * Tensor elt) :=
  match layer with
  | Linear weight _ => mret (x, weight)
  | Conv2d weight _ kernel_size stride padding dilation =>
      w ← view weight [-1; kernel_size.1 * kernel_size.2];
      mret (extract_image_patches x kernel_size stride padding dilation, w)
  | Other _ _ => Raise (TypeError "Unsupported layer type!")
  end.

(** Lines 222-244 of [HebbianTrainer._prepare_data], on the children as
    they are and in the mode the model is in. *)
Definition prepare_tensors (mode : bool) (inputs : Tensor elt)
    (layers : list (Module elt)) (layer_index : Z)
    : Result (Tensor elt * Tensor elt) :=
  layer ← py_getitem layers layer_index;
  let x := input_before mode inputs layers layer_index in
  '(x, w) ← weight_and_patches layer x;
  n ← py_getitem (shape x) 0;
  x ← view x [n; -1];
  mret (x, w).

(** [HebbianTrainer._prepare_data(inputs, model, layer_index)]; [model] is
    the shared model object, read in its current state. *)
Definition _prepare_data (inputs : Tensor elt) (layer_index : Z)
    : M world (Tensor elt * Tensor elt) :=
  m ← gets model;
  mode ← gets training;
  '(x, w) ← lift (prepare_tensors mode inputs (children m) layer_index);
  emit (Logging DEBUG (Prepared_shapes (shape x) (shape w)));;
  mret (x, w).

(** Lines 261-268: the rule for a layer. *)
Definition resolve_rule (learning_rule : RuleArg R) (layer_name : string) : M world R :=
  match learning_rule with
  | RuleDict rules =>
      try_except (lift (dict_getitem rules layer_name))
        (fun e => match e with
                  | KeyError _ =>
                      emit (Logging ERROR (No_learning_rule layer_name));;
                      raise e
                  | _ => raise e
                  end)
  | SingleRule rule => mret rule
  end.

(** Lines 258-259: the debug message and the call of the data preparer. *)
Definition prepare_layer (x : Tensor elt) (lyr : Layer)
    : M world (Tensor elt * Tensor elt) :=
  m ← gets model;
  weight ← lift (weight_of m (layer lyr));
  emit (Logging DEBUG (Updating_layer (layer lyr) (shape weight)));;
  _prepare_data x (idx lyr).

(** Lines 270-272: the rule's change, shaped like the layer's weight, goes
    to the optimizer. *)
Definition apply_rule (optimizer : O) (rule : R) (lyr : Layer)
    (inputs weights : Tensor elt) : M world unit :=
  emit (Rule_update rule inputs weights);;
  let d_p := update rule inputs weights in
  m ← gets model;
  weight ← lift (weight_of m (layer lyr));
  d_p ← lift (view d_p (shape weight));
  emit (Optimizer_local_step d_p (name lyr));;
  set_model (local_step optimizer d_p (name lyr) m).

(** The body of the loop over [self.layers], lines 258-272. *)
Definition update_layer (learning_rule : RuleArg R) (optimizer : O)
    (x : Tensor elt) (lyr : Layer) : M world unit :=
  '(inputs, weights) ← prepare_layer x lyr;
  rule ← resolve_rule learning_rule (name lyr);
  apply_rule optimizer rule lyr inputs weights.

(** [_update(_, batch)] of [HebbianTrainer.create_hebbian_trainer], the
    function the engine runs once per batch.  [torch.no_grad()] has no
    counterpart: no gradient is modelled. *)
Definition create_hebbian_trainer {Out : Type} (self : HebbianTrainer R)
    (learning_rule : RuleArg R) (optimizer : O)
    (prepare_batch : Tensor elt * Tensor elt -> Tensor elt * Tensor elt)
    (output_transform : Tensor elt -> Tensor elt -> Out)
    (batch : Tensor elt * Tensor elt) : M world Out :=
  model_train;;
  let '(x, y) := prepare_batch batch in
  for_each (layers self) (update_layer learning_rule optimizer x);;
  mret (output_transform x y).

(** The per-batch update with the default arguments of
    [create_hebbian_trainer]. *)
Definition _update (self : HebbianTrainer R) (learning_rule : RuleArg R)
    (optimizer : O) (batch : Tensor elt * Tensor elt) : M world Z :=
  create_hebbian_trainer self learning_rule optimizer prepare_batch
    (fun _ _ => 0) batch.

End Definitions.

End Trainer.

(** ** [pytorch_hebbian/learning_engines/hebbian_engine.py] *)

Module Engine.

(** What [HebbianEngine.train] asks of its collaborators.  [normal_ g t] is
    [t.data.normal_(mean=0.0, std=1.0)] drawing from the generator state
    [g]; [update_np] is the [update] of a rule working on arrays, whose
    second argument may be [None]; [local_step_weight opt d_p r p] is what
    [optimizer.local_step(d_p)] leaves in the weight [p] of child [r];
    [get_lr] and [scheduler_step] are the scheduler attached to the
    optimizer. *)
Class Collaborators (elt R O G : Type) := {
  normal_ : G -> Tensor elt -> Tensor elt * G;
  update_np : R -> Tensor elt -> option (Tensor elt) -> Tensor elt;
  local_step_weight : O -> Tensor elt -> Ref -> Tensor elt -> Tensor elt;
  get_lr : O -> list elt;
  scheduler_step : O -> O
}.

Inductive LogRecord (elt : Type) :=
| Received_samples (samples : nat) (input_shape : list Z)
| Updating_layer (layer : Ref) (weight_shape : list Z)
| Learning_rates (lrs : list elt)
| Label_counts (labels : Tensor elt).
Arguments Received_samples {elt} samples input_shape.
Arguments Updating_layer {elt} layer%_nat weight_shape%_Z.
Arguments Learning_rates {elt} lrs.
Arguments Label_counts {elt} labels.

Inductive Event (elt R : Type) :=
| Logging (level : Level) (record : LogRecord elt)
| Rule_update (rule : R) (inputs : Tensor elt) (weights : option (Tensor elt))
| Optimizer_local_step (d_p : Tensor elt)
| Scheduler_step
| Draw_weights_update (weights : option (Tensor elt)) (input_shape : list Z)
| Pyplot (call : string).
Arguments Logging {elt R} level record.
Arguments Rule_update {elt R} rule inputs weights.
Arguments Optimizer_local_step {elt R} d_p.
Arguments Scheduler_step {elt R}.
Arguments Draw_weights_update {elt R} weights input_shape.
Arguments Pyplot {elt R} call.

(** The model, the random generator, the optimizer with its scheduler, and
    what has been observed so far. *)
Record World (elt R O G : Type) := mkWorld {
  model : Model elt;
  generator : G;
  optimizer : O;
  trace : list (Event elt R)
}.
Arguments mkWorld {elt R O G} model generator optimizer trace.
Arguments model {elt R O G} _.
Arguments generator {elt R O G} _.
Arguments optimizer {elt R O G} _.
Arguments trace {elt R O G} _.

(** [data_loader]: the size of its dataset and the batches one pass yields. *)
Record DataLoader (elt : Type) := mkDataLoader {
  dataset_len : nat;
  batches : list (Tensor elt * Tensor elt)
}.
Arguments mkDataLoader {elt} dataset_len batches.
Arguments dataset_len {elt} _.
Arguments batches {elt} _.

(** The attributes of a [HebbianEngine] that are not mutable objects. *)
Record HebbianEngine (R : Type) := mkHebbianEngine {
  learning_rule : R;
  visualize_weights : bool
}.
Arguments mkHebbianEngine {R} learning_rule visualize_weights.
Arguments learning_rule {R} _.
Arguments visualize_weights {R} _.

Section Definitions.
Context {elt R O G : Type}.
Context `{!Collaborators elt R O G}.

Local Abbreviation world := (World elt R O G).

Definition emit (e : Event elt R) : M world unit :=
  modify (fun w => mkWorld (model w) (generator w) (optimizer w) (trace w ++ [e])).

Definition set_model (m : Model elt) : M world unit :=
  modify (fun w => mkWorld m (generator w) (optimizer w) (trace w)).

Definition set_generator (g : G) : M world unit :=
  modify (fun w => mkWorld (model w) g (optimizer w) (trace w)).

Definition set_optimizer (o : O) : M world unit :=
  modify (fun w => mkWorld (model w) (generator w) o (trace w)).

(** [arr[start:]] for [start >= 0] *)
Definition py_slice_from {A} (l : list A) (start : nat) : list A := drop start l.

(** [t.squeeze()]: the dimensions of size one go. *)
Definition squeeze (t : Tensor elt) : Tensor elt :=
  mkTensor (filter (fun d => d ≠ 1) (shape t)) (data t).

(** [np.reshape(a, sizes)] *)
Definition np_reshape (a : Tensor elt) (sizes : list Z) : Result (Tensor elt) :=
  match infer_size sizes (numel (shape a)) with
  | Ok s => Ok (mkTensor s (data a))
  | Raise _ => Raise (ValueError "cannot reshape array")
  end.

(** The array behind [weights_np]: it shares its memory with the weight of
    the child it was taken from, so it is read through the store. *)
Definition array_of (m : Model elt) (weights_np : option Ref)
    : Result (option (Tensor elt)) :=
  match weights_np with
  | None => Ok None
  | Some r =>
      match children m !! r with
      | Some l => w ← get_weight l; mret (Some w)
      | None => Raise IndexError
      end
  end.

Definition read_np (weights_np : option Ref) : M world (option (Tensor elt)) :=
  m ← gets model;
  lift (array_of m weights_np).

(** [optimizer.local_step(d_p)]: every weight is left as the optimizer
    leaves it; the children stay the objects they are. *)
Definition local_step (o : O) (d_p : Tensor elt) (m : Model elt) : Model elt :=
  imap (fun r child =>
          match get_weight child.2 with
          | Ok p => (child.1, set_weight child.2 (local_step_weight o d_p r p))
          | Raise _ => child
          end) m.

(** Lines 29-34, the body for the child at position [r]. *)
Definition init_child (weights_np : option Ref) (r : Ref) : M world (option Ref) :=
  m ← gets model;
  match m !! r with
  | Some (child_name, Linear weights bias) =>
      g ← gets generator;
      let '(weights, g) := normal_ g weights in
      set_generator g;;
      set_model (<[r := (child_name, Linear weights bias)]> m);;
      emit (Logging INFO (Updating_layer r (shape weights)));;
      mret (Some r)
  | _ => mret weights_np
  end.

(** Lines 50-51, up to the logging call.  [list(labels.numpy())] iterates
    over the first dimension of the labels, which an array without
    dimensions has not.  [labels.count(label)] then compares every item of
    that list with a value of [np.unique(labels)] and takes the truth value
    of the comparison, which numpy refuses for an item that is an array of
    more than one element; labels of one dimension give items that are
    scalars. *)
Definition label_counts (labels : Tensor elt) : Result unit :=
  match shape labels with
  | [] => Raise (TypeError "iteration over a 0-d array")
  | n :: rest =>
      if (0 <? n) && (1 <? numel rest)
      then Raise (ValueError "The truth value of an array is ambiguous")
      else Ok tt
  end.

(** Lines 48-55, the body of the loop over the batches. *)
Definition train_batch (self : HebbianEngine R) (weights_np : option Ref)
    (data : Tensor elt * Tensor elt) : M world unit :=
  let '(inputs, labels) := data in
  lift (label_counts labels);;
  emit (Logging DEBUG (Label_counts labels));;
  n ← lift (py_getitem (shape inputs) 0);
  inputs ← lift (np_reshape (squeeze inputs) [n; -1]);
  weights ← read_np weights_np;
  emit (Rule_update (learning_rule self) inputs weights);;
  let d_p := update_np (learning_rule self) inputs weights in
  emit (Optimizer_local_step d_p);;
  m ← gets model;
  o ← gets optimizer;
  set_model (local_step o d_p m).

(** Lines 45-60, the body of the loop over the epochs. *)
Definition train_epoch (self : HebbianEngine R) (data_loader : DataLoader elt)
    (weights_np : option Ref) (input_shape : list Z) (epoch : nat) : M world unit :=
  o ← gets optimizer;
  emit (Logging INFO (Learning_rates (get_lr o)));;
  for_each (batches data_loader) (train_batch self weights_np);;
  o ← gets optimizer;
  emit Scheduler_step;;
  set_optimizer (scheduler_step o);;
  if visualize_weights self then
    weights ← read_np weights_np;
    emit (Draw_weights_update weights input_shape)
  else mret tt.

(** Line 66: [layer.weight.detach().numpy()] for every child, in the order
    of the children; it fails at the first child from which no weight tensor
    can be read. *)
Fixpoint all_weights (layers : list (Module elt)) : Result (list (Tensor elt)) :=
  match layers with
  | [] => Ok []
  | l :: layers' =>
      match get_weight l with
      | Ok w => match all_weights layers' with
                | Ok ws => Ok (w :: ws)
                | Raise e => Raise e
                end
      | Raise e => Raise e
      end
  end.

(** [HebbianEngine.train(model, data_loader, epochs)]; the progress bar is
    left out. *)
Definition train (self : HebbianEngine R) (data_loader : DataLoader elt)
    (epochs : Z) : M world (list (Tensor elt)) :=
  let samples := dataset_len data_loader in
  first ← match batches data_loader with
          | [] => raise StopIteration
          | b :: _ => mret b
          end;
  let input_shape := py_slice_from (shape first.1) 2 in
  emit (Logging INFO (Received_samples samples input_shape));;
  m ← gets model;
  weights_np ← for_fold (seq 0 (length m)) None init_child;
  (if visualize_weights self then
     emit (Pyplot "ion");;
     emit (Pyplot "figure");;
     weights ← read_np weights_np;
     emit (Draw_weights_update weights input_shape)
   else mret tt);;
  for_each (seq 0 (Z.to_nat epochs))
    (train_epoch self data_loader weights_np input_shape);;
  emit (Pyplot "ioff");;
  emit (Pyplot "close");;
  m ← gets model;
  lift (all_weights (children m)).

End Definitions.

End Engine.

(** ** Integer-valued collaborators for the examples *)

Module Toy.

(** The [n] rows of a row-major matrix with rows of the given width. *)
Fixpoint rows (n width : nat) (l : list Z) : list (list Z) :=
  match n with
  | O => []
  | S n' => take width l :: rows n' width (drop width l)
  end.

Definition dot (a b : list Z) : Z := foldr Z.add 0 (zip_with Z.mul a b).

(** [x @ w.T + b] for a two-dimensional [x], what [torch.nn.Linear] computes. *)
Definition linear (x w : Tensor Z) (b : option (Tensor Z)) : Tensor Z :=
  match shape x, shape w with
  | [n; i], [o; _] =>
      let xs := rows (Z.to_nat n) (Z.to_nat i) (data x) in
      let ws := rows (Z.to_nat o) (Z.to_nat i) (data w) in
      let bs := match b with
                | Some b => data b
                | None => replicate (Z.to_nat o) 0
                end in
      mkTensor [n; o] (concat (map (fun xr => zip_with Z.add (map (dot xr) ws) bs) xs))
  | _, _ => x
  end.

(** Only [Linear] children are run forward in the examples. *)
#[global] Instance torch : Torch Z := {|
  forward := fun _ lyr x =>
    match lyr with
    | Linear w b => linear x w b
    | _ => x
    end;
  extract_image_patches := fun x _ _ _ _ => x;
  convert_tensor := fun t => t
|}.

Definition fill (t : Tensor Z) (v : Z) : Tensor Z :=
  mkTensor (shape t) (map (fun _ => v) (data t)).

(** The rule [k] proposes the change [k] for every entry of the weight, and
    initialises every entry of the weights it is handed to [k]. *)
#[global] Instance rule : LearningRule Z Z := {|
  init_layers := fun k layers m =>
    foldr (fun lyr m =>
             alter (fun child : string * Module Z =>
                      match get_weight child.2 with
                      | Ok w => (child.1, set_weight child.2 (fill w k))
                      | Raise _ => child
                      end) (layer lyr) m) m layers;
  update := fun k _ weights => fill weights k
|}.

(** The optimizer adds the change to the weight. *)
#[global] Instance sgd : Optimizer Z unit := {|
  step := fun _ p d_p => mkTensor (shape p) (zip_with Z.add (data p) (data d_p))
|}.

(** For the engine: the generator is a counter whose value fills the weight;
    the optimizer is the position of the one child it was built for. *)
#[global] Instance engine : Engine.Collaborators Z Z Ref Z := {|
  Engine.normal_ := fun g t => (fill t g, g + 1);
  Engine.update_np := fun k inputs weights =>
    match weights with
    | Some w => fill w k
    | None => fill inputs k
    end;
  Engine.local_step_weight := fun o d_p r p =>
    if decide (r = o) then mkTensor (shape p) (zip_with Z.add (data p) (data d_p))
    else p;
  Engine.get_lr := fun _ => [1];
  Engine.scheduler_step := fun o => o
|}.

(** Two dense layers 1 -> 1 without bias, with weights 2 and 3. *)
Definition two_dense : Model Z :=
  [("fc1", Linear (mkTensor [1; 1] [2]) None);
   ("fc2", Linear (mkTensor [1; 1] [3]) None)].

(** A batch of one sample with one feature, of value 1, and label 0. *)
Definition batch1 : Tensor Z * Tensor Z :=
  (mkTensor [1; 1] [1], mkTensor [1] [0]).

(** One dense layer 4 -> 3 without bias. *)
Definition dense43 : Model Z :=
  [("fc", Linear (mkTensor [3; 4] (replicate 12 1)) None)].

(** Two samples, each of two rows of four features. *)
Definition inputs224 : Tensor Z := mkTensor [2; 2; 4] (replicate 16 1).

Definition world0 (m : Model Z) : Trainer.World Z Z := Trainer.mkWorld m false [].

(** An engine with the rule 5 that draws the weights, a loader of two
    batches, and a world whose generator starts at 10 and whose optimizer
    was built for the child at position 1. *)
Definition engine5 : Engine.HebbianEngine Z := Engine.mkHebbianEngine 5 true.

Definition loader2 : Engine.DataLoader Z := Engine.mkDataLoader 2 [batch1; batch1].

Definition engine_world : Engine.World Z Z nat Z :=
  Engine.mkWorld two_dense 10 1%nat [].

(** [two_dense] after the update of [fc1] by the rule [k] on [batch1]. *)
Definition after_fc1 (k : Z) : Trainer.World Z Z :=
  Trainer.mkWorld
    [("fc1", Linear (mkTensor [1; 1] [2 + k]) None);
     ("fc2", Linear (mkTensor [1; 1] [3]) None)]
    true
    [Trainer.Logging DEBUG (Trainer.Updating_layer 0 [1; 1]);
     Trainer.Logging DEBUG (Trainer.Prepared_shapes [1; 1] [1; 1]);
     Trainer.Rule_update k (mkTensor [1; 1] [1]) (mkTensor [1; 1] [2]);
     Trainer.Optimizer_local_step (mkTensor [1; 1] [k]) "fc1"].

(** Then with the data of [fc2] prepared. *)
Definition reached_fc2 (k : Z) : Trainer.World Z Z :=
  Trainer.mkWorld (Trainer.model (after_fc1 k)) true
    (Trainer.trace (after_fc1 k)
     ++ [Trainer.Logging DEBUG (Trainer.Updating_layer 1 [1; 1]);
         Trainer.Logging DEBUG (Trainer.Prepared_shapes [1; 1] [1; 1])]).

(** Then after the update of [fc2]. *)
Definition after_fc2 (k : Z) : Trainer.World Z Z :=
  Trainer.mkWorld
    [("fc1", Linear (mkTensor [1; 1] [2 + k]) None);
     ("fc2", Linear (mkTensor [1; 1] [3 + k]) None)]
    true
    (Trainer.trace (reached_fc2 k)
     ++ [Trainer.Rule_update k (mkTensor [1; 1] [2 + k]) (mkTensor [1; 1] [3]);
         Trainer.Optimizer_local_step (mkTensor [1; 1] [k]) "fc2"]).

(** A mapping with a rule for [fc1] and none for [fc2]. *)
Definition fc1_only : Trainer.RuleArg Z := Trainer.RuleDict [("fc1", 5)].

(** A trainer for [two_dense] with both layers trainable. *)
Definition trainer2 (lr : Trainer.RuleArg Z) : Trainer.HebbianTrainer Z :=
  Trainer.mkHebbianTrainer 2 [] [mkLayer 0 "fc1" 0; mkLayer 1 "fc2" 1] lr.

End Toy.

(** ** Notions used to state the properties *)

(** The exclusive upper bound of the positions scanned by
    [list(model.named_children())[:supervised_from]]. *)
Definition scan_cutoff (len : nat) (supervised_from : Z) : Z :=
  if supervised_from <? 0 then Z.of_nat len + supervised_from else supervised_from.

(** The record the scan makes of one enumerated child, if it makes one. *)
Definition select_layer {elt} (freeze_layers : list string)
    (item : Z * (string * Module elt)) : option Layer :=
  if is_linear_or_conv item.2.2 && bool_decide (item.2.1 ∉ freeze_layers)
  then Some (mkLayer item.1 item.2.1 (Z.to_nat item.1))
  else None.

Section Notions.
Context {elt R O : Type}.
Context `{!Torch elt, !LearningRule elt R, !Optimizer elt O}.

(** The activation the spec gives the data preparer: the batch inputs after
    the forward transformation of every layer whose index is below
    [layer_index], taken in the order of the model. *)
Definition spec_replay (mode : bool) (inputs : Tensor elt)
    (layers : list (Module elt)) (layer_index : Z) : Tensor elt :=
  fold_left (fun x item => if item.1 <? layer_index then forward mode item.2 x else x)
            (enumerate layers) inputs.

(** The changes handed to the optimizer, as a trace records them. *)
Definition steps_of (evs : list (Trainer.Event elt R)) : list (Tensor elt * string) :=
  omap (fun e => match e with
                 | Trainer.Optimizer_local_step d_p layer_name => Some (d_p, layer_name)
                 | _ => None
                 end) evs.

(** The model after those changes. *)
Definition apply_steps (optimizer : O) (steps : list (Tensor elt * string))
    (m : Model elt) : Model elt :=
  fold_left (fun m s => local_step optimizer s.1 s.2 m) steps m.

(** The rules a trace records as asked for a weight change. *)
Definition rules_of (evs : list (Trainer.Event elt R)) : list R :=
  omap (fun e => match e with
                 | Trainer.Rule_update rule _ _ => Some rule
                 | _ => None
                 end) evs.

(** What it takes for a rule to be the one of a layer. *)
Definition resolves (lr : Trainer.RuleArg R) (n : string) (r : R) : Prop :=
  match lr with
  | Trainer.SingleRule r' => r = r'
  | Trainer.RuleDict d => dict_lookup d n = Some r
  end.

End Notions.

(** For the engine. *)
Module EngineSpec.
Section Notions.
Context {elt R O G : Type}.
Context `{!Engine.Collaborators elt R O G}.

(** The position of the last [Linear] child met when the children from
    position [k] on are scanned in order; [found] is the one met before. *)
Fixpoint last_linear_from (k : nat) (m : Model elt) (found : option Ref) : option Ref :=
  match m with
  | [] => found
  | (_, Linear _ _) :: m' => last_linear_from (S k) m' (Some k)
  | _ :: m' => last_linear_from (S k) m' found
  end.

Definition last_linear (m : Model elt) : option Ref := last_linear_from 0 m None.

(** The model with the weight of every [Linear] child drawn afresh, in the
    order of the children, and the generator after the draws. *)
Fixpoint reinit (g : G) (m : Model elt) : Model elt * G :=
  match m with
  | [] => ([], g)
  | (n, Linear w b) :: m' =>
      let '(w', g') := Engine.normal_ g w in
      let '(m'', g'') := reinit g' m' in
      ((n, Linear w' b) :: m'', g'')
  | child :: m' =>
      let '(m'', g'') := reinit g m' in
      (child :: m'', g'')
  end.

(** The messages logged while the weights are drawn, [k] being the position
    of the first child of [m]. *)
Fixpoint init_logs (k : nat) (g : G) (m : Model elt) : list (Engine.Event elt R) :=
  match m with
  | [] => []
  | (_, Linear w _) :: m' =>
      let '(w', g') := Engine.normal_ g w in
      Engine.Logging INFO (Engine.Updating_layer k (shape w')) :: init_logs (S k) g' m'
  | _ :: m' => init_logs (S k) g m'
  end.

(** The model and the optimizer after an event. *)
Definition replay_event (st : Model elt * O) (e : Engine.Event elt R) : Model elt * O :=
  match e with
  | Engine.Optimizer_local_step d_p => (Engine.local_step st.2 d_p st.1, st.2)
  | Engine.Scheduler_step => (st.1, Engine.scheduler_step st.2)
  | _ => st
  end.

Definition replay (evs : list (Engine.Event elt R)) (st : Model elt * O) : Model elt * O :=
  fold_left replay_event evs st.

(** Every weight change asked of the rule along [evs] was asked of [rule],
    for the weight array that [weights_np] denotes in the model of that
    moment, and the change it returned is the very next thing handed to the
    optimizer. *)
Fixpoint updates_read (weights_np : option Ref) (rule : R) (st : Model elt * O)
    (evs : list (Engine.Event elt R)) : Prop :=
  match evs with
  | [] => True
  | e :: evs' =>
      match e with
      | Engine.Rule_update r inputs weights =>
          r = rule ∧ Engine.array_of st.1 weights_np = Ok weights ∧
          ∃ evs'', evs' = Engine.Optimizer_local_step
                            (Engine.update_np r inputs weights) :: evs''
      | _ => True
      end ∧ updates_read weights_np rule (replay_event st e) evs'
  end.

(** The inputs of the rule calls and the changes handed to the optimizer
    that a trace records. *)
Definition updates_of (evs : list (Engine.Event elt R)) : list (Tensor elt) :=
  omap (fun e => match e with
                 | Engine.Rule_update _ inputs _ => Some inputs
                 | _ => None
                 end) evs.

Definition steps_of (evs : list (Engine.Event elt R)) : list (Tensor elt) :=
  omap (fun e => match e with
                 | Engine.Optimizer_local_step d_p => Some d_p
                 | _ => None
                 end) evs.

(** Events that leave the model and the optimizer alone and ask nothing of
    the rule. *)
Definition quiet (e : Engine.Event elt R) : Prop :=
  match e with
  | Engine.Logging _ _ | Engine.Draw_weights_update _ _ | Engine.Pyplot _ => True
  | _ => False
  end.

(** From [s] to [s']: [n] rule calls, each for the array behind
    [weights_np], and as many optimizer steps; the generator is untouched. *)
Definition advances (weights_np : option Ref) (rule : R)
    (s s' : Engine.World elt R O G) (n : nat) : Prop :=
  ∃ evs,
    Engine.trace s' = Engine.trace s ++ evs ∧
    Engine.generator s' = Engine.generator s ∧
    (Engine.model s', Engine.optimizer s')
    = replay evs (Engine.model s, Engine.optimizer s) ∧
    updates_read weights_np rule (Engine.model s, Engine.optimizer s) evs ∧
    length (updates_of evs) = n ∧ length (steps_of evs) = n.

(** Whether a child has a [weight] attribute, and which children have. *)
Definition has_weight (l : Module elt) : bool :=
  match get_weight l with
  | Ok _ => true
  | Raise _ => false
  end.

Definition weighted (m : Model elt) : list bool := (fun c => has_weight c.2) <$> m.

(** [weights_np] denotes an array in every model whose weighted children
    are [ws]. *)
Definition readable (ws : list bool) (weights_np : option Ref) : Prop :=
  match weights_np with
  | Some r => ws !! r = Some true
  | None => True
  end.

(** A batch whose inputs [np.reshape] can bring to two dimensions. *)
Definition reshapable (data : Tensor elt * Tensor elt) : Prop :=
  ∃ n x, py_getitem (shape data.1) 0 = Ok n ∧
         Engine.np_reshape (Engine.squeeze data.1) [n; -1] = Ok x.

(** A batch whose labels have one dimension, one label per sample. *)
Definition flat_labels (data : Tensor elt * Tensor elt) : Prop :=
  ∃ n, shape data.2 = [n].




(** [r] is the position of the last [Linear] child of [m], if there is one. *)
Definition is_last_linear (m : Model elt) (r : option Ref) : Prop :=
  match r with
  | Some r =>
      (∃ n w b, m !! r = Some (n, Linear w b)) ∧
      ∀ j n w b, m !! j = Some (n, Linear w b) → (j ≤ r)%nat
  | None => ∀ j n w b, m !! j ≠ Some (n, Linear w b)
  end.

End Notions.
End EngineSpec.

(** ** Notions for the further properties *)

(** Two children of the same name that differ at most in the contents of
    their weight: the class, the bias and the geometry are the same. *)
Definition same_but_weight {elt} (c c' : string * Module elt) : Prop :=
  c'.1 = c.1 ∧ ∃ w, c'.2 = set_weight c.2 w.

(** A record that refers, by position and by name, to a child of [m] that
    is a [Linear] or a [Conv2d]. *)
Definition refers_to {elt} (m : Model elt) (r : Layer) : Prop :=
  idx r = Z.of_nat (layer r) ∧
  ∃ l, m !! layer r = Some (name r, l) ∧ is_linear_or_conv l = true.

(** The steps of the optimizer and of the scheduler that a trace of the
    engine records, in order. *)
Inductive Beat := Optimizer_beat | Scheduler_beat.

Definition beats {elt R} (evs : list (Engine.Event elt R)) : list Beat :=
  omap (fun e => match e with
                 | Engine.Optimizer_local_step _ => Some Optimizer_beat
                 | Engine.Scheduler_step => Some Scheduler_beat
                 | _ => None
                 end) evs.

(** * Properties *)

(** ** Python slices, indices and views on small inputs *)

Example py_slice_to_negative : py_slice_to [10; 20; 30] (-1) = [10; 20].
Proof. reflexivity. Qed.

Example py_slice_to_beyond : py_slice_to [10; 20; 30] 7 = [10; 20; 30].
Proof. reflexivity. Qed.

Example py_slice_to_below : py_slice_to [10; 20; 30] (-5) = [].
Proof. reflexivity. Qed.

Example py_getitem_negative : py_getitem [10; 20; 30] (-1) = Ok 30.
Proof. reflexivity. Qed.

Example py_getitem_out_of_range : py_getitem [10; 20; 30] 3 = Raise IndexError.
Proof. reflexivity. Qed.

Example infer_size_rows : infer_size [2; -1] 16 = Ok [2; 8].
Proof. reflexivity. Qed.

Example infer_size_kernel : infer_size [-1; 9] 18 = Ok [2; 9].
Proof. reflexivity. Qed.

Example infer_size_mismatch :
  infer_size [3; 4] 16 = Raise (RuntimeError "shape is invalid for input size").
Proof. reflexivity. Qed.

Example infer_size_empty_batch :
  infer_size [0; -1] 0 = Raise (RuntimeError "shape is invalid or ambiguous").
Proof. reflexivity. Qed.

(** ** The layer registry *)

Section Registry.
Context {elt : Type}.
Implicit Types (model : Model elt) (freeze_layers : list string).

Lemma scan_layers_omap freeze_layers (items : list (Z * (string * Module elt))) acc :
  scan_layers freeze_layers items acc = acc ++ omap (select_layer freeze_layers) items.
Proof.
  revert acc. induction items as [|[i [n l]] items IH]; intros acc; simpl.
  - by rewrite app_nil_r.
  - unfold select_layer at 1; simpl.
    destruct (is_linear_or_conv l && bool_decide (n ∉ freeze_layers)).
    + by rewrite IH, <- app_assoc.
    + apply IH.
Qed.

Lemma lookup_py_slice_to {A} (l : list A) stop i a :
  py_slice_to l stop !! i = Some a ↔
  l !! i = Some a ∧ Z.of_nat i < scan_cutoff (length l) stop.
Proof.
  unfold py_slice_to, scan_cutoff.
  destruct (stop <? 0) eqn:E; rewrite lookup_take_Some; intuition lia.
Qed.

Lemma elem_of_trainable_layers model supervised_from freeze_layers r :
  r ∈ trainable_layers model supervised_from freeze_layers ↔
  ∃ (i : nat) (n : string) (lyr : Module elt),
    model !! i = Some (n, lyr) ∧
    Z.of_nat i < scan_cutoff (length model) supervised_from ∧
    is_linear_or_conv lyr = true ∧ (n ∉ freeze_layers) ∧
    r = mkLayer (Z.of_nat i) n i.
Proof.
  unfold trainable_layers, enumerate.
  rewrite scan_layers_omap, app_nil_l, list_elem_of_omap. split.
  - intros ([i [n lyr]] & Hin & Hsel).
    apply elem_of_lookup_imap in Hin as (j & [n' lyr'] & Heq & Hj).
    injection Heq as Hi Hn Hl; subst i n' lyr'.
    apply lookup_py_slice_to in Hj as [Hj Hlt].
    unfold select_layer in Hsel; simpl in Hsel.
    destruct (is_linear_or_conv lyr) eqn:Hk; simpl in Hsel; [|done].
    case_bool_decide; [|done].
    injection Hsel as <-. exists j, n, lyr.
    by rewrite Nat2Z.id.
  - intros (i & n & lyr & Hi & Hlt & Hk & Hfz & ->).
    exists (Z.of_nat i, (n, lyr)). split.
    + apply (elem_of_lookup_imap_2 (λ i a, (Z.of_nat i, a))).
      by apply lookup_py_slice_to.
    + unfold select_layer; simpl. rewrite Hk; simpl.
      rewrite bool_decide_eq_true_2 by done. by rewrite Nat2Z.id.
Qed.

Lemma omap_cons {A B} (f : A → option B) x l :
  omap f (x :: l) = match f x with Some y => y :: omap f l | None => omap f l end.
Proof. reflexivity. Qed.

Lemma select_layer_idx freeze_layers (item : Z * (string * Module elt)) r :
  select_layer freeze_layers item = Some r → idx r = item.1.
Proof.
  unfold select_layer.
  destruct (is_linear_or_conv _ && _); [|done]. by intros [= <-].
Qed.

Lemma select_layers_sorted freeze_layers (items : list (string * Module elt)) (k : nat) :
  let L := omap (select_layer freeze_layers)
                (imap (λ i a, (Z.of_nat (k + i), a)) items) in
  Forall (λ r, Z.of_nat k ≤ idx r) L ∧ StronglySorted Z.lt (idx <$> L).
Proof.
  cbv zeta. revert k. induction items as [|item items IH]; intros k.
  - split; constructor.
  - destruct (IH (S k)) as [Hge Hsorted].
    assert (Forall (λ r, Z.of_nat k < idx r)
              (omap (select_layer freeze_layers)
                 (imap (λ i a, (Z.of_nat (S k + i), a)) items))) as Hgt.
    { eapply Forall_impl; [exact Hge|]. simpl; intros; lia. }
    rewrite imap_cons, omap_cons.
    rewrite (imap_ext _ (λ i a, (Z.of_nat (S k + i), a)) items) by
      (intros; simpl; f_equal; lia).
    destruct (select_layer freeze_layers _) as [r|] eqn:Hsel.
    + apply select_layer_idx in Hsel; simpl in Hsel.
      split.
      * constructor; [lia|].
        eapply Forall_impl; [exact Hgt|]. simpl; intros; lia.
      * rewrite fmap_cons. apply StronglySorted_cons. split; [|done].
        apply Forall_fmap. eapply Forall_impl; [exact Hgt|].
        simpl; intros; lia.
    + split; [|done].
      eapply Forall_impl; [exact Hgt|]. simpl; intros; lia.
Qed.

(** C7.  Whatever the model, [supervised_from] and [freeze_layers], every
    record of the list built at construction has a name outside
    [freeze_layers], refers to the child of the model at its [idx], which
    bears the record's name and is a [Linear] or a [Conv2d], and the [idx]
    values increase strictly along the list. *)
Theorem trainable_layers_invariant model supervised_from freeze_layers :
  let L := trainable_layers model supervised_from freeze_layers in
  Forall (λ r, (name r ∉ freeze_layers) ∧
               idx r = Z.of_nat (layer r) ∧
               ∃ lyr, model !! layer r = Some (name r, lyr) ∧
                      is_linear_or_conv lyr = true) L
  ∧ StronglySorted Z.lt (idx <$> L).
Proof.
  simpl. split.
  - apply Forall_forall. intros r Hr.
    apply elem_of_trainable_layers in Hr
      as (i & n & lyr & Hi & _ & Hk & Hfz & ->); simpl.
    repeat split; [done|]. by exists lyr.
  - unfold trainable_layers, enumerate.
    rewrite scan_layers_omap, app_nil_l.
    apply (select_layers_sorted freeze_layers _ 0).
Qed.

(** C2, as the code has it.  A negative [supervised_from] counts from the
    end of the model, as in any Python slice: the scan covers the positions
    below [len(model) + supervised_from].  With [supervised_from = -1] and
    no frozen layer the records are those of the [Linear] and [Conv2d]
    children other than the last child of the model, with their names and
    positions. *)
Theorem trainable_layers_cutoff model :
  (∀ supervised_from freeze_layers r,
     r ∈ trainable_layers model supervised_from freeze_layers ↔
     ∃ (i : nat) (n : string) (lyr : Module elt),
       model !! i = Some (n, lyr) ∧
       Z.of_nat i < scan_cutoff (length model) supervised_from ∧
       is_linear_or_conv lyr = true ∧ (n ∉ freeze_layers) ∧
       r = mkLayer (Z.of_nat i) n i)
  ∧ (∀ k : positive,
       scan_cutoff (length model) (Z.neg k)
       = Z.of_nat (length model) - Z.pos k)
  ∧ (∀ r,
       r ∈ trainable_layers model (-1) [] ↔
       ∃ (i : nat) (n : string) (lyr : Module elt),
         model !! i = Some (n, lyr) ∧ (S i < length model)%nat ∧
         is_linear_or_conv lyr = true ∧ r = mkLayer (Z.of_nat i) n i).
Proof.
  split; [|split].
  - intros. apply elem_of_trainable_layers.
  - intros k. unfold scan_cutoff. simpl. lia.
  - intros r. rewrite elem_of_trainable_layers. unfold scan_cutoff; simpl.
    split.
    + intros (i & n & lyr & Hi & Hlt & Hk & _ & ->).
      exists i, n, lyr. repeat split; [done|lia|done].
    + intros (i & n & lyr & Hi & Hlt & Hk & ->).
      exists i, n, lyr. repeat split; [done|lia|done|].
      apply not_elem_of_nil.
Qed.

End Registry.

(** C2 fails as stated: with [supervised_from = -1] and nothing frozen, the
    only child of a one-layer dense model, which is its last child, has no
    record. *)
Lemma default_cutoff_drops_last_layer :
  Toy.dense43 !! 0%nat = Some ("fc"%string, Linear (mkTensor [3; 4] (replicate 12 1)) None)
  ∧ is_linear_or_conv (Linear (mkTensor [3; 4] (replicate 12 1)) None) = true
  ∧ trainable_layers Toy.dense43 (-1) [] = [].
Proof. repeat split. Qed.

(** ** Running effectful code *)

Lemma Result_bind_ok {A B} (r : Result A) (f : A → Result B) b :
  r ≫= f = Ok b → ∃ a, r = Ok a ∧ f a = Ok b.
Proof. destruct r as [a|e]; [|done]. intros H. by exists a. Qed.

Section Running.
Context {S : Type}.

Lemma bind_run {A B} (m : M S A) (f : A → M S B) s :
  (m ≫= f) s = match m s with
               | (Ok a, s') => f a s'
               | (Raise e, s') => (Raise e, s')
               end.
Proof. reflexivity. Qed.

Lemma for_each_app {A} (l1 l2 : list A) (body : A → M S unit) s :
  for_each (l1 ++ l2) body s = (for_each l1 body ;; for_each l2 body) s.
Proof.
  revert s. induction l1 as [|a l1 IH]; intros s; simpl; [done|].
  rewrite !bind_run. destruct (body a s) as [[[]|e] s']; [|done].
  rewrite IH. by rewrite bind_run.
Qed.

Lemma for_each_raise {A} (pre post : list A) a (body : A → M S unit) s s1 s2 e :
  for_each pre body s = (Ok tt, s1) →
  body a s1 = (Raise e, s2) →
  for_each (pre ++ a :: post) body s = (Raise e, s2).
Proof.
  intros Hpre Ha. rewrite for_each_app, bind_run, Hpre. simpl.
  by rewrite bind_run, Ha.
Qed.

Lemma for_each_ok_app {A} (l1 l2 : list A) (body : A → M S unit) s s' :
  for_each (l1 ++ l2) body s = (Ok tt, s') →
  ∃ s1, for_each l1 body s = (Ok tt, s1) ∧ for_each l2 body s1 = (Ok tt, s').
Proof.
  rewrite for_each_app, bind_run.
  destruct (for_each l1 body s) as [[[]|e] s1]; [|done]. eauto.
Qed.

Lemma for_each_ok_cons {A} a (l : list A) (body : A → M S unit) s s' :
  for_each (a :: l) body s = (Ok tt, s') →
  ∃ s1, body a s = (Ok tt, s1) ∧ for_each l body s1 = (Ok tt, s').
Proof.
  simpl. rewrite bind_run.
  destruct (body a s) as [[[]|e] s1]; [|done]. eauto.
Qed.

End Running.

(** Unfolds the operations of [M]. *)
Ltac run_monad :=
  unfold mbind, M_bind, mret, M_ret, gets, lift, modify, raise, try_except in *;
  simpl in *.

Import Trainer.

(** ** The data preparer *)

Section DataPreparer.
Context {elt R O : Type}.
Context `{!Torch elt, !LearningRule elt R, !Optimizer elt O}.
Implicit Types (layers : list (Module elt)) (inputs x w : Tensor elt).

Lemma fold_enumerate_below mode layers (k n : nat) x :
  fold_left (λ x item, if item.1 <? Z.of_nat n then forward mode item.2 x else x)
            (imap (λ i a, (Z.of_nat (k + i), a)) layers) x
  = fold_left (λ x lyr, forward mode lyr x) (take (n - k) layers) x.
Proof.
  revert k x. induction layers as [|a layers IH]; intros k x.
  - by rewrite take_nil.
  - rewrite imap_cons.
    rewrite (imap_ext _ (λ i a, (Z.of_nat (S k + i), a)) layers) by
      (intros; simpl; f_equal; lia).
    cbn [fold_left fst snd]. rewrite IH.
    destruct (Z.of_nat (k + 0) <? Z.of_nat n) eqn:E.
    + apply Z.ltb_lt in E.
      replace (n - k)%nat with (S (n - S k)) by lia. done.
    + apply Z.ltb_ge in E.
      replace (n - S k)%nat with 0%nat by lia.
      replace (n - k)%nat with 0%nat by lia. done.
Qed.

Lemma input_before_spec mode inputs layers (n : nat) :
  input_before mode inputs layers (Z.of_nat n)
  = spec_replay mode inputs layers (Z.of_nat n).
Proof.
  unfold spec_replay, enumerate.
  rewrite (imap_ext _ (λ i a, (Z.of_nat (0 + i), a)) layers) by done.
  rewrite fold_enumerate_below, Nat.sub_0_r.
  unfold input_before, py_slice_to.
  destruct n as [|n]; [done|].
  rewrite (proj2 (Z.eqb_neq _ _)) by lia.
  rewrite (proj2 (Z.ltb_ge _ _)) by lia.
  by rewrite Nat2Z.id.
Qed.

Lemma numel_cons n rest : numel (n :: rest) = n * numel rest.
Proof. reflexivity. Qed.

Lemma view_rows x n rest x' :
  shape x = n :: rest →
  view x [n; -1] = Ok x' →
  0 < n ∧ shape x' = [n; numel rest] ∧ data x' = data x.
Proof.
  intros Hs. unfold view, infer_size. rewrite Hs, numel_cons.
  cbn [existsb filter list_filter].
  destruct (decide (n ≠ -1)) as [Hn|Hn]; cbn [length Nat.sub numel foldr];
    [|by destruct (_ || _)].
  destruct (n <? -1) eqn:E1; [done|]. apply Z.ltb_ge in E1.
  cbn [orb]. replace (-1 <? -1) with false by done. cbn [orb].
  rewrite Z.mul_1_r.
  destruct (n =? 0) eqn:E2; [done|]. apply Z.eqb_neq in E2.
  destruct (_ mod _ =? 0); [|done].
  intros [= <-]. cbn [map shape data].
  rewrite (proj2 (Z.eqb_neq n (-1))) by done. cbn.
  repeat split; [lia|].
  by rewrite Z.mul_comm, Z.div_mul.
Qed.

Lemma view_kernel weight kk w :
  view weight [-1; kk] = Ok w →
  0 < kk ∧ shape w = [numel (shape weight) / kk; kk] ∧ data w = data weight.
Proof.
  unfold view, infer_size. cbn [existsb filter list_filter].
  replace (-1 <? -1) with false by done. cbn [orb].
  destruct (decide (-1 ≠ -1)) as [?|_]; [done|].
  destruct (decide (kk ≠ -1)) as [Hn|Hn]; cbn [length Nat.sub numel foldr];
    [|by destruct (_ || _)].
  destruct (kk <? -1) eqn:E1; [done|]. apply Z.ltb_ge in E1. cbn [orb].
  rewrite Z.mul_1_r.
  destruct (kk =? 0) eqn:E2; [done|]. apply Z.eqb_neq in E2.
  destruct (_ mod _ =? 0); [|done].
  intros [= <-]. cbn [map shape data].
  rewrite (proj2 (Z.eqb_neq kk (-1))) by done. cbn.
  repeat split. lia.
Qed.

Lemma py_getitem_0 {A} (l : list A) a :
  py_getitem l 0 = Ok a ↔ ∃ rest, l = a :: rest.
Proof.
  unfold py_getitem. simpl. destruct l as [|b l]; simpl.
  - split; [done|]. by intros [? ?].
  - split; [intros [= ->]; eauto|]. by intros [? [= -> ->]].
Qed.

Lemma prepare_tensors_shapes mode inputs layers layer_index x w :
  prepare_tensors mode inputs layers layer_index = Ok (x, w) →
  ∃ layer, py_getitem layers layer_index = Ok layer ∧
    let act := input_before mode inputs layers layer_index in
    match layer with
    | Linear weight _ =>
        w = weight ∧
        ∃ n rest, shape act = n :: rest ∧ shape x = [n; numel rest] ∧
          (shape x !! 1%nat = shape w !! 1%nat ↔
           shape weight !! 1%nat = Some (numel rest))
    | Conv2d weight _ ks st pd dl =>
        shape w = [numel (shape weight) / (ks.1 * ks.2); ks.1 * ks.2] ∧
        data w = data weight ∧
        ∃ n rest, shape (extract_image_patches act ks st pd dl) = n :: rest ∧
          shape x = [n; numel rest] ∧
          (shape x !! 1%nat = shape w !! 1%nat ↔ numel rest = ks.1 * ks.2)
    | Other _ _ => False
    end.
Proof.
  unfold prepare_tensors. intros H.
  apply Result_bind_ok in H as (layer & Hl & H).
  exists layer. split; [done|]. cbn zeta.
  apply Result_bind_ok in H as ([x0 w0] & Hwp & H).
  apply Result_bind_ok in H as (n & Hn & H).
  apply Result_bind_ok in H as (x' & Hv & H).
  injection H as -> ->.
  apply py_getitem_0 in Hn as [rest Hs].
  apply (view_rows _ _ _ _ Hs) in Hv as (_ & Hx & _).
  destruct layer as [weight b|weight b ks st pd dl|c ow]; [| |done].
  - injection Hwp as -> ->.
    split; [done|]. exists n, rest. rewrite Hx. split; [done|]. split; [done|].
    simpl. split; congruence.
  - unfold weight_and_patches in Hwp.
    apply Result_bind_ok in Hwp as (w' & Hw & Hwp).
    injection Hwp as -> ->.
    apply view_kernel in Hw as (_ & Hw & Hd).
    split; [done|]. split; [done|]. exists n, rest. rewrite Hx, Hw.
    split; [done|]. split; [done|]. simpl. split; congruence.
Qed.

Lemma _prepare_data_run inputs layer_index (s : World elt R) :
  _prepare_data inputs layer_index s
  = match prepare_tensors (training s) inputs (children (model s)) layer_index with
    | Ok (x, w) =>
        (Ok (x, w),
         mkWorld (model s) (training s)
           (trace s ++ [Logging DEBUG (Prepared_shapes (shape x) (shape w))]))
    | Raise e => (Raise e, s)
    end.
Proof.
  unfold _prepare_data, emit. run_monad.
  by destruct (prepare_tensors _ _ _ _) as [[x w]|e].
Qed.

(** C4.  The activation handed on by the data preparer is the batch inputs
    when [layer_index] is 0, and for every [layer_index >= 0] the result of
    applying, in the order of the model, the forward transformation of every
    child whose index lies below [layer_index], trainable or not; what
    [_prepare_data] returns is computed from that activation.  For a model made of
    a [Conv2d] and a [Linear], the prepared input of the [Linear] is the
    flattened output of the [Conv2d] on the batch inputs. *)
Theorem data_preparer_replay mode inputs layers :
  (∀ layer_index (s : World elt R),
     (_prepare_data inputs layer_index s).1
     = prepare_tensors (training s) inputs (children (model s)) layer_index)
  ∧ input_before mode inputs layers 0 = inputs
  ∧ (∀ n : nat,
       input_before mode inputs layers (Z.of_nat n)
       = spec_replay mode inputs layers (Z.of_nat n))
  ∧ (∀ n : nat,
       prepare_tensors mode inputs layers (Z.of_nat n)
       = (layer ← py_getitem layers (Z.of_nat n);
          '(x, w) ← weight_and_patches layer
                      (spec_replay mode inputs layers (Z.of_nat n));
          rows ← py_getitem (shape x) 0;
          x ← view x [rows; -1];
          mret (x, w)))
  ∧ (∀ cw cb ks st pd dl lw lb,
       let conv := Conv2d cw cb ks st pd dl in
       prepare_tensors mode inputs [conv; Linear lw lb] 1
       = (rows ← py_getitem (shape (forward mode conv inputs)) 0;
          x ← view (forward mode conv inputs) [rows; -1];
          mret (x, lw))).
Proof.
  split.
  { intros k s. rewrite _prepare_data_run.
    by destruct (prepare_tensors _ _ _ _) as [[x w]|e]. }
  split; [done|]. split; [apply input_before_spec|]. split.
  - intros n. unfold prepare_tensors. by rewrite input_before_spec.
  - done.
Qed.

(** C3, as the code has it.  When the data preparer returns for a layer:
    for a [Linear] the weight view is the weight itself and the prepared
    input has the shape [[n; f]], [n] being the first dimension of the
    replayed activation and [f] the product of the others; for a [Conv2d]
    the weight view has the weight's contents and a second dimension
    [kH * kW], and the prepared input has the shape [[n; f]] read in the same
    way off the extracted patches.  The second dimensions of the pair agree
    exactly when [f] is the second dimension of the weight view; nothing in
    the preparer makes it so. *)
Theorem prepared_shapes inputs layer_index (s s' : World elt R) x w :
  _prepare_data inputs layer_index s = (Ok (x, w), s') →
  ∃ layer, py_getitem (children (model s)) layer_index = Ok layer ∧
    let act := input_before (training s) inputs (children (model s)) layer_index in
    match layer with
    | Linear weight _ =>
        w = weight ∧
        ∃ n rest, shape act = n :: rest ∧ shape x = [n; numel rest] ∧
          (shape x !! 1%nat = shape w !! 1%nat ↔
           shape weight !! 1%nat = Some (numel rest))
    | Conv2d weight _ ks st pd dl =>
        shape w = [numel (shape weight) / (ks.1 * ks.2); ks.1 * ks.2] ∧
        data w = data weight ∧
        ∃ n rest, shape (extract_image_patches act ks st pd dl) = n :: rest ∧
          shape x = [n; numel rest] ∧
          (shape x !! 1%nat = shape w !! 1%nat ↔ numel rest = ks.1 * ks.2)
    | Other _ _ => False
    end.
Proof.
  rewrite _prepare_data_run. intros H.
  apply (prepare_tensors_shapes (training s)).
  destruct (prepare_tensors _ _ _ _) as [[x0 w0]|e]; [|done].
  by injection H as -> -> _.
Qed.

End DataPreparer.

(** C3 fails as stated: a dense layer 4 -> 3 accepts a batch of two samples
    of two rows of four features each; for it the preparer returns an input
    with eight columns and the weight with four. *)
Lemma prepared_columns_differ :
  (_prepare_data Toy.inputs224 0 (Toy.world0 Toy.dense43)).1
  = Ok (mkTensor [2; 8] (replicate 16 1), mkTensor [3; 4] (replicate 12 1))
  ∧ [2; 8] !! 1%nat ≠ [3; 4] !! 1%nat.
Proof. split; [reflexivity|discriminate]. Qed.

(** [prepared_shapes] at that layer and batch. *)
Lemma prepared_shapes_witness :
  _prepare_data Toy.inputs224 0 (Toy.world0 Toy.dense43)
  = (Ok (mkTensor [2; 8] (replicate 16 1), mkTensor [3; 4] (replicate 12 1)),
     mkWorld Toy.dense43 false [Logging DEBUG (Prepared_shapes [2; 8] [3; 4])])
  ∧ ∃ layer, py_getitem (children Toy.dense43) 0 = Ok layer ∧
      match layer with
      | Linear weight _ =>
          mkTensor [3; 4] (replicate 12 1) = weight ∧
          ∃ n rest, shape Toy.inputs224 = n :: rest ∧ [2; 8] = [n; numel rest] ∧
            ([2; 8] !! 1%nat = [3; 4] !! 1%nat ↔
             shape weight !! 1%nat = Some (numel rest))
      | _ => False
      end.
Proof.
  split; [reflexivity|].
  destruct (prepared_shapes Toy.inputs224 0 (Toy.world0 Toy.dense43) _ _ _ eq_refl)
    as (layer & Hl & H).
  exists layer. split; [exact Hl|].
  injection Hl as <-. exact H.
Defined.

(** ** The per-batch update *)

Section Update.
Context {elt R O : Type}.
Context `{!Torch elt, !LearningRule elt R, !Optimizer elt O}.
Implicit Types (s : World elt R) (lyr : Layer) (x : Tensor elt).

(** The world after one more event. *)
Local Abbreviation logged s evs := (mkWorld (model s) (training s) (trace s ++ evs)).

Lemma prepare_layer_run x lyr s :
  prepare_layer x lyr s
  = match weight_of (model s) (layer lyr) with
    | Ok wt =>
        _prepare_data x (idx lyr)
          (logged s [Logging DEBUG (Updating_layer (layer lyr) (shape wt))])
    | Raise e => (Raise e, s)
    end.
Proof.
  unfold prepare_layer, emit. run_monad.
  by destruct (weight_of _ _).
Qed.

Lemma resolve_rule_run lr n s :
  resolve_rule lr n s
  = match lr with
    | SingleRule r => (Ok r, s)
    | RuleDict d =>
        match dict_lookup d n with
        | Some r => (Ok r, s)
        | None => (Raise (KeyError n), logged s [Logging ERROR (No_learning_rule n)])
        end
    end.
Proof.
  destruct lr as [r|d]; [done|].
  unfold resolve_rule, dict_getitem, emit. run_monad.
  by destruct (dict_lookup d n).
Qed.

Lemma apply_rule_run opt r lyr inputs weights s :
  apply_rule opt r lyr inputs weights s
  = match wt ← weight_of (model s) (layer lyr);
          view (update r inputs weights) (shape wt) with
    | Ok d_p =>
        (Ok tt,
         mkWorld (local_step opt d_p (name lyr) (model s)) (training s)
           (trace s ++ [Rule_update r inputs weights;
                        Optimizer_local_step d_p (name lyr)]))
    | Raise e => (Raise e, logged s [Rule_update r inputs weights])
    end.
Proof.
  unfold apply_rule, emit, set_model. run_monad.
  destruct (weight_of _ _) as [wt|e]; simpl; [|done].
  destruct (view _ _) as [d_p|e]; simpl; [|done].
  by rewrite <- app_assoc.
Qed.

Lemma update_layer_ok lr opt x lyr s s' :
  update_layer lr opt x lyr s = (Ok tt, s') →
  ∃ wt inputs weights rule d_p,
    weight_of (model s) (layer lyr) = Ok wt ∧
    prepare_tensors (training s) x (children (model s)) (idx lyr) = Ok (inputs, weights) ∧
    resolves lr (name lyr) rule ∧
    view (update rule inputs weights) (shape wt) = Ok d_p ∧
    s' = mkWorld (local_step opt d_p (name lyr) (model s)) (training s)
           (trace s ++ [Logging DEBUG (Updating_layer (layer lyr) (shape wt));
                        Logging DEBUG (Prepared_shapes (shape inputs) (shape weights));
                        Rule_update rule inputs weights;
                        Optimizer_local_step d_p (name lyr)]).
Proof.
  unfold update_layer. rewrite bind_run, prepare_layer_run.
  destruct (weight_of (model s) (layer lyr)) as [wt|e] eqn:Hwt; [|done].
  rewrite _prepare_data_run. cbn [model training trace].
  destruct (prepare_tensors _ _ _ _) as [[inputs weights]|e] eqn:Hp; [|done].
  rewrite bind_run, resolve_rule_run.
  assert (∀ rule (P : resolves lr (name lyr) rule),
    apply_rule opt rule lyr inputs weights
      (logged (logged s [Logging DEBUG (Updating_layer (layer lyr) (shape wt))])
              [Logging DEBUG (Prepared_shapes (shape inputs) (shape weights))])
    = (Ok tt, s') → ∃ wt0 i0 w0 r0 d0,
      Ok wt = Ok wt0 ∧ Ok (inputs, weights) = Ok (i0, w0) ∧
      resolves lr (name lyr) r0 ∧ view (update r0 i0 w0) (shape wt0) = Ok d0 ∧
      s' = mkWorld (local_step opt d0 (name lyr) (model s)) (training s)
             (trace s ++ [Logging DEBUG (Updating_layer (layer lyr) (shape wt0));
                          Logging DEBUG (Prepared_shapes (shape i0) (shape w0));
                          Rule_update r0 i0 w0;
                          Optimizer_local_step d0 (name lyr)])) as Hrule.
  { intros rule Hres. rewrite apply_rule_run. cbn [model training trace].
    rewrite Hwt. cbn [mbind Result_bind].
    destruct (view _ _) as [d_p|e] eqn:Hv; [|done].
    intros [= <-]. exists wt, inputs, weights, rule, d_p.
    repeat split; [done..|]. by rewrite <- !app_assoc. }
  destruct lr as [r|d]; [by apply Hrule|].
  destruct (dict_lookup d (name lyr)) as [r|] eqn:Hd; [by apply Hrule|done].
Qed.

Lemma update_layer_raise lr opt x lyr s s' e :
  update_layer lr opt x lyr s = (Raise e, s') →
  model s' = model s ∧ training s' = training s ∧
  ∃ evs, trace s' = trace s ++ evs ∧ steps_of evs = [] ∧
         Forall (resolves lr (name lyr)) (rules_of evs).
Proof.
  unfold update_layer. rewrite bind_run, prepare_layer_run.
  destruct (weight_of (model s) (layer lyr)) as [wt|e0] eqn:Hwt.
  2:{ intros [= <- <-]. repeat split. exists []. by rewrite app_nil_r. }
  rewrite _prepare_data_run. cbn [model training trace].
  destruct (prepare_tensors _ _ _ _) as [[inputs weights]|e0] eqn:Hp.
  2:{ intros [= <- <-]. repeat split. by eexists [_]. }
  rewrite bind_run, resolve_rule_run.
  assert (∀ rule (P : resolves lr (name lyr) rule),
    apply_rule opt rule lyr inputs weights
      (logged (logged s [Logging DEBUG (Updating_layer (layer lyr) (shape wt))])
              [Logging DEBUG (Prepared_shapes (shape inputs) (shape weights))])
    = (Raise e, s') →
    model s' = model s ∧ training s' = training s ∧
    ∃ evs, trace s' = trace s ++ evs ∧ steps_of evs = [] ∧
           Forall (resolves lr (name lyr)) (rules_of evs)) as Hrule.
  { intros rule Hres. rewrite apply_rule_run. cbn [model training trace].
    rewrite Hwt. cbn [mbind Result_bind].
    destruct (view _ _) as [d_p|e0] eqn:Hv; [done|].
    intros [= <- <-]. repeat split.
    eexists [_; _; _]. rewrite <- !app_assoc. repeat split.
    by repeat constructor. }
  destruct lr as [r|d]; [by apply Hrule|].
  destruct (dict_lookup d (name lyr)) as [r|] eqn:Hd; [by apply Hrule|].
  intros [= <- <-]. repeat split.
  eexists [_; _; _]. rewrite <- !app_assoc. repeat split. constructor.
Qed.

Lemma steps_of_app (evs1 evs2 : list (Event elt R)) :
  steps_of (evs1 ++ evs2) = steps_of evs1 ++ steps_of evs2.
Proof. apply omap_app. Qed.

Lemma rules_of_app (evs1 evs2 : list (Event elt R)) :
  rules_of (evs1 ++ evs2) = rules_of evs1 ++ rules_of evs2.
Proof. apply omap_app. Qed.

Lemma apply_steps_app opt (st1 st2 : list (Tensor elt * string)) m :
  apply_steps opt (st1 ++ st2) m = apply_steps opt st2 (apply_steps opt st1 m).
Proof. apply fold_left_app. Qed.

(** A loop over records that goes through: one change per record, in
    order; the model is the one the changes make. *)
Lemma for_each_update_ok lr opt x ls s s' :
  for_each ls (update_layer lr opt x) s = (Ok tt, s') →
  training s' = training s ∧
  ∃ evs, trace s' = trace s ++ evs ∧
         model s' = apply_steps opt (steps_of evs) (model s) ∧
         (steps_of evs).*2 = name <$> ls ∧
         Forall2 (resolves lr) (name <$> ls) (rules_of evs).
Proof.
  revert s. induction ls as [|lyr ls IH]; intros s.
  - intros [= <-]. split; [done|]. exists []. by rewrite app_nil_r.
  - intros H. apply for_each_ok_cons in H as (s1 & Hlyr & Hls).
    apply update_layer_ok in Hlyr
      as (wt & inputs & weights & rule & d_p & _ & _ & Hres & _ & ->).
    apply IH in Hls as (Htr & evs & Hevs & Hm & Hnames & Hrules).
    cbn [model training trace] in *. split; [done|].
    eexists (_ :: _ :: _ :: _ :: evs). split; [|split; [|split]].
    + rewrite Hevs, <- app_assoc. reflexivity.
    + exact Hm.
    + cbn. by rewrite <- Hnames.
    + cbn. by constructor.
Qed.

(** A loop over records, however it ends: the events it adds. *)
Lemma for_each_update_rules lr opt x ls s res s' :
  for_each ls (update_layer lr opt x) s = (res, s') →
  training s' = training s ∧
  ∃ evs, trace s' = trace s ++ evs ∧
         model s' = apply_steps opt (steps_of evs) (model s) ∧
         Forall (λ r, ∃ lyr, lyr ∈ ls ∧ resolves lr (name lyr) r) (rules_of evs).
Proof.
  revert s. induction ls as [|lyr ls IH]; intros s.
  - intros [= <- <-]. split; [done|]. exists []. by rewrite app_nil_r.
  - simpl. rewrite bind_run.
    destruct (update_layer lr opt x lyr s) as [[[]|e] s1] eqn:Hlyr.
    + intros Hls.
      apply update_layer_ok in Hlyr
        as (wt & inputs & weights & rule & d_p & _ & _ & Hres & _ & ->).
      apply IH in Hls as (Htr & evs & Hevs & Hm & Hrules).
      cbn [model training trace] in *. split; [done|].
      eexists (_ :: _ :: _ :: _ :: evs). split; [|split].
      * rewrite Hevs, <- app_assoc. reflexivity.
      * exact Hm.
      * cbn. constructor.
        -- exists lyr. split; [left|done].
        -- eapply Forall_impl; [exact Hrules|].
           intros r (l & Hl & Hr). exists l. split; [by right|done].
    + intros [= <- <-].
      apply update_layer_raise in Hlyr as (Hm & Htr & evs & Hevs & Hsteps & Hrules).
      split; [done|]. exists evs. split; [done|]. split.
      * by rewrite Hsteps.
      * eapply Forall_impl; [exact Hrules|].
        intros r Hr. exists lyr. split; [left|done].
Qed.

Lemma create_hebbian_trainer_run {Out} (self : HebbianTrainer R) lr opt
    (pb : Tensor elt * Tensor elt → Tensor elt * Tensor elt)
    (ot : Tensor elt → Tensor elt → Out) batch s :
  create_hebbian_trainer self lr opt pb ot batch s
  = match for_each (layers self) (update_layer lr opt (pb batch).1)
            (mkWorld (model s) true (trace s)) with
    | (Ok _, s') => (Ok (ot (pb batch).1 (pb batch).2), s')
    | (Raise e, s') => (Raise e, s')
    end.
Proof.
  unfold create_hebbian_trainer, model_train. destruct (pb batch) as [x y].
  run_monad. by destruct (for_each _ _ _) as [[[]|e] s'].
Qed.

(** C1, as the code has it.  In a per-batch update that goes through, the
    prepared input handed to the rule for a record is what the data preparer
    computes on the model in which the changes of all earlier records of the
    same batch are already applied: the replay runs through the updated
    weights of the earlier layers.  Only for the first record is that the
    model as it was at the start of the batch. *)
Theorem prepared_input_follows_earlier_steps {Out} (self : HebbianTrainer R) lr opt
    (pb : Tensor elt * Tensor elt → Tensor elt * Tensor elt)
    (ot : Tensor elt → Tensor elt → Out) batch s out s' pre lyr post :
  layers self = pre ++ lyr :: post →
  create_hebbian_trainer self lr opt pb ot batch s = (Ok out, s') →
  ∃ evs_pre weight_shape inputs weights rule evs_post,
    trace s' = trace s ++ evs_pre
               ++ [Logging DEBUG (Updating_layer (layer lyr) weight_shape);
                   Logging DEBUG (Prepared_shapes (shape inputs) (shape weights));
                   Rule_update rule inputs weights]
               ++ evs_post
    ∧ (steps_of evs_pre).*2 = name <$> pre
    ∧ prepare_tensors true (pb batch).1
        (children (apply_steps opt (steps_of evs_pre) (model s))) (idx lyr)
      = Ok (inputs, weights)
    ∧ (pre = [] → apply_steps opt (steps_of evs_pre) (model s) = model s).
Proof.
  intros Hlayers. rewrite create_hebbian_trainer_run, Hlayers.
  destruct (for_each _ _ _) as [[[]|e] s2] eqn:Hloop; [|done].
  intros [= _ <-].
  apply for_each_ok_app in Hloop as (s1 & Hpre & Hrest).
  apply for_each_ok_cons in Hrest as (s3 & Hlyr & Hpost).
  apply for_each_update_ok in Hpre as (Htr1 & evs_pre & Hevs1 & Hm1 & Hnames & _).
  apply update_layer_ok in Hlyr
    as (wt & inputs & weights & rule & d_p & _ & Hprep & _ & _ & ->).
  apply for_each_update_ok in Hpost as (_ & evs_post & Hevs3 & _).
  cbn [model training trace] in *.
  exists evs_pre, (shape wt), inputs, weights, rule,
    (Optimizer_local_step d_p (name lyr) :: evs_post).
  split; [|split; [|split]].
  - rewrite Hevs3, Hevs1, <- !app_assoc. reflexivity.
  - exact Hnames.
  - by rewrite <- Hm1, <- Htr1.
  - intros ->. destruct (steps_of evs_pre); [done|discriminate].
Qed.

(** C6.  When a record of [self.layers] is reached and its data is
    prepared: with a single rule that rule is the one applied; with a
    mapping the rule applied is the entry under the layer's name, and when
    there is none the whole update call raises the [KeyError] of that name
    right after logging it at error severity, later records being left
    alone.  With a single rule, every rule a call asks for a change is that
    rule. *)
Theorem rule_resolution {Out} (self : HebbianTrainer R) lr opt
    (pb : Tensor elt * Tensor elt → Tensor elt * Tensor elt)
    (ot : Tensor elt → Tensor elt → Out) batch s pre lyr post s1 inputs weights s2 :
  layers self = pre ++ lyr :: post →
  for_each pre (update_layer lr opt (pb batch).1) (mkWorld (model s) true (trace s))
  = (Ok tt, s1) →
  prepare_layer (pb batch).1 lyr s1 = (Ok (inputs, weights), s2) →
  match lr with
  | SingleRule r =>
      update_layer lr opt (pb batch).1 lyr s1 = apply_rule opt r lyr inputs weights s2
      ∧ ∀ res s', create_hebbian_trainer self lr opt pb ot batch s = (res, s') →
          ∃ evs, trace s' = trace s ++ evs ∧ Forall (eq r) (rules_of evs)
  | RuleDict d =>
      match dict_lookup d (name lyr) with
      | Some r =>
          update_layer lr opt (pb batch).1 lyr s1
          = apply_rule opt r lyr inputs weights s2
      | None =>
          create_hebbian_trainer self lr opt pb ot batch s
          = (Raise (KeyError (name lyr)),
             mkWorld (model s2) (training s2)
               (trace s2 ++ [Logging ERROR (No_learning_rule (name lyr))]))
      end
  end.
Proof.
  intros Hlayers Hpre Hprep.
  assert (∀ r, resolve_rule lr (name lyr) s2 = (Ok r, s2) →
    update_layer lr opt (pb batch).1 lyr s1 = apply_rule opt r lyr inputs weights s2)
    as Hok.
  { intros r Hr. unfold update_layer.
    by rewrite bind_run, Hprep, bind_run, Hr. }
  destruct lr as [r|d].
  - split; [by apply Hok|].
    intros res s'. rewrite create_hebbian_trainer_run.
    destruct (for_each (layers self) _ _) as [res' s3] eqn:Hloop.
    apply for_each_update_rules in Hloop as (_ & evs & Hevs & _ & Hrules).
    intros Hres. assert (s' = s3) as -> by (by destruct res'; simplify_eq/=).
    exists evs. split; [done|].
    eapply Forall_impl; [exact Hrules|]. by intros r' (_ & _ & ->).
  - destruct (dict_lookup d (name lyr)) as [r|] eqn:Hd.
    + apply Hok. by rewrite resolve_rule_run, Hd.
    + rewrite create_hebbian_trainer_run, Hlayers.
      erewrite for_each_raise; [reflexivity|exact Hpre|].
      unfold update_layer.
      by rewrite bind_run, Hprep, bind_run, resolve_rule_run, Hd.
Qed.

(** C8.  Two batches with the same inputs, whatever their labels, leave the
    same model and the same trace, hence the same changes handed to the
    optimizer, and end alike; the labels reach the output transform only. *)
Theorem labels_do_not_interfere {Out} (self : HebbianTrainer R) lr opt
    (ot : Tensor elt → Tensor elt → Out) (inputs labels1 labels2 : Tensor elt) s :
  let run1 := create_hebbian_trainer self lr opt prepare_batch ot (inputs, labels1) s in
  let run2 := create_hebbian_trainer self lr opt prepare_batch ot (inputs, labels2) s in
  run1.2 = run2.2
  ∧ match run1.1, run2.1 with
    | Ok out1, Ok out2 =>
        out1 = ot (convert_tensor inputs) (convert_tensor labels1) ∧
        out2 = ot (convert_tensor inputs) (convert_tensor labels2)
    | Raise e1, Raise e2 => e1 = e2
    | _, _ => False
    end.
Proof.
  cbv zeta. rewrite !create_hebbian_trainer_run. unfold prepare_batch.
  cbn [fst snd]. by destruct (for_each _ _ _) as [[[]|e] s'].
Qed.

Lemma for_each_init_layers (rules : list R) ls s :
  for_each rules (λ rule, call_init_layers rule ls) s
  = (Ok tt,
     mkWorld (fold_left (λ m rule, init_layers rule ls m) rules (model s))
       (training s)
       (trace s ++ ((λ rule, Rule_init_layers rule ls) <$> rules))).
Proof.
  revert s. induction rules as [|r rules IH]; intros s.
  - destruct s. simpl. by rewrite app_nil_r.
  - simpl. rewrite bind_run. unfold call_init_layers at 1, emit, set_model.
    run_monad. rewrite IH. simpl. by rewrite <- app_assoc.
Qed.

(** C9.  With a mapping from layer names to rules, construction calls
    [init_layers] once for every value of the mapping, in the order of the
    mapping, each time with the whole list of trainable-layer records; the
    model is left as those calls leave it one after the other, the call of
    the last rule coming last. *)
Theorem init_layers_once_per_rule (d : Dict R) (opt : O) supervised_from freeze_layers s :
  let ls := trainable_layers (model s) supervised_from (default [] freeze_layers) in
  let after (rules : Dict R) :=
    fold_left (λ m rule, init_layers rule ls m) (dict_values rules) (model s) in
  __init__ (RuleDict d) opt supervised_from freeze_layers s
  = (Ok (mkHebbianTrainer supervised_from (default [] freeze_layers) ls (RuleDict d)),
     mkWorld (after d) (training s)
       (trace s ++ Logging INFO (Received_layers (length ls) (name <$> ls))
                   :: ((λ rule, Rule_init_layers rule ls) <$> dict_values d)))
  ∧ (∀ d' key rule, after (d' ++ [(key, rule)]) = init_layers rule ls (after d')).
Proof.
  cbv zeta. split.
  - unfold __init__, emit. run_monad. rewrite for_each_init_layers. simpl.
    by rewrite <- app_assoc.
  - intros d' key rule. unfold dict_values. by rewrite map_app, fold_left_app.
Qed.

Lemma prepare_tensors_kind mode x (ls : list (Module elt)) k r :
  prepare_tensors mode x ls k = Ok r →
  ∃ l wt, py_getitem ls k = Ok l ∧ get_weight l = Ok wt.
Proof.
  destruct r as [x' w']. intros H.
  apply prepare_tensors_shapes in H as (l & Hl & H).
  exists l. destruct l as [wt b|wt b ks st pd dl|c ow]; [by exists wt..|done].
Qed.

(** C5.  Two trainable layers A, at index 0, and B, at index 1; a mapping
    with a rule for A and none for B; a batch on which the preparation of
    both goes through.  One update call then logs and prepares A, asks A's
    rule, hands its change to the optimizer, logs and prepares B, logs the
    missing rule and raises the [KeyError] of B's name.  The model it leaves
    has A's weight changed by that one step and B as it was. *)
Theorem partial_failure_keeps_applied_step {Out} (self : HebbianTrainer R)
    (d : Dict R) (opt : O)
    (pb : Tensor elt * Tensor elt → Tensor elt * Tensor elt)
    (ot : Tensor elt → Tensor elt → Out) batch s
    nA nB lA lB rest rA wA inA wvA dA inB wvB :
  layers self = [mkLayer 0 nA 0; mkLayer 1 nB 1] →
  model s = (nA, lA) :: (nB, lB) :: rest →
  dict_lookup d nA = Some rA →
  dict_lookup d nB = None →
  get_weight lA = Ok wA →
  prepare_tensors true (pb batch).1 (children (model s)) 0 = Ok (inA, wvA) →
  view (update rA inA wvA) (shape wA) = Ok dA →
  prepare_tensors true (pb batch).1
    (children (local_step opt dA nA (model s))) 1 = Ok (inB, wvB) →
  ∃ wB,
    get_weight lB = Ok wB ∧
    create_hebbian_trainer self (RuleDict d) opt pb ot batch s
    = (Raise (KeyError nB),
       mkWorld (local_step opt dA nA (model s)) true
         (trace s ++ [Logging DEBUG (Updating_layer 0 (shape wA));
                      Logging DEBUG (Prepared_shapes (shape inA) (shape wvA));
                      Rule_update rA inA wvA;
                      Optimizer_local_step dA nA;
                      Logging DEBUG (Updating_layer 1 (shape wB));
                      Logging DEBUG (Prepared_shapes (shape inB) (shape wvB));
                      Logging ERROR (No_learning_rule nB)]))
    ∧ local_step opt dA nA (model s) !! 0%nat
      = Some (nA, set_weight lA (step opt wA dA))
    ∧ local_step opt dA nA (model s) !! 1%nat = Some (nB, lB).
Proof.
  intros Hlayers Hm HdA HdB HwA HpA HvA HpB.
  assert (nA ≠ nB) as Hne by congruence.
  assert (local_step opt dA nA (model s)
          = (nA, set_weight lA (step opt wA dA)) :: (nB, lB)
            :: local_step opt dA nA rest) as Hm'.
  { rewrite Hm. unfold local_step. cbn [map fst snd].
    rewrite decide_True by done. rewrite decide_False by done. by rewrite HwA. }
  destruct (prepare_tensors_kind _ _ _ _ _ HpB) as (l & wB & Hl & HwB).
  rewrite Hm' in Hl. injection Hl as <-.
  exists wB. split; [done|]. split; [|by rewrite Hm'].
  rewrite create_hebbian_trainer_run, Hlayers. cbn [for_each].
  assert (update_layer (RuleDict d) opt (pb batch).1 (mkLayer 0 nA 0)
            (mkWorld (model s) true (trace s))
          = (Ok tt,
             mkWorld (local_step opt dA nA (model s)) true
               (trace s ++ [Logging DEBUG (Updating_layer 0 (shape wA));
                            Logging DEBUG (Prepared_shapes (shape inA) (shape wvA));
                            Rule_update rA inA wvA;
                            Optimizer_local_step dA nA]))) as HA.
  { unfold update_layer. rewrite bind_run, prepare_layer_run.
    cbn [model training trace layer idx name].
    replace (weight_of (model s) 0%nat) with (Ok wA)
      by (by rewrite Hm, <- HwA).
    rewrite _prepare_data_run. cbn [model training trace]. rewrite HpA.
    rewrite bind_run, resolve_rule_run, HdA, apply_rule_run.
    cbn [model training trace layer idx name].
    replace (weight_of (model s) 0%nat) with (Ok wA)
      by (by rewrite Hm, <- HwA).
    cbn [mbind Result_bind]. rewrite HvA. by rewrite <- !app_assoc. }
  rewrite bind_run, HA, bind_run.
  unfold update_layer. rewrite bind_run, prepare_layer_run.
  cbn [model training trace layer idx name].
  replace (weight_of (local_step opt dA nA (model s)) 1%nat) with (Ok wB)
    by (by rewrite Hm', <- HwB).
  rewrite _prepare_data_run. cbn [model training trace]. rewrite HpB.
  rewrite bind_run, resolve_rule_run, HdB. cbn [model training trace].
  by rewrite <- !app_assoc.
Qed.

End Update.

(** C1 fails as stated.  Two dense layers, both trainable, a rule proposing
    5 for every weight, an optimizer adding the change: the update of [fc1]
    turns its weight from 2 into 7, and the input prepared for [fc2] in the
    same call is 7, the output of the updated [fc1], where the weights of
    the start of the batch give 2. *)
Lemma later_input_sees_earlier_step :
  trainable_layers Toy.two_dense 2 [] = layers (Toy.trainer2 (SingleRule 5))
  ∧ _update (Toy.trainer2 (SingleRule 5)) (SingleRule 5) tt Toy.batch1
      (Toy.world0 Toy.two_dense)
    = (Ok 0,
       mkWorld
         [("fc1"%string, Linear (mkTensor [1; 1] [7]) None);
          ("fc2"%string, Linear (mkTensor [1; 1] [8]) None)]
         true
         [Logging DEBUG (Updating_layer 0 [1; 1]);
          Logging DEBUG (Prepared_shapes [1; 1] [1; 1]);
          Rule_update 5 (mkTensor [1; 1] [1]) (mkTensor [1; 1] [2]);
          Optimizer_local_step (mkTensor [1; 1] [5]) "fc1";
          Logging DEBUG (Updating_layer 1 [1; 1]);
          Logging DEBUG (Prepared_shapes [1; 1] [1; 1]);
          Rule_update 5 (mkTensor [1; 1] [7]) (mkTensor [1; 1] [3]);
          Optimizer_local_step (mkTensor [1; 1] [5]) "fc2"])
  ∧ (_prepare_data Toy.batch1.1 1 (mkWorld Toy.two_dense true [] : World Z Z)).1
    = Ok (mkTensor [1; 1] [2], mkTensor [1; 1] [3])
  ∧ mkTensor [1; 1] [7] ≠ mkTensor [1; 1] [2].
Proof. repeat split. discriminate. Qed.

(** [prepared_input_follows_earlier_steps] for [fc2] in that update. *)
Lemma prepared_input_follows_earlier_steps_witness :
  layers (Toy.trainer2 (SingleRule 5))
  = [mkLayer 0 "fc1" 0] ++ mkLayer 1 "fc2" 1 :: []
  ∧ _update (Toy.trainer2 (SingleRule 5)) (SingleRule 5) tt Toy.batch1
      (Toy.world0 Toy.two_dense) = (Ok 0, Toy.after_fc2 5)
  ∧ ∃ (evs_pre : list (Event Z Z)) inputs weights,
      (steps_of evs_pre).*2 = ["fc1"%string]
      ∧ prepare_tensors true Toy.batch1.1
          (children (apply_steps tt (steps_of evs_pre) Toy.two_dense)) 1
        = Ok (inputs, weights).
Proof.
  split; [reflexivity|]. split; [reflexivity|].
  destruct (prepared_input_follows_earlier_steps
              (Toy.trainer2 (SingleRule 5)) (SingleRule 5) tt prepare_batch
              (λ _ _, 0) Toy.batch1 (Toy.world0 Toy.two_dense) 0 (Toy.after_fc2 5)
              [mkLayer 0 "fc1" 0] (mkLayer 1 "fc2" 1) [])
    as (evs_pre & wsh & inputs & weights & rule & evs_post & _ & Hn & Hp & _);
    [reflexivity..|].
  exists evs_pre, inputs, weights. split; [exact Hn|exact Hp].
Defined.

(** [rule_resolution] where the mapping has a rule for [fc1] only and [fc2]
    is reached. *)
Lemma rule_resolution_witness :
  layers (Toy.trainer2 Toy.fc1_only) = [mkLayer 0 "fc1" 0] ++ mkLayer 1 "fc2" 1 :: []
  ∧ for_each [mkLayer 0 "fc1" 0]
      (update_layer Toy.fc1_only tt (prepare_batch Toy.batch1).1)
      (mkWorld Toy.two_dense true []) = (Ok tt, Toy.after_fc1 5)
  ∧ prepare_layer (prepare_batch Toy.batch1).1 (mkLayer 1 "fc2" 1) (Toy.after_fc1 5)
    = (Ok (mkTensor [1; 1] [7], mkTensor [1; 1] [3]), Toy.reached_fc2 5)
  ∧ _update (Toy.trainer2 Toy.fc1_only) Toy.fc1_only tt Toy.batch1
      (Toy.world0 Toy.two_dense)
    = (Raise (KeyError "fc2"),
       mkWorld (model (Toy.reached_fc2 5)) true
         (trace (Toy.reached_fc2 5) ++ [Logging ERROR (No_learning_rule "fc2")])).
Proof.
  split; [reflexivity|]. split; [reflexivity|]. split; [reflexivity|].
  apply (rule_resolution (Toy.trainer2 Toy.fc1_only)
           Toy.fc1_only tt prepare_batch (λ _ _, 0) Toy.batch1
           (Toy.world0 Toy.two_dense)
           [mkLayer 0 "fc1" 0] (mkLayer 1 "fc2" 1) [] (Toy.after_fc1 5)
           (mkTensor [1; 1] [7]) (mkTensor [1; 1] [3]) (Toy.reached_fc2 5));
    reflexivity.
Defined.

(** [partial_failure_keeps_applied_step] on the two dense layers. *)
Lemma partial_failure_keeps_applied_step_witness :
  dict_lookup [("fc1"%string, 5)] "fc1" = Some 5
  ∧ dict_lookup [("fc1"%string, 5)] "fc2" = None
  ∧ prepare_tensors true (prepare_batch Toy.batch1).1 (children Toy.two_dense) 0
    = Ok (mkTensor [1; 1] [1], mkTensor [1; 1] [2])
  ∧ prepare_tensors true (prepare_batch Toy.batch1).1
      (children (local_step tt (mkTensor [1; 1] [5]) "fc1" Toy.two_dense)) 1
    = Ok (mkTensor [1; 1] [7], mkTensor [1; 1] [3])
  ∧ ∃ wB : Tensor Z,
      _update (Toy.trainer2 (RuleDict [("fc1"%string, 5)]))
        (RuleDict [("fc1"%string, 5)]) tt Toy.batch1 (Toy.world0 Toy.two_dense)
      = (Raise (KeyError "fc2"),
         mkWorld
           [("fc1"%string, Linear (mkTensor [1; 1] [7]) None);
            ("fc2"%string, Linear (mkTensor [1; 1] [3]) None)]
           true
           [Logging DEBUG (Updating_layer 0 [1; 1]);
            Logging DEBUG (Prepared_shapes [1; 1] [1; 1]);
            Rule_update 5 (mkTensor [1; 1] [1]) (mkTensor [1; 1] [2]);
            Optimizer_local_step (mkTensor [1; 1] [5]) "fc1";
            Logging DEBUG (Updating_layer 1 (shape wB));
            Logging DEBUG (Prepared_shapes [1; 1] [1; 1]);
            Logging ERROR (No_learning_rule "fc2")]).
Proof.
  split; [reflexivity|]. split; [reflexivity|].
  split; [reflexivity|]. split; [reflexivity|].
  destruct (partial_failure_keeps_applied_step
              (Toy.trainer2 (RuleDict [("fc1"%string, 5)]))
              [("fc1"%string, 5)] tt prepare_batch (λ _ _, 0) Toy.batch1
              (Toy.world0 Toy.two_dense)
              "fc1" "fc2" (Linear (mkTensor [1; 1] [2]) None)
              (Linear (mkTensor [1; 1] [3]) None) [] 5
              (mkTensor [1; 1] [2]) (mkTensor [1; 1] [1]) (mkTensor [1; 1] [2])
              (mkTensor [1; 1] [5]) (mkTensor [1; 1] [7]) (mkTensor [1; 1] [3]))
    as (wB & _ & Hrun & _); [reflexivity..|].
  exists wB. exact Hrun.
Defined.

(** Construction with a rule for each layer: both rules initialise both
    layers, and the weights are left as the rule iterated last, the one
    given for [fc2], sets them, also in [fc1]. *)
Example init_layers_last_rule_on_every_layer :
  __init__ (RuleDict [("fc1"%string, 5); ("fc2"%string, 7)]) tt 2 None
    (Toy.world0 Toy.two_dense)
  = (Ok (Toy.trainer2 (RuleDict [("fc1"%string, 5); ("fc2"%string, 7)])),
     mkWorld
       [("fc1"%string, Linear (mkTensor [1; 1] [7]) None);
        ("fc2"%string, Linear (mkTensor [1; 1] [7]) None)]
       false
       [Logging INFO (Received_layers 2 ["fc1"%string; "fc2"%string]);
        Rule_init_layers 5 [mkLayer 0 "fc1" 0; mkLayer 1 "fc2" 1];
        Rule_init_layers 7 [mkLayer 0 "fc1" 0; mkLayer 1 "fc2" 1]]).
Proof. reflexivity. Qed.

(** ** The engine *)

Section EngineProperties.
Import Engine EngineSpec.
Context {elt R O G : Type}.
Context `{!Collaborators elt R O G}.
Implicit Types (s : World elt R O G) (evs : list (Event elt R)).

Lemma replay_app evs1 evs2 (st : Model elt * O) :
  replay (evs1 ++ evs2) st = replay evs2 (replay evs1 st).
Proof. apply fold_left_app. Qed.

Lemma updates_read_app wnp rule st evs1 evs2 :
  updates_read wnp rule st evs1 →
  updates_read wnp rule (replay evs1 st) evs2 →
  updates_read wnp rule st (evs1 ++ evs2).
Proof.
  revert st. induction evs1 as [|e evs1 IH]; intros st; [done|].
  cbn [updates_read app]. intros [He H1] H2. split.
  - destruct e; try done. destruct He as (-> & Hw & evs'' & ->).
    repeat split; [done|]. by eexists.
  - by apply IH.
Qed.

Lemma quiet_events wnp rule st evs :
  Forall quiet evs →
  updates_read wnp rule st evs ∧ replay evs st = st ∧
  updates_of evs = [] ∧ steps_of evs = [].
Proof.
  induction 1 as [|e evs He _ IH]; [done|].
  destruct IH as (H1 & H2 & H3 & H4).
  destruct e; try done; cbn; repeat split; done.
Qed.

Lemma advances_refl wnp rule s : advances wnp rule s s 0.
Proof. exists []. by rewrite app_nil_r. Qed.

Lemma advances_trans wnp rule s1 s2 s3 n1 n2 :
  advances wnp rule s1 s2 n1 → advances wnp rule s2 s3 n2 →
  advances wnp rule s1 s3 (n1 + n2).
Proof.
  intros (evs1 & Ht1 & Hg1 & Hr1 & Hu1 & Hc1 & Hs1)
         (evs2 & Ht2 & Hg2 & Hr2 & Hu2 & Hc2 & Hs2).
  exists (evs1 ++ evs2). repeat split.
  - by rewrite Ht2, Ht1, app_assoc.
  - congruence.
  - by rewrite replay_app, <- Hr1.
  - apply updates_read_app; [done|]. by rewrite <- Hr1.
  - unfold updates_of. by rewrite omap_app, length_app, <- Hc1, <- Hc2.
  - unfold steps_of. by rewrite omap_app, length_app, <- Hs1, <- Hs2.
Qed.

Lemma advances_quiet wnp rule s evs :
  Forall quiet evs →
  advances wnp rule s
    (mkWorld (model s) (generator s) (optimizer s) (trace s ++ evs)) 0.
Proof.
  intros Hq. destruct (quiet_events wnp rule (model s, optimizer s) evs Hq)
    as (Hu & Hr & Hc & Hs).
  exists evs. cbn. by rewrite Hr, Hc, Hs.
Qed.

Lemma train_batch_ok (self : HebbianEngine R) wnp data s s' :
  train_batch self wnp data s = (Ok tt, s') →
  advances wnp (learning_rule self) s s' 1.
Proof.
  destruct data as [inputs labels].
  unfold train_batch, read_np, emit, set_model. run_monad.
  destruct (label_counts labels) as [[]|e]; [|done].
  destruct (py_getitem (shape inputs) 0) as [n|e]; [|done].
  destruct (np_reshape _ _) as [x|e]; [|done].
  destruct (array_of (model s) wnp) as [weights|e] eqn:Hw; [|done].
  intros [= <-].
  exists [Logging DEBUG (Label_counts labels);
          Rule_update (learning_rule self) x weights;
          Optimizer_local_step (update_np (learning_rule self) x weights)].
  cbn. rewrite <- !app_assoc. repeat split; [done|]. by eexists.
Qed.

Lemma train_batches_ok (self : HebbianEngine R) wnp bs s s' :
  for_each bs (train_batch self wnp) s = (Ok tt, s') →
  advances wnp (learning_rule self) s s' (length bs).
Proof.
  revert s. induction bs as [|b bs IH]; intros s.
  - intros [= <-]. apply advances_refl.
  - intros H. apply for_each_ok_cons in H as (s1 & Hb & Hbs).
    apply (advances_trans _ _ s s1 s' 1); [by eapply train_batch_ok|by apply IH].
Qed.

Lemma train_epoch_ok (self : HebbianEngine R) dl wnp input_shape epoch s s' :
  train_epoch self dl wnp input_shape epoch s = (Ok tt, s') →
  advances wnp (learning_rule self) s s' (length (batches dl)).
Proof.
  unfold train_epoch. rewrite bind_run. cbn [gets].
  rewrite bind_run. unfold emit at 1. cbn [modify].
  rewrite bind_run.
  set (s1 := mkWorld (model s) (generator s) (optimizer s)
               (trace s ++ [Logging INFO (Learning_rates (get_lr (optimizer s)))])).
  destruct (for_each _ _ s1) as [[[]|e] s2] eqn:Hloop; [|done].
  apply train_batches_ok in Hloop.
  assert (advances wnp (learning_rule self) s s1 0) as H1.
  { apply advances_quiet. by repeat constructor. }
  set (s3 := mkWorld (model s2) (generator s2) (scheduler_step (optimizer s2))
               (trace s2 ++ [Scheduler_step])).
  assert (advances wnp (learning_rule self) s2 s3 0) as H3.
  { exists [Scheduler_step]. by cbn. }
  assert (advances wnp (learning_rule self) s s3 (length (batches dl))) as H13.
  { replace (length (batches dl)) with (0 + length (batches dl) + 0)%nat by lia.
    eapply advances_trans; [|exact H3]. eapply advances_trans; [exact H1|exact Hloop]. }
  unfold emit, set_optimizer, read_np. run_monad. fold s3.
  destruct (visualize_weights self).
  - destruct (array_of (model s3) wnp) as [weights|e]; [|done].
    intros [= <-].
    replace (length (batches dl)) with (length (batches dl) + 0)%nat by lia.
    eapply advances_trans; [exact H13|].
    apply (advances_quiet _ _ s3). by repeat constructor.
  - by intros [= <-].
Qed.

Lemma train_epochs_ok (self : HebbianEngine R) dl wnp input_shape
    (epochs : list nat) s s' :
  for_each epochs (train_epoch self dl wnp input_shape) s = (Ok tt, s') →
  advances wnp (learning_rule self) s s' (length epochs * length (batches dl)).
Proof.
  revert s. induction epochs as [|ep epochs IH]; intros s.
  - intros [= <-]. apply advances_refl.
  - intros H. apply for_each_ok_cons in H as (s1 & Hep & Heps).
    cbn [length Nat.mul].
    eapply advances_trans; [by eapply train_epoch_ok|by apply IH].
Qed.

Lemma last_linear_from_spec (pre todo : Model elt) found :
  is_last_linear pre found →
  is_last_linear (pre ++ todo) (last_linear_from (length pre) todo found).
Proof.
  revert pre found. induction todo as [|c todo IH]; intros pre found Hf.
  - by rewrite app_nil_r.
  - rewrite cons_middle, app_assoc.
    assert (length (pre ++ [c]) = S (length pre)) as Hlen
      by (rewrite length_app; simpl; lia).
    destruct c as [n [w b|w b ks st pd dl|cls ow]]; cbn [last_linear_from];
      rewrite <- Hlen; apply IH.
    + split.
      * exists n, w, b. by apply list_lookup_middle.
      * intros j n' w' b' Hj. apply lookup_lt_Some in Hj. lia.
    + destruct found as [r|]; cbn.
      * destruct Hf as [(n' & w' & b' & Hr) Hmax]. split.
        -- exists n', w', b'. by apply lookup_app_l_Some.
        -- intros j n'' w'' b'' Hj.
           apply lookup_snoc_Some in Hj as [[_ Hj]|[_ Hj]]; [by eapply Hmax|done].
      * intros j n'' w'' b'' Hj.
        apply lookup_snoc_Some in Hj as [[_ Hj]|[_ Hj]]; [by eapply Hf|done].
    + destruct found as [r|]; cbn.
      * destruct Hf as [(n' & w' & b' & Hr) Hmax]. split.
        -- exists n', w', b'. by apply lookup_app_l_Some.
        -- intros j n'' w'' b'' Hj.
           apply lookup_snoc_Some in Hj as [[_ Hj]|[_ Hj]]; [by eapply Hmax|done].
      * intros j n'' w'' b'' Hj.
        apply lookup_snoc_Some in Hj as [[_ Hj]|[_ Hj]]; [by eapply Hf|done].
Qed.

Lemma last_linear_spec (m : Model elt) : is_last_linear m (last_linear m).
Proof. apply (last_linear_from_spec [] m None). by intros j n w b. Qed.

Lemma init_child_run found (k : Ref) s :
  init_child found k s
  = match model s !! k with
    | Some (n, Linear w b) =>
        (Ok (Some k),
         mkWorld (<[k := (n, Linear (normal_ (generator s) w).1 b)]> (model s))
           (normal_ (generator s) w).2 (optimizer s)
           (trace s ++ [Logging INFO
                          (Updating_layer k (shape (normal_ (generator s) w).1))]))
    | _ => (Ok found, s)
    end.
Proof.
  unfold init_child, emit, set_model, set_generator. run_monad.
  destruct (model s !! k) as [[n [w b|w b ks st pd dl|cls ow]]|]; try done.
  by destruct (normal_ (generator s) w).
Qed.

Lemma init_logs_quiet k (g : G) (m : Model elt) : Forall quiet (init_logs k g m).
Proof.
  revert k g. induction m as [|[n [w b|w b ks st pd dl|cls ow]] m IH];
    intros k g; cbn [init_logs]; [done| |done..].
  destruct (normal_ g w). by constructor.
Qed.

(** The loop over the children: every [Linear] weight is drawn afresh,
    nothing else changes, and [weights_np] ends on the last [Linear]. *)
Lemma init_children (todo pre : Model elt) found s :
  model s = pre ++ todo →
  for_fold (seq (length pre) (length todo)) found init_child s
  = (Ok (last_linear_from (length pre) todo found),
     mkWorld (pre ++ (reinit (generator s) todo).1)
       (reinit (generator s) todo).2 (optimizer s)
       (trace s ++ init_logs (length pre) (generator s) todo)).
Proof.
  revert pre found s. induction todo as [|c todo IH]; intros pre found s Hm.
  - destruct s as [m g o t]. cbn in *. by rewrite Hm, !app_nil_r.
  - cbn [length seq for_fold]. rewrite bind_run, init_child_run.
    rewrite Hm, list_lookup_middle by done.
    assert (∀ c', length (pre ++ [c']) = S (length pre)) as Hlen
      by (intros; rewrite length_app; simpl; lia).
    destruct c as [n [w b|w b ks st pd dl|cls ow]].
    + replace (<[length pre:=(n, Linear (normal_ (generator s) w).1 b)]>
                 (pre ++ (n, Linear w b) :: todo))
        with ((pre ++ [(n, Linear (normal_ (generator s) w).1 b)]) ++ todo).
      2:{ replace (length pre) with (length pre + 0)%nat at 1 by lia.
          by rewrite insert_app_r, <- app_assoc. }
      rewrite <- (Hlen (n, Linear (normal_ (generator s) w).1 b)).
      rewrite IH by done. rewrite Hlen.
      cbn [model generator optimizer trace reinit last_linear_from init_logs].
      destruct (normal_ (generator s) w) as [w' g']. cbn [fst snd].
      destruct (reinit g' todo) as [m'' g'']. cbn [fst snd].
      by rewrite <- !app_assoc.
    + rewrite <- (Hlen (n, Conv2d w b ks st pd dl)).
      rewrite IH by (by rewrite Hm, <- app_assoc). rewrite Hlen.
      cbn [reinit last_linear_from init_logs].
      destruct (reinit (generator s) todo) as [m'' g'']. cbn [fst snd].
      by rewrite <- !app_assoc.
    + rewrite <- (Hlen (n, Other cls ow)).
      rewrite IH by (by rewrite Hm, <- app_assoc). rewrite Hlen.
      cbn [reinit last_linear_from init_logs].
      destruct (reinit (generator s) todo) as [m'' g'']. cbn [fst snd].
      by rewrite <- !app_assoc.
Qed.

Lemma train_after_init (self : HebbianEngine R) dl epochs s ws s' :
  train self dl epochs s = (Ok ws, s') →
  ∃ first input_shape,
    head (batches dl) = Some first ∧
    input_shape = py_slice_from (shape first.1) 2 ∧
    let s2 := mkWorld (reinit (generator s) (model s)).1
                (reinit (generator s) (model s)).2 (optimizer s)
                (trace s ++ Logging INFO (Received_samples (dataset_len dl) input_shape)
                            :: init_logs 0 (generator s) (model s)) in
    advances (last_linear (model s)) (learning_rule self) s2 s'
      (Z.to_nat epochs * length (batches dl))
    ∧ all_weights (children (model s')) = Ok ws.
Proof.
  unfold train. rewrite bind_run.
  destruct (batches dl) as [|first bs] eqn:Hb; [done|]. intros Hrun.
  exists first, (py_slice_from (shape first.1) 2). split; [done|]. split; [done|].
  revert Hrun. cbn [mret M_ret]. rewrite bind_run. unfold emit at 1. cbn [modify].
  rewrite bind_run. cbn [gets model]. rewrite bind_run.
  set (s1 := mkWorld (model s) (generator s) (optimizer s) _).
  pose proof (init_children (model s) [] None s1 eq_refl) as Hinit.
  cbn [length app] in Hinit. rewrite Hinit. clear Hinit.
  cbn [length app model generator optimizer trace s1]. fold (last_linear (model s)).
  rewrite <- app_assoc. cbn [app].
  set (wnp := last_linear (model s)). set (rule := learning_rule self).
  set (s2 := mkWorld _ _ _ _). clearbody s2 wnp. clear s1.
  set (input_shape := py_slice_from _ _). clearbody input_shape.
  rewrite bind_run.
  assert (∀ s3, advances wnp rule s2 s3 0 →
    (for_each (seq 0 (Z.to_nat epochs))
       (train_epoch self dl wnp input_shape);;
     emit (Pyplot "ioff");; emit (Pyplot "close");;
     m ← gets model; lift (all_weights (children m))) s3 = (Ok ws, s') →
    advances wnp rule s2 s' (Z.to_nat epochs * length (first :: bs))
    ∧ all_weights (children (model s')) = Ok ws) as Hrest.
  { intros s3 H3. rewrite bind_run.
    destruct (for_each _ _ s3) as [[[]|e] s4] eqn:Hloop; [|done].
    apply train_epochs_ok in Hloop. rewrite length_seq, Hb in Hloop.
    unfold emit. run_monad.
    destruct (all_weights (children (model s4))) as [ws'|e] eqn:Hws; [|done].
    intros [= <- <-]. split; [|done].
    replace (Z.to_nat epochs * S (length bs))%nat
      with (0 + Z.to_nat epochs * S (length bs) + 0)%nat by lia.
    eapply advances_trans; [eapply advances_trans; [exact H3|exact Hloop]|].
    rewrite <- app_assoc.
    apply (advances_quiet _ _ s4). by repeat constructor. }
  destruct (visualize_weights self).
  - unfold emit at 1 2 3, read_np. run_monad.
    destruct (array_of (model s2) wnp) as [weights|e]; [|done].
    apply Hrest. rewrite <- !app_assoc.
    apply (advances_quiet _ _ s2). by repeat constructor.
  - cbn [mret M_ret]. apply Hrest, advances_refl.
Qed.

(** *** [train] returns *)

Lemma weighted_set_weight (l : Module elt) w : has_weight (set_weight l w) = has_weight l.
Proof. by destruct l as [| |c [|]]. Qed.

Lemma weighted_imap (f : nat → string * Module elt → string * Module elt) (m : Model elt) :
  (∀ i c, has_weight (f i c).2 = has_weight c.2) →
  weighted (imap f m) = weighted m.
Proof.
  revert f. induction m as [|c m IH]; intros f Hf; [done|].
  unfold weighted in *. rewrite imap_cons, !fmap_cons, Hf. f_equal.
  apply IH. intros i c'. apply Hf.
Qed.

Lemma weighted_local_step (o : O) d_p (m : Model elt) :
  weighted (local_step o d_p m) = weighted m.
Proof.
  apply weighted_imap. intros i c. destruct (get_weight c.2) eqn:Hw; [|done].
  apply weighted_set_weight.
Qed.

Lemma weighted_reinit (g : G) (m : Model elt) : weighted (reinit g m).1 = weighted m.
Proof.
  revert g. induction m as [|[n [w b|w b ks st pd dl|cls ow]] m IH]; intros g;
    cbn [reinit]; [done| | |].
  - destruct (normal_ g w) as [w' g']. specialize (IH g').
    destruct (reinit g' m). unfold weighted in *. cbn in *. by rewrite IH.
  - specialize (IH g). destruct (reinit g m). unfold weighted in *. cbn in *.
    by rewrite IH.
  - specialize (IH g). destruct (reinit g m). unfold weighted in *. cbn in *.
    by rewrite IH.
Qed.

Lemma array_of_readable (m : Model elt) wnp :
  readable (weighted m) wnp → ∃ a, array_of m wnp = Ok a.
Proof.
  destruct wnp as [r|]; [|by exists None]. unfold readable, weighted, array_of, children.
  rewrite !list_lookup_fmap. destruct (m !! r) as [c|]; [|done]. cbn.
  unfold has_weight. destruct (get_weight c.2) as [w|]; [|done]. by exists (Some w).
Qed.

Lemma last_linear_readable (m : Model elt) : readable (weighted m) (last_linear m).
Proof.
  pose proof (last_linear_spec m) as H.
  destruct (last_linear m) as [r|]; [|done].
  destruct H as [(n & w & b & Hr) _]. unfold readable, weighted.
  by rewrite list_lookup_fmap, Hr.
Qed.

Lemma all_weights_weighted (m : Model elt) :
  Forall (eq true) (weighted m) → ∃ ws, all_weights (children m) = Ok ws.
Proof.
  induction m as [|c m IH]; [by exists []|].
  unfold weighted. rewrite fmap_cons. intros [Hc Hm]%Forall_cons.
  destruct (IH Hm) as [ws Hws]. cbn. unfold has_weight in Hc.
  destruct (get_weight c.2) as [w|]; [|done].
  unfold children in Hws. rewrite Hws. by eexists.
Qed.

Lemma all_weights_ok (m : Model elt) ws :
  all_weights (children m) = Ok ws →
  Forall2 (λ (c : string * Module elt) w, get_weight c.2 = Ok w) m ws.
Proof.
  revert ws. induction m as [|c m IH]; intros ws.
  - intros [= <-]. constructor.
  - cbn. destruct (get_weight c.2) as [w|e] eqn:Hw; [|done].
    destruct (all_weights (map snd m)) as [ws'|e] eqn:Hws; [|done].
    intros [= <-]. constructor; [done|]. by apply IH.
Qed.

Lemma label_counts_flat (data : Tensor elt * Tensor elt) :
  flat_labels data → label_counts data.2 = Ok tt.
Proof.
  intros [n Hs]. unfold label_counts. rewrite Hs. cbn [numel foldr].
  by rewrite andb_false_r.
Qed.

Lemma train_batch_returns (self : HebbianEngine R) wnp data s :
  reshapable data → flat_labels data → readable (weighted (model s)) wnp →
  ∃ s', train_batch self wnp data s = (Ok tt, s') ∧
        weighted (model s') = weighted (model s).
Proof.
  intros Hrs Hfl Hr. apply label_counts_flat in Hfl.
  destruct data as [inputs labels]. destruct Hrs as (n & x & Hn & Hx).
  apply array_of_readable in Hr as [a Ha]. cbn [fst snd] in *.
  unfold train_batch, read_np, emit, set_model. run_monad.
  rewrite Hfl, Hn, Hx, Ha. eexists. split; [reflexivity|]. apply weighted_local_step.
Qed.

Lemma train_batches_return (self : HebbianEngine R) wnp bs s :
  Forall reshapable bs → Forall flat_labels bs → readable (weighted (model s)) wnp →
  ∃ s', for_each bs (train_batch self wnp) s = (Ok tt, s') ∧
        weighted (model s') = weighted (model s).
Proof.
  revert s. induction bs as [|b bs IH]; intros s Hbs Hls Hr; [by exists s|].
  apply Forall_cons in Hbs as [Hb Hbs]. apply Forall_cons in Hls as [Hl Hls].
  destruct (train_batch_returns self wnp b s Hb Hl Hr) as (s1 & H1 & Hw1).
  destruct (IH s1 Hbs Hls) as (s' & H' & Hw'); [by rewrite Hw1|].
  exists s'. cbn [for_each]. rewrite bind_run, H1. split; [done|congruence].
Qed.

Lemma train_epoch_returns (self : HebbianEngine R) dl wnp input_shape epoch s :
  Forall reshapable (batches dl) → Forall flat_labels (batches dl) →
  readable (weighted (model s)) wnp →
  ∃ s', train_epoch self dl wnp input_shape epoch s = (Ok tt, s') ∧
        weighted (model s') = weighted (model s).
Proof.
  intros Hbs Hls Hr. unfold train_epoch. rewrite bind_run. cbn [gets].
  rewrite bind_run. unfold emit at 1. cbn [modify]. rewrite bind_run.
  set (s1 := mkWorld _ _ _ _).
  destruct (train_batches_return self wnp (batches dl) s1 Hbs Hls Hr) as (s2 & H2 & Hw2).
  rewrite H2. unfold emit, set_optimizer, read_np. run_monad.
  destruct (visualize_weights self); [|by eexists].
  assert (readable (weighted (model s2)) wnp) as Hr2 by (by rewrite Hw2).
  apply array_of_readable in Hr2 as [a Ha].
  cbn [model generator optimizer trace]. rewrite Ha. by eexists.
Qed.

Lemma train_epochs_return (self : HebbianEngine R) dl wnp input_shape
    (epochs : list nat) s :
  Forall reshapable (batches dl) → Forall flat_labels (batches dl) →
  readable (weighted (model s)) wnp →
  ∃ s', for_each epochs (train_epoch self dl wnp input_shape) s = (Ok tt, s') ∧
        weighted (model s') = weighted (model s).
Proof.
  intros Hbs Hls. revert s.
  induction epochs as [|ep epochs IH]; intros s Hr; [by exists s|].
  destruct (train_epoch_returns self dl wnp input_shape ep s Hbs Hls Hr)
    as (s1 & H1 & Hw1).
  destruct (IH s1) as (s' & H' & Hw'); [by rewrite Hw1|].
  exists s'. cbn [for_each]. rewrite bind_run, H1. split; [done|congruence].
Qed.


(** *** What the rule is handed, and what the optimizer's step changes *)










End EngineProperties.


(** Labels of one dimension are counted; a matrix of labels and a label
    without dimensions are refused. *)
Example label_counts_vector : Engine.label_counts (mkTensor [3] [0; 1; 1]) = Ok tt.
Proof. reflexivity. Qed.

Example label_counts_matrix :
  Engine.label_counts (mkTensor [2; 2] [0; 1; 1; 0])
  = Raise (ValueError "The truth value of an array is ambiguous").
Proof. reflexivity. Qed.

Example label_counts_scalar :
  Engine.label_counts (mkTensor [] [0]) = Raise (TypeError "iteration over a 0-d array").
Proof. reflexivity. Qed.

(** * Further properties of the code *)

(** ** The layer registry, continued *)

Section RegistryMore.
Context {elt : Type}.
Implicit Types (model : Model elt) (freeze_layers : list string).

Lemma py_slice_to_take {A} (l : list A) stop :
  py_slice_to l stop = take (Z.to_nat (scan_cutoff (length l) stop)) l.
Proof. unfold py_slice_to, scan_cutoff. by destruct (stop <? 0). Qed.

Lemma imap_take {A B} (f : nat → A → B) n (l : list A) :
  imap f (take n l) = take n (imap f l).
Proof.
  revert f n. induction l as [|a l IH]; intros f [|n]; try done.
  cbn [take]. rewrite !imap_cons. cbn [take]. by rewrite IH.
Qed.

Lemma trainable_layers_take model supervised_from freeze_layers :
  trainable_layers model supervised_from freeze_layers
  = omap (select_layer freeze_layers)
      (take (Z.to_nat (scan_cutoff (length model) supervised_from)) (enumerate model)).
Proof.
  unfold trainable_layers, enumerate.
  by rewrite scan_layers_omap, app_nil_l, py_slice_to_take, imap_take.
Qed.

(** X1.  A cutoff at or beyond the length of the model scans every child,
    so every [Linear] or [Conv2d] child that is not frozen has its record,
    the last child included, and all such cutoffs give the same list. *)
Theorem trainable_layers_whole_model model supervised_from freeze_layers :
  Z.of_nat (length model) ≤ supervised_from →
  trainable_layers model supervised_from freeze_layers
  = trainable_layers model (Z.of_nat (length model)) freeze_layers
  ∧ ∀ (i : nat) (n : string) (lyr : Module elt),
      model !! i = Some (n, lyr) → is_linear_or_conv lyr = true →
      n ∉ freeze_layers →
      mkLayer (Z.of_nat i) n i ∈ trainable_layers model supervised_from freeze_layers.
Proof.
  intros Hsf. split.
  - rewrite !trainable_layers_take. unfold scan_cutoff.
    rewrite !(proj2 (Z.ltb_ge _ _)) by lia.
    rewrite !take_ge; [done|unfold enumerate; rewrite length_imap; lia..].
  - intros i n lyr Hi Hk Hfz. apply elem_of_trainable_layers.
    exists i, n, lyr. repeat split; try done.
    apply lookup_lt_Some in Hi. unfold scan_cutoff.
    rewrite (proj2 (Z.ltb_ge _ _)) by lia. lia.
Qed.

(** X2.  Moving the cutoff up only adds records at the end: the list for a
    lower cutoff is a prefix of the list for a higher one (cutoffs compared
    as the slice reads them, a negative one counting from the end). *)
Theorem trainable_layers_prefix model a b freeze_layers :
  scan_cutoff (length model) a ≤ scan_cutoff (length model) b →
  trainable_layers model a freeze_layers
  `prefix_of` trainable_layers model b freeze_layers.
Proof.
  intros Hab. rewrite !trainable_layers_take.
  set (na := Z.to_nat (scan_cutoff (length model) a)).
  set (nb := Z.to_nat (scan_cutoff (length model) b)).
  assert (na ≤ nb)%nat as Hn by (unfold na, nb; lia).
  rewrite <- (take_drop na (take nb (enumerate model))).
  rewrite take_take, Nat.min_l, omap_app by done.
  by eexists.
Qed.

Lemma select_layer_item freeze_layers i n (l : Module elt) :
  select_layer freeze_layers (i, (n, l))
  = if is_linear_or_conv l && bool_decide (n ∉ freeze_layers)
    then Some (mkLayer i n (Z.to_nat i)) else None.
Proof. reflexivity. Qed.

(** X3.  Freezing more names removes the records of those names and
    nothing else. *)
Theorem freezing_more_filters_records model supervised_from freeze_layers more :
  trainable_layers model supervised_from (freeze_layers ++ more)
  = filter (λ r, name r ∉ more)
      (trainable_layers model supervised_from freeze_layers).
Proof.
  rewrite !trainable_layers_take.
  induction (take _ (enumerate model)) as [|[i [n l]] items IH]; [done|].
  rewrite !omap_cons, IH, !select_layer_item.
  destruct (is_linear_or_conv l); cbn [andb]; [|done].
  assert (bool_decide (n ∉ freeze_layers ++ more)
          = bool_decide (n ∉ freeze_layers) && bool_decide (n ∉ more)) as ->.
  { rewrite <- bool_decide_and. apply bool_decide_ext, not_elem_of_app. }
  destruct (bool_decide (n ∉ freeze_layers)); cbn [andb]; [|done].
  rewrite filter_cons. cbn [name]. case_bool_decide.
  - by destruct (decide (n ∉ more)).
  - by destruct (decide (n ∉ more)).
Qed.

Lemma select_layer_names freeze_layers (items : list (Z * (string * Module elt))) :
  name <$> omap (select_layer freeze_layers) items
  `sublist_of` (λ item, item.2.1) <$> items.
Proof.
  induction items as [|[i [n l]] items IH]; [done|].
  rewrite omap_cons, fmap_cons, select_layer_item. cbn [fst snd].
  destruct (_ && _).
  - rewrite fmap_cons. by apply sublist_skip.
  - by apply sublist_cons.
Qed.

Lemma enumerate_names model : (λ item, item.2.1) <$> enumerate model = model.*1.
Proof.
  apply list_eq. intros i. unfold enumerate.
  rewrite !list_lookup_fmap, list_lookup_imap. by destruct (model !! i).
Qed.

(** X4.  When the children of the model bear distinct names, so do the
    records: a record's name singles out one trainable layer, which is what
    the optimizer is handed. *)
Theorem trainable_layers_names_distinct model supervised_from freeze_layers :
  NoDup model.*1 →
  NoDup (name <$> trainable_layers model supervised_from freeze_layers).
Proof.
  intros Hnd. rewrite trainable_layers_take.
  eapply sublist_NoDup; [|apply select_layer_names].
  rewrite fmap_take, enumerate_names.
  eapply sublist_NoDup; [exact Hnd|apply sublist_take].
Qed.

End RegistryMore.

(** [trainable_layers_whole_model] on the one-layer dense model. *)
Lemma trainable_layers_whole_model_witness :
  Z.of_nat (length Toy.dense43) ≤ 1
  ∧ trainable_layers Toy.dense43 1 [] = [mkLayer 0 "fc" 0].
Proof.
  split; [done|].
  destruct (trainable_layers_whole_model Toy.dense43 1 []) as [-> _]; [done|].
  reflexivity.
Defined.

(** [trainable_layers_prefix] on the two dense layers, cutoffs 1 and 2. *)
Lemma trainable_layers_prefix_witness :
  scan_cutoff (length Toy.two_dense) 1 ≤ scan_cutoff (length Toy.two_dense) 2
  ∧ trainable_layers Toy.two_dense 1 [] `prefix_of` trainable_layers Toy.two_dense 2 [].
Proof.
  assert (scan_cutoff (length Toy.two_dense) 1 ≤ scan_cutoff (length Toy.two_dense) 2)
    as H by done.
  split; [exact H|]. exact (trainable_layers_prefix Toy.two_dense 1 2 [] H).
Defined.

(** [trainable_layers_names_distinct] on the two dense layers. *)
Lemma trainable_layers_names_distinct_witness :
  NoDup Toy.two_dense.*1 ∧ NoDup (name <$> trainable_layers Toy.two_dense 2 []).
Proof.
  assert (NoDup Toy.two_dense.*1) as H.
  { apply NoDup_cons. split; [|apply NoDup_singleton].
    intros H%list_elem_of_singleton. discriminate H. }
  split; [exact H|]. exact (trainable_layers_names_distinct Toy.two_dense 2 [] H).
Defined.

(** ** The data preparer, continued *)

Section DataPreparerMore.
Context {elt R O : Type}.
Context `{!Torch elt, !LearningRule elt R, !Optimizer elt O}.
Implicit Types (layers : list (Module elt)) (inputs x w : Tensor elt).

Lemma py_getitem_outside {A} (l : list A) i :
  i < - Z.of_nat (length l) ∨ Z.of_nat (length l) ≤ i →
  py_getitem l i = Raise IndexError.
Proof.
  intros Hi. unfold py_getitem. destruct (i <? 0) eqn:E.
  - apply Z.ltb_lt in E. destruct (_ + i <? 0) eqn:E'; [done|].
    apply Z.ltb_ge in E'. lia.
  - apply Z.ltb_ge in E. rewrite (proj2 (Z.ltb_ge _ _)) by done.
    rewrite lookup_ge_None_2; [done|lia].
Qed.

Lemma py_getitem_in_range {A} (l : list A) i :
  - Z.of_nat (length l) ≤ i < Z.of_nat (length l) →
  ∃ a, py_getitem l i = Ok a.
Proof.
  intros Hi. unfold py_getitem.
  set (j := if i <? 0 then _ else _).
  assert (0 ≤ j < Z.of_nat (length l)) as Hj.
  { unfold j. destruct (i <? 0) eqn:E; [apply Z.ltb_lt in E|apply Z.ltb_ge in E]; lia. }
  rewrite (proj2 (Z.ltb_ge _ _)) by lia.
  destruct (lookup_lt_is_Some_2 l (Z.to_nat j)) as [a Ha]; [lia|].
  rewrite Ha. by exists a.
Qed.

Lemma py_getitem_raise {A} (l : list A) i e :
  py_getitem l i = Raise e →
  e = IndexError ∧ (i < - Z.of_nat (length l) ∨ Z.of_nat (length l) ≤ i).
Proof.
  intros H. split.
  - unfold py_getitem in H. destruct (_ <? 0); [congruence|].
    destruct (l !! _); congruence.
  - destruct (decide (- Z.of_nat (length l) ≤ i < Z.of_nat (length l))) as [Hi|Hi];
      [|lia].
    apply py_getitem_in_range in Hi as [a Ha]. congruence.
Qed.

Lemma py_getitem_from_end {A} (l : list A) i :
  - Z.of_nat (length l) ≤ i < 0 →
  py_getitem l i = py_getitem l (Z.of_nat (length l) + i).
Proof.
  intros Hi. unfold py_getitem.
  rewrite (proj2 (Z.ltb_lt i 0)) by lia.
  by rewrite !(proj2 (Z.ltb_ge (Z.of_nat (length l) + i) 0)) by lia.
Qed.

Lemma input_before_negative mode inputs layers i :
  - Z.of_nat (length layers) ≤ i < 0 →
  input_before mode inputs layers i
  = input_before mode inputs layers (Z.of_nat (length layers) + i).
Proof.
  intros Hi. unfold input_before, py_slice_to.
  rewrite (proj2 (Z.eqb_neq i 0)) by lia.
  rewrite (proj2 (Z.ltb_lt i 0)) by lia.
  rewrite (proj2 (Z.ltb_ge (_ + i) 0)) by lia.
  destruct (_ + i =? 0) eqn:E; [|done].
  apply Z.eqb_eq in E. by rewrite E.
Qed.

Lemma infer_size_raise sizes n e :
  infer_size sizes n = Raise e → ∃ msg, e = RuntimeError msg.
Proof.
  unfold infer_size. destruct (existsb _ _); [intros [= <-]; eauto|].
  destruct (_ - _)%nat as [|[|k]].
  - destruct (_ =? n); [done|intros [= <-]; eauto].
  - destruct (_ =? 0); [intros [= <-]; eauto|].
    destruct (_ =? 0); [done|intros [= <-]; eauto].
  - intros [= <-]; eauto.
Qed.

Lemma view_raise x sizes e : view x sizes = Raise e → ∃ msg, e = RuntimeError msg.
Proof.
  unfold view. destruct (infer_size _ _) eqn:E; [done|].
  intros [= <-]. by eapply infer_size_raise.
Qed.

(** The ways the preparer fails. *)
Lemma prepare_tensors_raise mode inputs layers k e :
  prepare_tensors mode inputs layers k = Raise e →
  (e = IndexError ∧ (k < - Z.of_nat (length layers) ∨ Z.of_nat (length layers) ≤ k))
  ∨ (e = TypeError "Unsupported layer type!"
     ∧ ∃ cls ow, py_getitem layers k = Ok (Other cls ow))
  ∨ (∃ l, py_getitem layers k = Ok l ∧ is_linear_or_conv l = true
          ∧ (e = IndexError ∨ ∃ msg, e = RuntimeError msg)).
Proof.
  unfold prepare_tensors.
  destruct (py_getitem layers k) as [l|e0] eqn:Hl.
  2:{ intros [= <-]. left. by apply py_getitem_raise in Hl. }
  cbn [mbind Result_bind].
  destruct l as [weight b|weight b ks st pd dl|cls ow].
  - intros H. right. right. eexists. split; [done|]. split; [done|].
    cbn [weight_and_patches mbind mret Result_bind Result_ret] in H.
    destruct (py_getitem (shape _) 0) as [n|e0] eqn:Hn.
    2:{ injection H as <-. apply py_getitem_raise in Hn as [-> _]. by left. }
    cbn [mbind Result_bind] in H.
    destruct (view _ _) as [x'|e0] eqn:Hv; [done|].
    injection H as <-. right. by eapply view_raise.
  - intros H. right. right. eexists. split; [done|]. split; [done|].
    cbn [weight_and_patches] in H.
    destruct (view weight _) as [w'|e0] eqn:Hw.
    2:{ injection H as <-. right. by eapply view_raise. }
    cbn [mbind mret Result_bind Result_ret] in H.
    destruct (py_getitem (shape _) 0) as [n|e0] eqn:Hn.
    2:{ injection H as <-. apply py_getitem_raise in Hn as [-> _]. by left. }
    cbn [mbind Result_bind] in H.
    destruct (view (extract_image_patches _ _ _ _ _) _) as [x'|e0] eqn:Hv; [done|].
    injection H as <-. right. by eapply view_raise.
  - intros [= <-]. right. left. split; [done|]. by exists cls, ow.
Qed.

(** X5.  An index outside [-len, len) makes the preparer raise
    [IndexError] before anything is computed or logged. *)
Theorem prepare_data_out_of_range inputs layer_index (s : World elt R) :
  layer_index < - Z.of_nat (length (model s))
  ∨ Z.of_nat (length (model s)) ≤ layer_index →
  _prepare_data inputs layer_index s = (Raise IndexError, s).
Proof.
  intros Hk. rewrite _prepare_data_run. unfold prepare_tensors.
  rewrite py_getitem_outside; [done|].
  unfold children. by rewrite length_map.
Qed.

(** X6.  A negative index in range addresses the layer counted from the
    end, and the replay stops right before that layer: the preparer does
    what it does for the index [len + layer_index]. *)
Theorem prepare_data_negative_index inputs layer_index (s : World elt R) :
  - Z.of_nat (length (model s)) ≤ layer_index < 0 →
  _prepare_data inputs layer_index s
  = _prepare_data inputs (Z.of_nat (length (model s)) + layer_index) s.
Proof.
  intros Hk. rewrite !_prepare_data_run. unfold prepare_tensors.
  assert (length (children (model s)) = length (model s)) as Hlen
    by (unfold children; apply length_map).
  rewrite <- Hlen in *.
  by rewrite py_getitem_from_end, input_before_negative by done.
Qed.

(** X7.  The preparer raises [TypeError] exactly when the addressed child
    is neither a [Linear] nor a [Conv2d], and the message then is
    "Unsupported layer type!". *)
Theorem prepare_data_type_error inputs layer_index (s : World elt R) msg :
  (_prepare_data inputs layer_index s).1 = Raise (TypeError msg) ↔
  msg = "Unsupported layer type!" ∧
  ∃ cls ow, py_getitem (children (model s)) layer_index = Ok (Other cls ow).
Proof.
  rewrite _prepare_data_run. split.
  - destruct (prepare_tensors _ _ _ _) as [[x w]|e] eqn:Hp; [done|].
    cbn [fst]. intros [= ->].
    apply prepare_tensors_raise in Hp as [[? _]|[[Hm Hl]|(l & _ & _ & [?|[? ?]])]];
      try done.
    by injection Hm as <-.
  - intros [-> (cls & ow & Hl)]. unfold prepare_tensors. by rewrite Hl.
Qed.

(** X8.  What the preparer logs and raises, the forward calls of the
    children and the patch extraction being taken to return.  When it
    returns it has logged the shapes of the pair it returns, and nothing
    else; when it raises it has logged nothing, and what it raises is an
    [IndexError], the [TypeError] of an unsupported layer, or the
    [RuntimeError] of a view. *)
Theorem prepare_data_logs_and_raises inputs layer_index (s : World elt R) :
  let run := _prepare_data inputs layer_index s in
  match run.1 with
  | Ok (x, w) =>
      trace run.2 = trace s ++ [Logging DEBUG (Prepared_shapes (shape x) (shape w))]
  | Raise e =>
      trace run.2 = trace s ∧
      match e with
      | IndexError | RuntimeError _ => True
      | TypeError msg => msg = "Unsupported layer type!"
      | _ => False
      end
  end.
Proof.
  cbv zeta. rewrite _prepare_data_run.
  destruct (prepare_tensors _ _ _ _) as [[x w]|e] eqn:Hp; [done|].
  split; [done|].
  apply prepare_tensors_raise in Hp
    as [[-> _]|[[-> _]|(l & _ & _ & [->|[? ->]])]]; done.
Qed.

Lemma view_rows_ok x n rest :
  shape x = n :: rest → 0 < n →
  view x [n; -1] = Ok (mkTensor [n; numel rest] (data x)).
Proof.
  intros Hs Hn. unfold view, infer_size. rewrite Hs, numel_cons.
  cbn [existsb filter list_filter].
  rewrite decide_True by lia. rewrite decide_False by lia.
  cbn [length Nat.sub numel foldr].
  rewrite (proj2 (Z.ltb_ge n (-1))) by lia.
  replace (-1 <? -1) with false by done. cbn [orb].
  rewrite Z.mul_1_r, (proj2 (Z.eqb_neq n 0)) by lia.
  rewrite Z.mul_comm, Z.mod_mul, Z.div_mul by lia.
  cbn [Z.eqb map]. rewrite (proj2 (Z.eqb_neq n (-1))) by lia. done.
Qed.

(** X9.  For a [Linear] layer: an activation without dimensions makes
    the preparer raise [IndexError]; an activation whose first dimension is
    not positive, an empty batch, makes it raise the [RuntimeError] of the
    view; and whenever the preparer returns, the first dimension [n] of the
    activation is positive, the weight returned is the weight of the layer
    itself, and the input returned is the activation flattened to [[n; f]],
    [f] being the product of the other dimensions, with its contents as they
    were. *)
Theorem linear_preparation mode inputs layers layer_index weight bias :
  py_getitem layers layer_index = Ok (Linear weight bias) →
  let act := input_before mode inputs layers layer_index in
  let run := prepare_tensors mode inputs layers layer_index in
  (shape act = [] → run = Raise IndexError)
  ∧ (∀ n rest, shape act = n :: rest → n ≤ 0 → ∃ msg, run = Raise (RuntimeError msg))
  ∧ (∀ x w, run = Ok (x, w) →
       w = weight ∧
       ∃ n rest, shape act = n :: rest ∧ 0 < n ∧
                 x = mkTensor [n; numel rest] (data act)).
Proof.
  intros Hl. cbv zeta. unfold prepare_tensors. rewrite Hl.
  cbn [mbind mret Result_bind Result_ret weight_and_patches].
  set (act := input_before _ _ _ _).
  destruct (shape act) as [|n rest] eqn:Hs.
  { split; [done|]. split; [done|]. intros x w. cbn. done. }
  rewrite (proj2 (py_getitem_0 (n :: rest) n)) by (by exists rest).
  cbn [mbind Result_bind].
  split; [done|]. split.
  - intros n' rest' [= <- <-] Hn.
    destruct (view act [n; -1]) as [x'|e] eqn:Hv.
    + apply (view_rows _ _ _ _ Hs) in Hv. lia.
    + apply view_raise in Hv as [msg ->]. by exists msg.
  - intros x w. destruct (view act [n; -1]) as [x'|e] eqn:Hv; [|done].
    intros [= <- <-]. split; [done|]. exists n, rest.
    apply (view_rows _ _ _ _ Hs) in Hv as (Hn & Hshape & Hdata).
    split; [done|]. split; [done|].
    destruct x' as [sh dt]. cbn in *. by subst.
Qed.

End DataPreparerMore.

(** [prepare_data_out_of_range]: the one-layer dense model has no layer 1. *)
Lemma prepare_data_out_of_range_witness :
  _prepare_data Toy.inputs224 1 (Toy.world0 Toy.dense43)
  = (Raise IndexError, Toy.world0 Toy.dense43).
Proof.
  apply (prepare_data_out_of_range Toy.inputs224 1 (Toy.world0 Toy.dense43)).
  right. vm_compute. discriminate.
Defined.

(** [prepare_data_negative_index]: layer -1 of the two dense layers is
    layer 1. *)
Lemma prepare_data_negative_index_witness :
  _prepare_data (Toy.batch1).1 (-1) (Toy.world0 Toy.two_dense)
  = _prepare_data (Toy.batch1).1 1 (Toy.world0 Toy.two_dense).
Proof.
  apply (prepare_data_negative_index (Toy.batch1).1 (-1) (Toy.world0 Toy.two_dense)).
  vm_compute. split; [discriminate|reflexivity].
Defined.

(** [linear_preparation] on the dense layer 4 -> 3 and two samples of two
    rows of four features. *)
Lemma linear_preparation_witness :
  prepare_tensors false Toy.inputs224 (children Toy.dense43) 0
  = Ok (mkTensor [2; 8] (replicate 16 1), mkTensor [3; 4] (replicate 12 1))
  ∧ ∃ n rest, shape Toy.inputs224 = n :: rest ∧ 0 < n ∧
              mkTensor [2; 8] (replicate 16 1)
              = mkTensor [n; numel rest] (data Toy.inputs224).
Proof.
  split; [reflexivity|].
  destruct (linear_preparation false Toy.inputs224 (children Toy.dense43) 0
              (mkTensor [3; 4] (replicate 12 1)) None eq_refl) as (_ & _ & H).
  exact (proj2 (H _ _ eq_refl)).
Defined.

(** ** The per-batch update, continued *)

Section UpdateMore.
Context {elt R O : Type}.
Context `{!Torch elt, !LearningRule elt R, !Optimizer elt O}.
Implicit Types (s : World elt R) (lyr : Layer) (x : Tensor elt) (m : Model elt).

Lemma set_weight_twice (l : Module elt) w1 w2 :
  set_weight (set_weight l w1) w2 = set_weight l w2.
Proof. by destruct l as [| |c [|]]. Qed.

Lemma set_weight_own (l : Module elt) : ∃ w, l = set_weight l w.
Proof.
  destruct l as [w b|w b ks st pd dl|c [w|]];
    [by exists w..|by exists (mkTensor [] [])].
Qed.

Lemma same_but_weight_refl (c : string * Module elt) : same_but_weight c c.
Proof. split; [done|apply set_weight_own]. Qed.

Lemma same_but_weight_trans (c1 c2 c3 : string * Module elt) :
  same_but_weight c1 c2 → same_but_weight c2 c3 → same_but_weight c1 c3.
Proof.
  intros [Hn1 [w1 H1]] [Hn2 [w2 H2]]. split; [congruence|].
  exists w2. by rewrite H2, H1, set_weight_twice.
Qed.

Lemma same_but_weight_kind (c c' : string * Module elt) :
  same_but_weight c c' → is_linear_or_conv c'.2 = is_linear_or_conv c.2.
Proof. intros [_ [w ->]]. by destruct (c.2) as [| |? [|]]. Qed.

(** What the optimizer's step for the layer named [n] does to the children. *)
Lemma local_step_children opt d n m :
  Forall2 (λ c c', same_but_weight c c' ∧ (c.1 ≠ n → c' = c)) m (local_step opt d n m).
Proof.
  induction m as [|c m IH]; [constructor|].
  unfold local_step in *. cbn [map]. constructor; [|exact IH].
  destruct (decide (c.1 = n)) as [Hn|Hn].
  - split; [|done]. destruct (get_weight c.2) as [p|e]; [|apply same_but_weight_refl].
    split; [done|]. by eexists.
  - split; [apply same_but_weight_refl|done].
Qed.

Lemma apply_steps_children opt (steps : list (Tensor elt * string)) m :
  Forall2 (λ c c', same_but_weight c c' ∧ (c.1 ∉ steps.*2 → c' = c))
    m (apply_steps opt steps m).
Proof.
  revert m. induction steps as [|[d n] steps IH]; intros m.
  - apply Forall_Forall2_diag, Forall_forall. intros c _.
    split; [apply same_but_weight_refl|done].
  - unfold apply_steps in *. cbn [fold_left fst snd].
    eapply Forall2_trans; [|apply (local_step_children opt d n m)|apply IH].
    intros c1 c2 c3 [H12 Hk12] [H23 Hk23]. split.
    + by eapply same_but_weight_trans.
    + rewrite fmap_cons. cbn [snd]. intros Hnot.
      apply not_elem_of_cons in Hnot as [Hn Hnot].
      rewrite Hk23; [by apply Hk12|]. by rewrite Hk12.
Qed.

(** The records depend on the names and the classes of the children only. *)
Lemma trainable_layers_same m m' supervised_from freeze_layers :
  Forall2 same_but_weight m m' →
  trainable_layers m' supervised_from freeze_layers
  = trainable_layers m supervised_from freeze_layers.
Proof.
  intros Hmm. rewrite !trainable_layers_take.
  rewrite <- (Forall2_length _ _ _ Hmm).
  generalize (Z.to_nat (scan_cutoff (length m) supervised_from)). intros k.
  unfold enumerate.
  rewrite (imap_ext _ (λ i a, (Z.of_nat (0 + i), a)) m') by done.
  rewrite (imap_ext _ (λ i a, (Z.of_nat (0 + i), a)) m) by done.
  generalize 0%nat. revert k.
  induction Hmm as [|[n l] [n' l'] m m' Hc Hmm IH]; intros k j; [done|].
  destruct k as [|k]; [done|]. rewrite !imap_cons. cbn [take].
  rewrite !omap_cons, !select_layer_item.
  rewrite (imap_ext _ (λ i a, (Z.of_nat (S j + i), a)) m) by
    (intros; simpl; f_equal; lia).
  rewrite (imap_ext _ (λ i a, (Z.of_nat (S j + i), a)) m') by
    (intros; simpl; f_equal; lia).
  rewrite IH. pose proof (same_but_weight_kind _ _ Hc) as Hk.
  destruct Hc as [Hn _]. cbn [fst snd] in *. by rewrite Hk, Hn.
Qed.

(** A loop over records, however it ends: the changes handed to the
    optimizer are those of the records before the one that failed, of all
    the records when none did. *)
Lemma for_each_update_outcome lr opt x ls s res s' :
  for_each ls (update_layer lr opt x) s = (res, s') →
  training s' = training s ∧
  ∃ evs pre,
    trace s' = trace s ++ evs ∧
    model s' = apply_steps opt (steps_of evs) (model s) ∧
    (steps_of evs).*2 = name <$> pre ∧
    match res with
    | Ok _ => pre = ls
    | Raise _ => ∃ lyr post, ls = pre ++ lyr :: post
    end.
Proof.
  revert s. induction ls as [|lyr ls IH]; intros s.
  - intros [= <- <-]. split; [done|]. exists [], []. by rewrite app_nil_r.
  - simpl. rewrite bind_run.
    destruct (update_layer lr opt x lyr s) as [[[]|e] s1] eqn:Hlyr.
    + intros Hls.
      apply update_layer_ok in Hlyr
        as (wt & inputs & weights & rule & d_p & _ & _ & Hres & _ & ->).
      apply IH in Hls as (Htr & evs & pre & Hevs & Hm & Hnames & Hend).
      cbn [model training trace] in *. split; [done|].
      eexists (_ :: _ :: _ :: _ :: evs), (lyr :: pre). split; [|split; [|split]].
      * rewrite Hevs, <- app_assoc. reflexivity.
      * exact Hm.
      * cbn. by rewrite <- Hnames.
      * destruct res as [u|e]; [by rewrite Hend|].
        destruct Hend as (lyr' & post & ->). by exists lyr', post.
    + intros [= <- <-].
      apply update_layer_raise in Hlyr as (Hm & Htr & evs & Hevs & Hsteps & _).
      split; [done|]. exists evs, []. split; [done|]. split; [by rewrite Hsteps|].
      split; [by rewrite Hsteps|]. by exists lyr, ls.
Qed.

(** X10.  A per-batch update that goes through has put the model in
    training mode, has asked one rule for a change and handed one change to
    the optimizer for every record of [self.layers], in the order of the
    records and under the record's name, each rule being the one of its
    layer, and returns what [output_transform] makes of the prepared
    batch. *)
Theorem update_success_accounting {Out} (self : HebbianTrainer R) lr opt
    (pb : Tensor elt * Tensor elt → Tensor elt * Tensor elt)
    (ot : Tensor elt → Tensor elt → Out) batch s out s' :
  create_hebbian_trainer self lr opt pb ot batch s = (Ok out, s') →
  out = ot (pb batch).1 (pb batch).2 ∧ training s' = true ∧
  ∃ evs,
    trace s' = trace s ++ evs ∧
    (steps_of evs).*2 = name <$> layers self ∧
    Forall2 (resolves lr) (name <$> layers self) (rules_of evs) ∧
    model s' = apply_steps opt (steps_of evs) (model s).
Proof.
  rewrite create_hebbian_trainer_run.
  destruct (for_each _ _ _) as [[[]|e] s2] eqn:Hloop; [|done].
  intros [= <- <-]. split; [done|].
  apply for_each_update_ok in Hloop as (Htr & evs & Hevs & Hm & Hnames & Hrules).
  split; [done|]. by exists evs.
Qed.

(** X11.  A per-batch update that raises has put the model in training
    mode and keeps what it did before: the changes of the records that come
    before the failing one were handed to the optimizer and stay applied,
    and no change was handed over for the failing record or a later one. *)
Theorem update_failure_keeps_earlier_steps {Out} (self : HebbianTrainer R) lr opt
    (pb : Tensor elt * Tensor elt → Tensor elt * Tensor elt)
    (ot : Tensor elt → Tensor elt → Out) batch s e s' :
  create_hebbian_trainer self lr opt pb ot batch s = (Raise e, s') →
  training s' = true ∧
  ∃ evs pre lyr post,
    layers self = pre ++ lyr :: post ∧
    trace s' = trace s ++ evs ∧
    (steps_of evs).*2 = name <$> pre ∧
    model s' = apply_steps opt (steps_of evs) (model s).
Proof.
  rewrite create_hebbian_trainer_run.
  destruct (for_each _ _ _) as [[[]|e'] s2] eqn:Hloop; [done|].
  intros [= <- <-].
  apply for_each_update_outcome in Hloop
    as (Htr & evs & pre & Hevs & Hm & Hnames & lyr & post & Hls).
  split; [done|]. by exists evs, pre, lyr, post.
Qed.

(** X12.  However a per-batch update ends, the children of the model keep
    their number, order, names, classes, biases and geometry: at most the
    contents of weights change.  The records that the constructor would
    build on the model after the update are therefore those it built
    before. *)
Theorem update_keeps_structure {Out} (self : HebbianTrainer R) lr opt
    (pb : Tensor elt * Tensor elt → Tensor elt * Tensor elt)
    (ot : Tensor elt → Tensor elt → Out) batch s :
  let s' := (create_hebbian_trainer self lr opt pb ot batch s).2 in
  Forall2 same_but_weight (model s) (model s')
  ∧ ∀ supervised_from freeze_layers,
      trainable_layers (model s') supervised_from freeze_layers
      = trainable_layers (model s) supervised_from freeze_layers.
Proof.
  cbv zeta. rewrite create_hebbian_trainer_run.
  destruct (for_each _ _ _) as [res s2] eqn:Hloop.
  apply for_each_update_outcome in Hloop as (_ & evs & pre & _ & Hm & _).
  cbn [model] in Hm.
  assert (Forall2 same_but_weight (model s) (model s2)) as Hsame.
  { rewrite Hm. eapply Forall2_impl; [apply apply_steps_children|].
    by intros c c' [? _]. }
  assert (model (match res with Ok _ => s2 | Raise _ => s2 end) = model s2) as Heq
    by (by destruct res).
  destruct res as [[]|e]; cbn [snd]; (split; [done|]);
    intros; by apply trainable_layers_same.
Qed.

Lemma step_in_steps_of (evs : list (Event elt R)) d_p n :
  Optimizer_local_step d_p n ∈ evs → n ∈ (steps_of evs).*2.
Proof.
  intros Hin. apply list_elem_of_fmap. exists (d_p, n). split; [done|].
  unfold steps_of. apply list_elem_of_omap.
  by exists (Optimizer_local_step d_p n).
Qed.

(** X13.  However a per-batch update ends, every change it has handed to
    the optimizer was handed over under the name of a record of
    [self.layers]: the optimizer is never asked to step a layer that has no
    record. *)
Theorem update_steps_only_records {Out} (self : HebbianTrainer R) lr opt
    (pb : Tensor elt * Tensor elt → Tensor elt * Tensor elt)
    (ot : Tensor elt → Tensor elt → Out) batch s res s' :
  create_hebbian_trainer self lr opt pb ot batch s = (res, s') →
  ∃ evs, trace s' = trace s ++ evs
    ∧ ∀ d_p n, Optimizer_local_step d_p n ∈ evs → n ∈ name <$> layers self.
Proof.
  rewrite create_hebbian_trainer_run.
  destruct (for_each _ _ _) as [res' s2] eqn:Hloop.
  intros Hres. assert (s' = s2) as -> by (by destruct res'; simplify_eq/=).
  apply for_each_update_outcome in Hloop as (_ & evs & pre & Ht & _ & Hnames & Hend).
  cbn [trace] in Ht. exists evs. split; [done|].
  intros d_p n Hin. apply step_in_steps_of in Hin. rewrite Hnames in Hin.
  destruct res' as [u|e].
  - by rewrite <- Hend.
  - destruct Hend as (lyr & post & ->). rewrite fmap_app. apply elem_of_app. by left.
Qed.

Lemma record_names_outside m supervised_from freeze_layers (i : nat) n l :
  NoDup m.*1 →
  m !! i = Some (n, l) →
  n ∈ freeze_layers ∨ is_linear_or_conv l = false
  ∨ scan_cutoff (length m) supervised_from ≤ Z.of_nat i →
  n ∉ name <$> trainable_layers m supervised_from freeze_layers.
Proof.
  intros Hnd Hi Hcase Hin.
  apply list_elem_of_fmap in Hin as (r & Hn & Hr).
  apply elem_of_trainable_layers in Hr as (j & n' & l' & Hj & Hlt & Hk & Hfz & ->).
  cbn [name] in Hn. subst n'.
  assert (j = i) as ->.
  { eapply NoDup_lookup; [exact Hnd| |].
    - by rewrite list_lookup_fmap, Hj.
    - by rewrite list_lookup_fmap, Hi. }
  rewrite Hi in Hj. injection Hj as <-.
  destruct Hcase as [?|[?|?]]; [done|congruence|lia].
Qed.

(** X14.  For records such as the constructor builds on a model whose
    children bear distinct names, a per-batch update, however it ends, hands
    the optimizer no change under the name of a frozen layer, of a child
    that is neither a [Linear] nor a [Conv2d], or of a child from the cutoff
    on, which is left to supervised training. *)
Theorem update_never_steps_unregistered {Out} (self : HebbianTrainer R) lr opt
    (pb : Tensor elt * Tensor elt → Tensor elt * Tensor elt)
    (ot : Tensor elt → Tensor elt → Out) batch s res s'
    supervised_from freeze_layers (i : nat) n l :
  layers self = trainable_layers (model s) supervised_from freeze_layers →
  NoDup (model s).*1 →
  model s !! i = Some (n, l) →
  n ∈ freeze_layers ∨ is_linear_or_conv l = false
  ∨ scan_cutoff (length (model s)) supervised_from ≤ Z.of_nat i →
  create_hebbian_trainer self lr opt pb ot batch s = (res, s') →
  ∃ evs, trace s' = trace s ++ evs ∧ ∀ d_p, Optimizer_local_step d_p n ∉ evs.
Proof.
  intros Hls Hnd Hi Hcase.
  pose proof (record_names_outside _ supervised_from freeze_layers _ _ _ Hnd Hi Hcase)
    as Hout.
  rewrite <- Hls in Hout.
  rewrite create_hebbian_trainer_run.
  destruct (for_each _ _ _) as [res' s2] eqn:Hloop.
  intros Hres. assert (s' = s2) as -> by (by destruct res'; simplify_eq/=).
  apply for_each_update_outcome in Hloop as (_ & evs & pre & Ht & _ & Hnames & Hend).
  cbn [trace] in Ht. exists evs. split; [done|].
  intros d_p Hin. apply Hout. apply step_in_steps_of in Hin. rewrite Hnames in Hin.
  destruct res' as [u|e].
  - by rewrite <- Hend.
  - destruct Hend as (lyr & post & ->). rewrite fmap_app. apply elem_of_app. by left.
Qed.

Lemma refers_to_same m m' lyr :
  Forall2 same_but_weight m m' → refers_to m lyr → refers_to m' lyr.
Proof.
  intros Hmm [Hidx (l & Hl & Hk)]. split; [done|].
  destruct (Forall2_lookup_l _ _ _ _ _ Hmm Hl) as ([n' l'] & Hl' & Hc).
  pose proof (same_but_weight_kind _ _ Hc) as Hk'.
  destruct Hc as [Hn _]. cbn [fst snd] in *. subst n'.
  exists l'. split; [done|congruence].
Qed.

Lemma trainable_layers_refer m supervised_from freeze_layers :
  Forall (refers_to m) (trainable_layers m supervised_from freeze_layers).
Proof.
  apply Forall_forall. intros r Hr.
  apply elem_of_trainable_layers in Hr as (i & n & l & Hi & _ & Hk & _ & ->).
  split; [done|]. by exists l.
Qed.

Lemma refers_to_weight m lyr :
  refers_to m lyr →
  ∃ l wt, py_getitem (children m) (idx lyr) = Ok l ∧ is_linear_or_conv l = true
          ∧ weight_of m (layer lyr) = Ok wt.
Proof.
  intros [Hidx (l & Hl & Hk)].
  assert (py_getitem (children m) (Z.of_nat (layer lyr)) = Ok l) as Hget.
  { assert ((Z.of_nat (layer lyr) <? 0) = false) as E by (apply Z.ltb_ge; lia).
    unfold py_getitem. cbv zeta. rewrite E. cbv iota. rewrite E.
    unfold children. rewrite Nat2Z.id.
    change (map snd m) with (snd <$> m). by rewrite list_lookup_fmap, Hl. }
  exists l. unfold weight_of. rewrite Hidx, Hget. cbn [mbind Result_bind].
  destruct l as [w b|w b ks st pd dl|c ow]; [by exists w..|done].
Qed.

(** What a record that refers to a supported child can fail with. *)
Lemma update_layer_raise_kind lr opt x lyr s s' e :
  refers_to (model s) lyr →
  update_layer lr opt x lyr s = (Raise e, s') →
  e = IndexError ∨ (∃ msg, e = RuntimeError msg)
  ∨ (e = KeyError (name lyr) ∧ ∃ d, lr = RuleDict d ∧ dict_lookup d (name lyr) = None).
Proof.
  intros Href. apply refers_to_weight in Href as (l & wt & Hl & Hk & Hwt).
  unfold update_layer. rewrite bind_run, prepare_layer_run, Hwt.
  rewrite _prepare_data_run. cbn [model training trace].
  destruct (prepare_tensors _ _ _ _) as [[inputs weights]|e0] eqn:Hp.
  2:{ intros [= <- <-].
      apply prepare_tensors_raise in Hp
        as [[-> _]|[[_ (c & ow & Hl')]|(_ & _ & _ & [->|Hrt])]].
      - by left.
      - rewrite Hl in Hl'. injection Hl' as ->. done.
      - by left.
      - right. by left. }
  rewrite bind_run, resolve_rule_run.
  assert (∀ rule s1, model s1 = model s →
    apply_rule opt rule lyr inputs weights s1 = (Raise e, s') →
    ∃ msg, e = RuntimeError msg) as Hrule.
  { intros rule s1 Hs1. rewrite apply_rule_run, Hs1, Hwt. cbn [mbind Result_bind].
    destruct (view _ _) as [d_p|e0] eqn:Hv; [done|].
    intros [= <- <-]. by eapply view_raise. }
  destruct lr as [r|d].
  - intros H. right. left. eapply Hrule; [|exact H]. reflexivity.
  - destruct (dict_lookup d (name lyr)) as [r|] eqn:Hd.
    + intros H. right. left. eapply Hrule; [|exact H]. reflexivity.
    + intros [= <- <-]. right. right. split; [done|]. by exists d.
Qed.

Lemma for_each_update_raise_kind lr opt x ls s s' e :
  Forall (refers_to (model s)) ls →
  for_each ls (update_layer lr opt x) s = (Raise e, s') →
  e = IndexError ∨ (∃ msg, e = RuntimeError msg)
  ∨ ∃ n d, e = KeyError n ∧ n ∈ name <$> ls ∧ lr = RuleDict d ∧ dict_lookup d n = None.
Proof.
  revert s. induction ls as [|lyr ls IH]; intros s Href; [done|].
  apply Forall_cons in Href as [Hlyr Hls].
  simpl. rewrite bind_run.
  destruct (update_layer lr opt x lyr s) as [[[]|e0] s1] eqn:Hrun.
  - intros Hrest.
    apply update_layer_ok in Hrun
      as (wt & inputs & weights & rule & d_p & _ & _ & _ & _ & ->).
    apply IH in Hrest as [?|[?|(n & d & -> & Hn & -> & Hd)]]; [by left|by right; left| |].
    + right. right. exists n, d. repeat split; [|done]. by right.
    + cbn [model]. eapply Forall_impl; [exact Hls|].
      intros r. apply refers_to_same.
      eapply Forall2_impl; [apply local_step_children|]. by intros c c' [? _].
  - intros [= <- <-].
    apply (update_layer_raise_kind _ _ _ _ _ _ _ Hlyr) in Hrun
      as [?|[?|[-> (d & -> & Hd)]]]; [by left|by right; left|].
    right. right. exists (name lyr), d. repeat split; [|done]. by left.
Qed.

(** X15.  With records built by the constructor on a model that has since
    changed at most in the contents of its weights, a per-batch update has
    three ways to fail: the [IndexError] of an activation without
    dimensions, the [RuntimeError] of a view, and, with a mapping of rules
    only, the [KeyError] of the name of a record that has no entry.  The
    [TypeError] of the data preparer is out of reach. *)
Theorem update_error_kinds {Out} (self : HebbianTrainer R) lr opt
    (pb : Tensor elt * Tensor elt → Tensor elt * Tensor elt)
    (ot : Tensor elt → Tensor elt → Out) batch m0 supervised_from freeze_layers
    s e s' :
  layers self = trainable_layers m0 supervised_from freeze_layers →
  Forall2 same_but_weight m0 (model s) →
  create_hebbian_trainer self lr opt pb ot batch s = (Raise e, s') →
  match e with
  | IndexError | RuntimeError _ => True
  | KeyError n =>
      n ∈ name <$> layers self ∧ ∃ d, lr = RuleDict d ∧ dict_lookup d n = None
  | _ => False
  end.
Proof.
  intros Hls Hsame. rewrite create_hebbian_trainer_run.
  destruct (for_each _ _ _) as [[[]|e'] s2] eqn:Hloop; [done|].
  intros [= <- <-].
  apply for_each_update_raise_kind in Hloop
    as [->|[[msg ->]|(n & d & -> & Hn & -> & Hd)]]; [done|done| |].
  - split; [done|]. by exists d.
  - cbn [model]. rewrite Hls. eapply Forall_impl; [apply trainable_layers_refer|].
    intros r. by apply refers_to_same.
Qed.

Lemma __init___run (lr : RuleArg R) (opt : O) supervised_from freeze_layers s :
  ∃ s', __init__ lr opt supervised_from freeze_layers s
        = (Ok (mkHebbianTrainer supervised_from (default [] freeze_layers)
                 (trainable_layers (model s) supervised_from (default [] freeze_layers))
                 lr), s').
Proof.
  unfold __init__, emit. destruct lr as [r|d].
  - unfold call_init_layers, emit, set_model. run_monad. by eexists.
  - run_monad. rewrite for_each_init_layers. by eexists.
Qed.

(** X16.  When the cutoff, read as the slice reads it, is at or below 0,
    as it is for [supervised_from = 0] and for the default -1 on a model with
    a single child, the constructor returns a trainer without records, and
    every per-batch update of that trainer puts the model in training mode,
    asks no rule, hands nothing to the optimizer, logs nothing and returns
    what [output_transform] makes of the prepared batch. *)
Theorem update_without_records {Out} (lr0 lr : RuleArg R) (opt : O)
    supervised_from freeze_layers s0 self
    (pb : Tensor elt * Tensor elt → Tensor elt * Tensor elt)
    (ot : Tensor elt → Tensor elt → Out) batch s :
  scan_cutoff (length (model s0)) supervised_from ≤ 0 →
  (__init__ lr0 opt supervised_from freeze_layers s0).1 = Ok self →
  layers self = []
  ∧ create_hebbian_trainer self lr opt pb ot batch s
    = (Ok (ot (pb batch).1 (pb batch).2), mkWorld (model s) true (trace s)).
Proof.
  intros Hcut Hinit.
  destruct (__init___run lr0 opt supervised_from freeze_layers s0) as [s1 Hrun].
  rewrite Hrun in Hinit. injection Hinit as <-. cbn [layers].
  assert (trainable_layers (model s0) supervised_from (default [] freeze_layers) = [])
    as Hnone.
  { rewrite trainable_layers_take.
    replace (Z.to_nat (scan_cutoff (length (model s0)) supervised_from)) with 0%nat
      by lia. done. }
  split; [done|]. rewrite create_hebbian_trainer_run. cbn [layers].
  by rewrite Hnone.
Qed.

End UpdateMore.

(** [update_success_accounting] on the two dense layers. *)
Lemma update_success_accounting_witness :
  _update (Toy.trainer2 (SingleRule 5)) (SingleRule 5) tt Toy.batch1
    (Toy.world0 Toy.two_dense) = (Ok 0, Toy.after_fc2 5)
  ∧ ∃ evs : list (Event Z Z),
      trace (Toy.after_fc2 5) = [] ++ evs
      ∧ (steps_of evs).*2 = ["fc1"%string; "fc2"%string].
Proof.
  split; [reflexivity|].
  destruct (update_success_accounting (Toy.trainer2 (SingleRule 5)) (SingleRule 5) tt
              prepare_batch (λ _ _, 0) Toy.batch1 (Toy.world0 Toy.two_dense)
              0 (Toy.after_fc2 5))
    as (_ & _ & evs & Ht & Hn & _); [reflexivity|].
  exists evs. split; [exact Ht|exact Hn].
Defined.

(** [update_failure_keeps_earlier_steps] where [fc2] has no rule: the step
    of [fc1] stays. *)
Lemma update_failure_keeps_earlier_steps_witness :
  _update (Toy.trainer2 Toy.fc1_only) Toy.fc1_only tt Toy.batch1
    (Toy.world0 Toy.two_dense)
  = (Raise (KeyError "fc2"),
     mkWorld (model (Toy.reached_fc2 5)) true
       (trace (Toy.reached_fc2 5) ++ [Logging ERROR (No_learning_rule "fc2")]))
  ∧ ∃ (evs : list (Event Z Z)) pre lyr post,
      [mkLayer 0 "fc1" 0; mkLayer 1 "fc2" 1] = pre ++ lyr :: post
      ∧ (steps_of evs).*2 = name <$> pre
      ∧ model (Toy.reached_fc2 5) = apply_steps tt (steps_of evs) Toy.two_dense.
Proof.
  split; [reflexivity|].
  destruct (update_failure_keeps_earlier_steps (Toy.trainer2 Toy.fc1_only)
              Toy.fc1_only tt prepare_batch (λ _ _, 0) Toy.batch1
              (Toy.world0 Toy.two_dense) (KeyError "fc2")
              (mkWorld (model (Toy.reached_fc2 5)) true
                 (trace (Toy.reached_fc2 5) ++ [Logging ERROR (No_learning_rule "fc2")])))
    as (_ & evs & pre & lyr & post & Hls & _ & Hn & Hm); [reflexivity|].
  exists evs, pre, lyr, post. split; [exact Hls|]. split; [exact Hn|exact Hm].
Defined.

(** [update_steps_only_records]: with a record for [fc1] only, every step
    is for [fc1]. *)
Lemma update_steps_only_records_witness :
  _update (mkHebbianTrainer 1 [] [mkLayer 0 "fc1" 0] (SingleRule 5)) (SingleRule 5) tt
    Toy.batch1 (Toy.world0 Toy.two_dense) = (Ok 0, Toy.after_fc1 5)
  ∧ ∃ evs : list (Event Z Z),
      trace (Toy.after_fc1 5) = [] ++ evs
      ∧ ∀ d_p n, Optimizer_local_step d_p n ∈ evs → n ∈ ["fc1"%string].
Proof.
  split; [reflexivity|].
  apply (update_steps_only_records
           (mkHebbianTrainer 1 [] [mkLayer 0 "fc1" 0] (SingleRule 5)) (SingleRule 5) tt
           prepare_batch (λ _ _, 0) Toy.batch1 (Toy.world0 Toy.two_dense)
           (Ok 0) (Toy.after_fc1 5)).
  reflexivity.
Defined.

(** [update_never_steps_unregistered]: with the cutoff 1, [fc2] is left to
    supervised training and no step is asked for it. *)
Lemma update_never_steps_unregistered_witness :
  [mkLayer 0 "fc1" 0] = trainable_layers Toy.two_dense 1 []
  ∧ scan_cutoff (length Toy.two_dense) 1 ≤ 1
  ∧ ∃ evs : list (Event Z Z),
      trace (Toy.after_fc1 5) = [] ++ evs
      ∧ ∀ d_p, Optimizer_local_step d_p "fc2" ∉ evs.
Proof.
  split; [reflexivity|]. split; [done|].
  apply (update_never_steps_unregistered
           (mkHebbianTrainer 1 [] [mkLayer 0 "fc1" 0] (SingleRule 5)) (SingleRule 5) tt
           prepare_batch (λ _ _, 0) Toy.batch1 (Toy.world0 Toy.two_dense)
           (Ok 0) (Toy.after_fc1 5) 1 [] 1 "fc2" (Linear (mkTensor [1; 1] [3]) None)).
  - reflexivity.
  - apply NoDup_cons. split; [|apply NoDup_singleton].
    intros H%list_elem_of_singleton. discriminate H.
  - reflexivity.
  - right. right. done.
  - reflexivity.
Defined.

(** [update_error_kinds] where [fc2] has no rule. *)
Lemma update_error_kinds_witness :
  layers (Toy.trainer2 Toy.fc1_only) = trainable_layers Toy.two_dense 2 []
  ∧ "fc2"%string ∈ name <$> layers (Toy.trainer2 Toy.fc1_only)
  ∧ ∃ d, Toy.fc1_only = RuleDict d ∧ dict_lookup d "fc2" = None.
Proof.
  split; [reflexivity|].
  apply (update_error_kinds (Toy.trainer2 Toy.fc1_only) Toy.fc1_only tt
           prepare_batch (λ _ _, 0) Toy.batch1 Toy.two_dense 2 []
           (Toy.world0 Toy.two_dense) (KeyError "fc2")
           (mkWorld (model (Toy.reached_fc2 5)) true
              (trace (Toy.reached_fc2 5) ++ [Logging ERROR (No_learning_rule "fc2")]))).
  - reflexivity.
  - apply Forall_Forall2_diag. repeat constructor; by eexists.
  - reflexivity.
Defined.

(** [update_without_records]: the default cutoff on the one-layer dense
    model. *)
Lemma update_without_records_witness :
  scan_cutoff (length Toy.dense43) (-1) ≤ 0
  ∧ (__init__ (SingleRule 5) tt (-1) None (Toy.world0 Toy.dense43)).1
    = Ok (mkHebbianTrainer (-1) [] [] (SingleRule 5))
  ∧ _update (mkHebbianTrainer (-1) [] [] (SingleRule 5)) (SingleRule 5) tt
      Toy.batch1 (Toy.world0 Toy.dense43)
    = (Ok 0, mkWorld Toy.dense43 true []).
Proof.
  split; [done|]. split; [reflexivity|].
  apply (update_without_records (SingleRule 5) (SingleRule 5) tt (-1) None
           (Toy.world0 Toy.dense43) (mkHebbianTrainer (-1) [] [] (SingleRule 5))
           prepare_batch (λ _ _, 0) Toy.batch1 (Toy.world0 Toy.dense43));
    [done|reflexivity].
Defined.

(** ** The engine, continued *)

Section EngineMore.
Import Engine EngineSpec.
Context {elt R O G : Type}.
Context `{!Collaborators elt R O G}.
Implicit Types (s : World elt R O G) (evs : list (Event elt R)) (m : Model elt).

Lemma children_same_refl m : Forall2 same_but_weight m m.
Proof. apply Forall_Forall2_diag, Forall_forall. intros c _. apply same_but_weight_refl. Qed.

Lemma children_same_trans m1 m2 m3 :
  Forall2 same_but_weight m1 m2 → Forall2 same_but_weight m2 m3 →
  Forall2 same_but_weight m1 m3.
Proof. apply Forall2_trans, same_but_weight_trans. Qed.

Lemma weighted_same m m' : Forall2 same_but_weight m m' → weighted m' = weighted m.
Proof.
  induction 1 as [|c c' m m' [Hn [w Hw]] _ IH]; [done|].
  unfold weighted in *. rewrite !fmap_cons, IH. f_equal.
  rewrite Hw. apply weighted_set_weight.
Qed.

Lemma imap_children_same (f : nat → string * Module elt → string * Module elt) m :
  (∀ i c, same_but_weight c (f i c)) → Forall2 same_but_weight m (imap f m).
Proof.
  revert f. induction m as [|c m IH]; intros f Hf; [constructor|].
  rewrite imap_cons. constructor; [apply Hf|]. apply IH. intros i c'. apply Hf.
Qed.

Lemma engine_local_step_same (o : O) d_p m :
  Forall2 same_but_weight m (local_step o d_p m).
Proof.
  apply imap_children_same. intros i c.
  destruct (get_weight c.2); [|apply same_but_weight_refl].
  split; [done|]. by eexists.
Qed.

(** Drawing the weights afresh changes the weights of [Linear] children
    and nothing else. *)
Lemma reinit_children (g : G) m :
  Forall2 (λ c c', same_but_weight c c' ∧ ((∀ w b, c.2 ≠ Linear w b) → c' = c))
    m (reinit g m).1.
Proof.
  revert g. induction m as [|[n [w b|w b ks st pd dl|cls ow]] m IH]; intros g;
    cbn [reinit]; [constructor| | |].
  - destruct (normal_ g w) as [w' g']. specialize (IH g').
    destruct (reinit g' m) as [m'' g'']. cbn [fst] in *. constructor; [|done].
    split; [|intros Hn; by destruct (Hn w b)]. split; [done|]. by exists w'.
  - specialize (IH g). destruct (reinit g m) as [m'' g'']. cbn [fst] in *.
    constructor; [|done]. split; [apply same_but_weight_refl|done].
  - specialize (IH g). destruct (reinit g m) as [m'' g'']. cbn [fst] in *.
    constructor; [|done]. split; [apply same_but_weight_refl|done].
Qed.

Lemma reinit_same (g : G) m : Forall2 same_but_weight m (reinit g m).1.
Proof. eapply Forall2_impl; [apply reinit_children|]. by intros c c' [? _]. Qed.

Lemma reinit_without_linear (g : G) m :
  (∀ (j : nat) n w b, m !! j ≠ Some (n, Linear w b)) →
  reinit g m = (m, g) ∧ last_linear m = None ∧ init_logs 0 g m = [].
Proof.
  intros Hno. unfold last_linear. generalize 0%nat. generalize (@None Ref).
  revert g. induction m as [|[n [w b|w b ks st pd dl|cls ow]] m IH];
    intros g found k; cbn [reinit last_linear_from init_logs]; [done| | |].
  - by destruct (Hno 0%nat n w b).
  - destruct (IH (λ j, Hno (S j)) g found (S k)) as (-> & -> & ->). done.
  - destruct (IH (λ j, Hno (S j)) g found (S k)) as (-> & -> & ->). done.
Qed.

(** *** What a batch, an epoch and the loops do to the world *)

Lemma train_batch_effects (self : HebbianEngine R) wnp data s :
  let s' := (train_batch self wnp data s).2 in
  Forall2 same_but_weight (model s) (model s') ∧ generator s' = generator s
  ∧ optimizer s' = optimizer s.
Proof.
  destruct data as [inputs labels]. cbv zeta.
  unfold train_batch, read_np, emit, set_model. run_monad.
  destruct (label_counts labels) as [[]|e]; [|by split; [apply children_same_refl|]].
  destruct (py_getitem (shape inputs) 0) as [n|e];
    [|by split; [apply children_same_refl|]].
  destruct (np_reshape _ _) as [x|e]; [|by split; [apply children_same_refl|]].
  destruct (array_of (model s) wnp) as [weights|e];
    [|by split; [apply children_same_refl|]].
  cbn. split; [apply engine_local_step_same|done].
Qed.

Lemma train_batches_effects (self : HebbianEngine R) wnp bs s :
  let s' := (for_each bs (train_batch self wnp) s).2 in
  Forall2 same_but_weight (model s) (model s') ∧ generator s' = generator s
  ∧ optimizer s' = optimizer s.
Proof.
  cbv zeta. revert s. induction bs as [|b bs IH]; intros s.
  - cbn. split; [apply children_same_refl|done].
  - cbn [for_each]. rewrite bind_run.
    pose proof (train_batch_effects self wnp b s) as Hb. cbv zeta in Hb.
    destruct (train_batch self wnp b s) as [[[]|e] s1]; cbn [snd] in *; [|exact Hb].
    destruct (IH s1) as (H1 & H2 & H3). destruct Hb as (Hb1 & Hb2 & Hb3).
    split; [by eapply children_same_trans|]. split; congruence.
Qed.

Lemma train_epoch_effects (self : HebbianEngine R) dl wnp input_shape epoch s res s' :
  train_epoch self dl wnp input_shape epoch s = (res, s') →
  Forall2 same_but_weight (model s) (model s') ∧ generator s' = generator s
  ∧ (∀ u, res = Ok u → optimizer s' = scheduler_step (optimizer s)).
Proof.
  unfold train_epoch. rewrite bind_run. cbn [gets].
  rewrite bind_run. unfold emit at 1. cbn [modify]. rewrite bind_run.
  set (s1 := mkWorld (model s) (generator s) (optimizer s) _).
  pose proof (train_batches_effects self wnp (batches dl) s1) as Hb. cbv zeta in Hb.
  destruct (for_each _ _ s1) as [[[]|e] s2]; cbn [snd model generator optimizer s1] in Hb;
    destruct Hb as (Hb1 & Hb2 & Hb3).
  2:{ intros [= <- <-]. by repeat split. }
  unfold emit, set_optimizer, read_np. run_monad.
  destruct (visualize_weights self).
  - cbn [model]. destruct (array_of (model s2) wnp) as [weights|e]; intros [= <- <-]; cbn;
      repeat split; try done. intros; congruence.
  - intros [= <- <-]. cbn. repeat split; try done. intros; congruence.
Qed.

Lemma train_epochs_effects (self : HebbianEngine R) dl wnp input_shape
    (epochs : list nat) s res s' :
  for_each epochs (train_epoch self dl wnp input_shape) s = (res, s') →
  Forall2 same_but_weight (model s) (model s') ∧ generator s' = generator s
  ∧ (∀ u, res = Ok u →
       optimizer s' = Nat.iter (length epochs) scheduler_step (optimizer s)).
Proof.
  revert s. induction epochs as [|ep epochs IH]; intros s.
  - intros [= <- <-]. split; [apply children_same_refl|done].
  - cbn [for_each]. rewrite bind_run.
    destruct (train_epoch self dl wnp input_shape ep s) as [[[]|e] s1] eqn:Hrun;
      apply train_epoch_effects in Hrun as (He1 & He2 & He3).
    + intros Hrest. apply IH in Hrest as (H1 & H2 & H3).
      split; [by eapply children_same_trans|]. split; [congruence|].
      intros u Hu. rewrite (H3 u Hu), (He3 tt eq_refl). cbn [length].
      by rewrite Nat.iter_succ_r.
    + intros [= <- <-]. by repeat split.
Qed.

(** *** The ways the loops fail *)

Lemma label_counts_raise (data : Tensor elt * Tensor elt) e :
  label_counts data.2 = Raise e →
  match e with
  | TypeError _ | ValueError _ => ¬ flat_labels data
  | _ => False
  end.
Proof.
  unfold label_counts, flat_labels.
  destruct (shape data.2) as [|n rest] eqn:Hs.
  - intros [= <-]. by intros [k Hk].
  - destruct (_ && _) eqn:E; [|done]. intros [= <-]. intros [k [= -> ->]].
    cbn in E. by rewrite andb_false_r in E.
Qed.

Lemma train_batch_raise (self : HebbianEngine R) wnp data s e s' :
  readable (weighted (model s)) wnp →
  train_batch self wnp data s = (Raise e, s') →
  match e with
  | IndexError => ¬ reshapable data
  | ValueError _ => ¬ reshapable data ∨ ¬ flat_labels data
  | TypeError _ => ¬ flat_labels data
  | _ => False
  end.
Proof.
  intros Hr. apply array_of_readable in Hr as [a Ha].
  pose proof (label_counts_raise data) as Hlc.
  destruct data as [inputs labels]. cbn [snd] in Hlc.
  unfold train_batch, read_np, emit, set_model. run_monad.
  destruct (label_counts labels) as [[]|e0].
  2:{ intros [= <- <-]. specialize (Hlc e0 eq_refl).
      destruct e0; try done. by right. }
  clear Hlc.
  destruct (py_getitem (shape inputs) 0) as [n|e0] eqn:Hn.
  2:{ intros [= <- <-]. pose proof Hn as Hn'.
      apply py_getitem_raise in Hn' as [-> _].
      intros (n & x & Hok & _). cbn [fst] in Hok. congruence. }
  destruct (np_reshape _ _) as [x|e0] eqn:Hx.
  2:{ intros [= <- <-].
      assert (¬ reshapable (inputs, labels)) as Hnot.
      { intros (n' & x & Hn' & Hx'). cbn [fst] in *. congruence. }
      unfold np_reshape in Hx. destruct (infer_size _ _); [done|].
      injection Hx as <-. by left. }
  by rewrite Ha.
Qed.

Lemma train_batches_raise (self : HebbianEngine R) wnp bs s e s' :
  readable (weighted (model s)) wnp →
  for_each bs (train_batch self wnp) s = (Raise e, s') →
  ∃ b, b ∈ bs ∧
    match e with
    | IndexError => ¬ reshapable b
    | ValueError _ => ¬ reshapable b ∨ ¬ flat_labels b
    | TypeError _ => ¬ flat_labels b
    | _ => False
    end.
Proof.
  revert s. induction bs as [|b bs IH]; intros s Hr; [done|].
  cbn [for_each]. rewrite bind_run.
  pose proof (train_batch_effects self wnp b s) as Hb. cbv zeta in Hb.
  destruct (train_batch self wnp b s) as [[[]|e0] s1] eqn:Hrun; cbn [snd] in Hb.
  - intros Hrest. destruct Hb as (Hb & _).
    apply IH in Hrest as (b' & Hin & Hb'); [|by rewrite (weighted_same _ _ Hb)].
    exists b'. split; [by right|done].
  - intros [= <- <-]. apply train_batch_raise in Hrun; [|done].
    exists b. split; [by left|done].
Qed.

Lemma train_epoch_raise (self : HebbianEngine R) dl wnp input_shape epoch s e s' :
  readable (weighted (model s)) wnp →
  train_epoch self dl wnp input_shape epoch s = (Raise e, s') →
  ∃ b, b ∈ batches dl ∧
    match e with
    | IndexError => ¬ reshapable b
    | ValueError _ => ¬ reshapable b ∨ ¬ flat_labels b
    | TypeError _ => ¬ flat_labels b
    | _ => False
    end.
Proof.
  intros Hr. unfold train_epoch. rewrite bind_run. cbn [gets].
  rewrite bind_run. unfold emit at 1. cbn [modify]. rewrite bind_run.
  set (s1 := mkWorld (model s) (generator s) (optimizer s) _).
  pose proof (train_batches_effects self wnp (batches dl) s1) as Hb. cbv zeta in Hb.
  destruct (for_each _ _ s1) as [[[]|e0] s2] eqn:Hloop; cbn [snd model s1] in Hb.
  - destruct Hb as (Hb & _).
    assert (readable (weighted (model s2)) wnp) as Hr2
      by (by rewrite (weighted_same _ _ Hb)).
    apply array_of_readable in Hr2 as [a Ha].
    unfold emit, set_optimizer, read_np. run_monad.
    destruct (visualize_weights self); [|done].
    cbn [model generator optimizer trace]. by rewrite Ha.
  - intros [= <- <-]. by apply train_batches_raise in Hloop.
Qed.

Lemma train_epochs_raise (self : HebbianEngine R) dl wnp input_shape
    (epochs : list nat) s e s' :
  readable (weighted (model s)) wnp →
  for_each epochs (train_epoch self dl wnp input_shape) s = (Raise e, s') →
  ∃ b, b ∈ batches dl ∧
    match e with
    | IndexError => ¬ reshapable b
    | ValueError _ => ¬ reshapable b ∨ ¬ flat_labels b
    | TypeError _ => ¬ flat_labels b
    | _ => False
    end.
Proof.
  revert s. induction epochs as [|ep epochs IH]; intros s Hr; [done|].
  cbn [for_each]. rewrite bind_run.
  destruct (train_epoch self dl wnp input_shape ep s) as [[[]|e0] s1] eqn:Hrun.
  - intros Hrest. apply train_epoch_effects in Hrun as (He & _).
    apply IH in Hrest; [done|]. by rewrite (weighted_same _ _ He).
  - intros [= <- <-]. by apply train_epoch_raise in Hrun.
Qed.

Lemma all_weights_raise m e :
  all_weights (children m) = Raise e →
  e = AttributeError "weight" ∧ ¬ Forall (eq true) (weighted m).
Proof.
  intros Hraise. split.
  - revert Hraise. induction m as [|c m IH]; [done|]. cbn.
    destruct (get_weight c.2) as [w|e0] eqn:Hw.
    + destruct (all_weights (map snd m)) as [ws'|e0] eqn:Hws; [done|].
      intros [= <-]. by apply IH.
    + intros [= <-]. by destruct (c.2) as [| |? [|]]; simplify_eq/=.
  - intros Hall. apply all_weights_weighted in Hall as [ws Hws]. congruence.
Qed.

(** *** The steps of the optimizer and of the scheduler *)

Lemma beats_app evs1 evs2 : beats (evs1 ++ evs2) = beats evs1 ++ beats evs2.
Proof. apply omap_app. Qed.

Lemma beats_quiet evs : Forall quiet evs → beats evs = [].
Proof.
  induction 1 as [|e evs He _ IH]; [done|].
  unfold beats in *. destruct e; try done; cbn; by rewrite IH.
Qed.

Lemma train_batch_beats (self : HebbianEngine R) wnp data s s' :
  train_batch self wnp data s = (Ok tt, s') →
  ∃ evs, trace s' = trace s ++ evs ∧ beats evs = [Optimizer_beat].
Proof.
  destruct data as [inputs labels].
  unfold train_batch, read_np, emit, set_model. run_monad.
  destruct (label_counts labels) as [[]|e]; [|done].
  destruct (py_getitem (shape inputs) 0) as [n|e]; [|done].
  destruct (np_reshape _ _) as [x|e]; [|done].
  destruct (array_of (model s) wnp) as [weights|e]; [|done].
  intros [= <-]. eexists [_; _; _]. cbn. by rewrite <- !app_assoc.
Qed.

Lemma train_batches_beats (self : HebbianEngine R) wnp bs s s' :
  for_each bs (train_batch self wnp) s = (Ok tt, s') →
  ∃ evs, trace s' = trace s ++ evs ∧ beats evs = replicate (length bs) Optimizer_beat.
Proof.
  revert s. induction bs as [|b bs IH]; intros s.
  - intros [= <-]. exists []. by rewrite app_nil_r.
  - intros H. apply for_each_ok_cons in H as (s1 & Hb & Hbs).
    apply train_batch_beats in Hb as (evs1 & Ht1 & Hb1).
    apply IH in Hbs as (evs2 & Ht2 & Hb2).
    exists (evs1 ++ evs2). split; [by rewrite Ht2, Ht1, app_assoc|].
    by rewrite beats_app, Hb1, Hb2.
Qed.

Lemma train_epoch_beats (self : HebbianEngine R) dl wnp input_shape epoch s s' :
  train_epoch self dl wnp input_shape epoch s = (Ok tt, s') →
  ∃ evs, trace s' = trace s ++ evs
    ∧ beats evs = replicate (length (batches dl)) Optimizer_beat ++ [Scheduler_beat].
Proof.
  unfold train_epoch. rewrite bind_run. cbn [gets].
  rewrite bind_run. unfold emit at 1. cbn [modify]. rewrite bind_run.
  set (s1 := mkWorld (model s) (generator s) (optimizer s) _).
  destruct (for_each _ _ s1) as [[[]|e] s2] eqn:Hloop; [|done].
  apply train_batches_beats in Hloop as (evs & Ht & Hb). cbn [trace s1] in Ht.
  unfold emit, set_optimizer, read_np. run_monad.
  destruct (visualize_weights self).
  - cbn [model]. destruct (array_of (model s2) wnp) as [weights|e]; [|done].
    intros [= <-]. cbn [trace]. rewrite Ht.
    eexists (_ :: evs ++ [_; _]). split; [by rewrite <- !app_assoc|].
    change (?e :: evs ++ ?l) with ([e] ++ evs ++ l).
    by rewrite !beats_app, Hb.
  - intros [= <-]. cbn [trace]. rewrite Ht.
    eexists (_ :: evs ++ [_]). split; [by rewrite <- !app_assoc|].
    change (?e :: evs ++ ?l) with ([e] ++ evs ++ l).
    by rewrite !beats_app, Hb.
Qed.

Lemma train_epochs_beats (self : HebbianEngine R) dl wnp input_shape
    (epochs : list nat) s s' :
  for_each epochs (train_epoch self dl wnp input_shape) s = (Ok tt, s') →
  ∃ evs, trace s' = trace s ++ evs
    ∧ beats evs
      = concat (replicate (length epochs)
                  (replicate (length (batches dl)) Optimizer_beat ++ [Scheduler_beat])).
Proof.
  revert s. induction epochs as [|ep epochs IH]; intros s.
  - intros [= <-]. exists []. by rewrite app_nil_r.
  - intros H. apply for_each_ok_cons in H as (s1 & Hep & Heps).
    apply train_epoch_beats in Hep as (evs1 & Ht1 & Hb1).
    apply IH in Heps as (evs2 & Ht2 & Hb2).
    exists (evs1 ++ evs2). split; [by rewrite Ht2, Ht1, app_assoc|].
    rewrite beats_app, Hb1, Hb2. done.
Qed.

(** *** [train] in stages *)

(** With a loader that yields a batch, [train] draws the weights, shows
    them when asked to, runs the epochs and, when they go through, closes
    the figure and collects the weights. *)
Lemma train_stages (self : HebbianEngine R) dl epochs s first bs :
  batches dl = first :: bs →
  let input_shape := py_slice_from (shape first.1) 2 in
  let wnp := last_linear (model s) in
  ∃ vis, Forall quiet vis ∧
    let s3 := mkWorld (reinit (generator s) (model s)).1
                (reinit (generator s) (model s)).2 (optimizer s)
                (trace s ++ Logging INFO (Received_samples (dataset_len dl) input_shape)
                            :: init_logs 0 (generator s) (model s) ++ vis) in
    train self dl epochs s
    = match for_each (seq 0 (Z.to_nat epochs))
              (train_epoch self dl wnp input_shape) s3 with
      | (Ok _, s4) =>
          (all_weights (children (model s4)),
           mkWorld (model s4) (generator s4) (optimizer s4)
             (trace s4 ++ [Pyplot "ioff"; Pyplot "close"]))
      | (Raise e, s4) => (Raise e, s4)
      end.
Proof.
  intros Hb. cbv zeta. unfold train. rewrite bind_run, Hb.
  cbn [mret M_ret]. rewrite bind_run. unfold emit at 1. cbn [modify].
  rewrite bind_run. cbn [gets model]. rewrite bind_run.
  set (s1 := mkWorld (model s) (generator s) (optimizer s) _).
  pose proof (init_children (model s) [] None s1 eq_refl) as Hinit.
  cbn [length app] in Hinit. rewrite Hinit. clear Hinit.
  cbn [length app model generator optimizer trace s1]. fold (last_linear (model s)).
  assert (readable (weighted (reinit (generator s) (model s)).1) (last_linear (model s)))
    as Hr by (rewrite weighted_reinit; apply last_linear_readable).
  apply array_of_readable in Hr as [a Ha].
  set (wnp := last_linear (model s)) in *.
  set (input_shape := py_slice_from _ _).
  set (m2 := (reinit (generator s) (model s)).1) in *.
  set (g2 := (reinit (generator s) (model s)).2).
  set (logs := init_logs 0 (generator s) (model s)).
  clearbody wnp input_shape m2 g2 logs. clear s1.
  assert (∀ s3,
    (for_each (seq 0 (Z.to_nat epochs)) (train_epoch self dl wnp input_shape);;
     emit (Pyplot "ioff");; emit (Pyplot "close");;
     m ← gets model; lift (all_weights (children m))) s3
    = match for_each (seq 0 (Z.to_nat epochs))
              (train_epoch self dl wnp input_shape) s3 with
      | (Ok _, s4) =>
          (all_weights (children (model s4)),
           mkWorld (model s4) (generator s4) (optimizer s4)
             (trace s4 ++ [Pyplot "ioff"; Pyplot "close"]))
      | (Raise e, s4) => (Raise e, s4)
      end) as Hrest.
  { intros s3. rewrite bind_run.
    destruct (for_each _ _ s3) as [[[]|e] s4]; [|done].
    unfold emit. run_monad. by rewrite <- app_assoc. }
  rewrite bind_run. destruct (visualize_weights self).
  - exists [Pyplot "ion"; Pyplot "figure"; Draw_weights_update a input_shape].
    split; [by repeat constructor|].
    unfold emit at 1 2 3, read_np. run_monad. rewrite Ha.
    rewrite Hrest. by rewrite <- !app_assoc.
  - exists []. split; [constructor|]. cbn [mret M_ret].
    rewrite Hrest. by rewrite <- !app_assoc, app_nil_r.
Qed.

Lemma all_weights_ok_weighted m ws :
  all_weights (children m) = Ok ws → Forall (eq true) (weighted m).
Proof.
  intros Hws. apply all_weights_ok in Hws. unfold weighted. apply Forall_fmap.
  induction Hws as [|c w m ws Hc _ IH]; constructor; [|done].
  cbn. unfold has_weight. by rewrite Hc.
Qed.

Lemma updates_read_none rule (st : Model elt * O) evs r inputs weights :
  updates_read None rule st evs →
  Rule_update r inputs weights ∈ evs → weights = None.
Proof.
  revert st. induction evs as [|e evs IH]; intros st; [by intros _ ?%elem_of_nil|].
  cbn [updates_read]. intros [He Hrest] [<-|Hin]%elem_of_cons.
  - destruct He as (_ & Harr & _). cbn in Harr. congruence.
  - by eapply IH.
Qed.

Lemma quiet_not_update evs r inputs weights :
  Forall quiet evs → Rule_update r inputs weights ∉ evs.
Proof.
  intros Hq Hin. eapply Forall_forall in Hq; [|exact Hin]. done.
Qed.

(** X17.  [train] raises [StopIteration] exactly when the loader yields no
    batch, and it then has touched nothing: no weight is drawn and nothing
    is logged. *)
Theorem train_stops_on_empty_loader (self : HebbianEngine R) dl epochs s :
  (batches dl = [] → train self dl epochs s = (Raise StopIteration, s))
  ∧ ((train self dl epochs s).1 = Raise StopIteration → batches dl = []).
Proof.
  split.
  - intros Hb. unfold train. by rewrite bind_run, Hb.
  - destruct (batches dl) as [|first bs] eqn:Hb; [done|].
    destruct (train_stages self dl epochs s first bs Hb) as (vis & Hq & ->).
    set (s3 := mkWorld _ _ _ _).
    assert (readable (weighted (model s3)) (last_linear (model s))) as Hr.
    { cbn [model s3]. rewrite weighted_reinit. apply last_linear_readable. }
    destruct (for_each _ _ s3) as [[[]|e0] s4] eqn:Hloop; cbn [fst].
    + intros Hall. by apply all_weights_raise in Hall as [? _].
    + intros [= ->]. by apply train_epochs_raise in Hloop as (b & _ & ?).
Qed.

(** X18.  The ways [train] fails, the calls into the rule, the optimizer,
    the scheduler and the drawing of the weights being taken to return:
    [StopIteration] for a loader without a batch, before anything is done;
    [IndexError] only when the inputs of some batch cannot be brought to two
    dimensions; [ValueError] only when some batch has such inputs or labels
    that are not of one dimension; [TypeError] only when some batch has
    labels that are not of one dimension; [AttributeError] only when some
    child of the model has no weight.  Nothing else is raised. *)
Theorem train_failure_causes (self : HebbianEngine R) dl epochs s e s' :
  train self dl epochs s = (Raise e, s') →
  match e with
  | StopIteration => batches dl = [] ∧ s' = s
  | IndexError => ∃ b, b ∈ batches dl ∧ ¬ reshapable b
  | ValueError _ => ∃ b, b ∈ batches dl ∧ (¬ reshapable b ∨ ¬ flat_labels b)
  | TypeError _ => ∃ b, b ∈ batches dl ∧ ¬ flat_labels b
  | AttributeError _ => ¬ Forall (eq true) (weighted (model s))
  | _ => False
  end.
Proof.
  destruct (batches dl) as [|first bs] eqn:Hb.
  - unfold train. rewrite bind_run, Hb. by intros [= <- <-].
  - destruct (train_stages self dl epochs s first bs Hb) as (vis & Hq & ->).
    set (s3 := mkWorld _ _ _ _).
    destruct (for_each _ _ s3) as [[[]|e0] s4] eqn:Hloop.
    + intros [= Hall <-].
      apply train_epochs_effects in Hloop as (Hsame & _).
      apply all_weights_raise in Hall as [-> Hnot].
      rewrite (weighted_same _ _ Hsame) in Hnot. cbn [model s3] in Hnot.
      by rewrite weighted_reinit in Hnot.
    + intros [= <- <-].
      apply train_epochs_raise in Hloop as (b & Hin & Hcause).
      * rewrite Hb in Hin. destruct e0; try done; by exists b.
      * cbn [model s3]. rewrite weighted_reinit. apply last_linear_readable.
Qed.

(** X19.  When [train] returns, every child of the model it was given has
    a weight, and the list returned holds the weight of every child of the
    model as it is left, one per child, in the order of the children. *)
Theorem train_returns_one_weight_per_child (self : HebbianEngine R) dl epochs s ws s' :
  train self dl epochs s = (Ok ws, s') →
  Forall (eq true) (weighted (model s))
  ∧ Forall2 (λ (c : string * Module elt) w, get_weight c.2 = Ok w) (model s') ws
  ∧ length ws = length (model s).
Proof.
  destruct (batches dl) as [|first bs] eqn:Hb.
  { unfold train. by rewrite bind_run, Hb. }
  destruct (train_stages self dl epochs s first bs Hb) as (vis & Hq & ->).
  set (s3 := mkWorld _ _ _ _).
  destruct (for_each _ _ s3) as [[[]|e0] s4] eqn:Hloop; [|done].
  intros [= Hall <-]. cbn [model].
  apply train_epochs_effects in Hloop as (Hsame & _). cbn [model s3] in Hsame.
  pose proof (children_same_trans _ _ _ (reinit_same (generator s) (model s)) Hsame)
    as Hsame'.
  split; [|split].
  - rewrite <- (weighted_same _ _ Hsame'). by eapply all_weights_ok_weighted.
  - by apply all_weights_ok.
  - apply all_weights_ok, Forall2_length in Hall.
    apply Forall2_length in Hsame'. congruence.
Qed.


(** X21.  When [train] returns, the steps of the optimizer and of the
    scheduler have come in this order: in every epoch one optimizer step per
    batch of the loader, then one scheduler step; the optimizer is left as
    that many scheduler steps leave it. *)
Theorem train_steps_scheduler_once_per_epoch (self : HebbianEngine R) dl epochs s ws s' :
  train self dl epochs s = (Ok ws, s') →
  optimizer s' = Nat.iter (Z.to_nat epochs) scheduler_step (optimizer s)
  ∧ ∃ evs, trace s' = trace s ++ evs
      ∧ beats evs
        = concat (replicate (Z.to_nat epochs)
                    (replicate (length (batches dl)) Optimizer_beat ++ [Scheduler_beat])).
Proof.
  destruct (batches dl) as [|first bs] eqn:Hb.
  { unfold train. by rewrite bind_run, Hb. }
  destruct (train_stages self dl epochs s first bs Hb) as (vis & Hq & ->).
  rewrite <- Hb.
  set (s3 := mkWorld _ _ _ _).
  destruct (for_each _ _ s3) as [[[]|e0] s4] eqn:Hloop; [|done].
  intros [= Hall <-]. cbn [optimizer trace]. split.
  - apply train_epochs_effects in Hloop as (_ & _ & Hopt).
    rewrite (Hopt tt eq_refl), length_seq. done.
  - apply train_epochs_beats in Hloop as (evs & Ht & Hbeats).
    rewrite length_seq in Hbeats. cbn [trace s3] in Ht. rewrite Ht.
    eexists. split; [rewrite <- !app_assoc; reflexivity|].
    assert (Forall quiet (Logging INFO (Received_samples (dataset_len dl)
                                          (py_slice_from (shape first.1) 2))
                          :: init_logs 0 (generator s) (model s) ++ vis)) as Hq'.
    { constructor; [done|]. apply Forall_app. split; [apply init_logs_quiet|done]. }
    rewrite !beats_app, (beats_quiet _ Hq'), Hbeats. cbn. by rewrite app_nil_r.
Qed.

(** X22.  With [epochs] at or below 0, a loader that yields a batch and a
    model whose children all have a weight, [train] returns; no rule is asked
    and neither the optimizer nor the scheduler is stepped, yet the weights
    of the [Linear] children have been drawn afresh, and they are what is
    returned. *)
Theorem train_without_epochs (self : HebbianEngine R) dl epochs s :
  epochs ≤ 0 → batches dl ≠ [] → Forall (eq true) (weighted (model s)) →
  ∃ ws evs,
    train self dl epochs s
    = (Ok ws,
       mkWorld (reinit (generator s) (model s)).1 (reinit (generator s) (model s)).2
         (optimizer s) (trace s ++ evs))
    ∧ Forall quiet evs
    ∧ all_weights (children (reinit (generator s) (model s)).1) = Ok ws.
Proof.
  intros Hep Hne Hall. destruct (batches dl) as [|first bs] eqn:Hb; [done|].
  destruct (train_stages self dl epochs s first bs Hb) as (vis & Hq & ->).
  replace (Z.to_nat epochs) with 0%nat by lia. cbn [seq for_each mret M_ret].
  cbn [model generator optimizer trace].
  destruct (all_weights_weighted (reinit (generator s) (model s)).1) as [ws Hws];
    [by rewrite weighted_reinit|].
  rewrite Hws. eexists ws, _. split; [|split; [|done]].
  - rewrite <- app_assoc. reflexivity.
  - cbn [app]. constructor; [done|]. rewrite <- app_assoc.
    apply Forall_app. split; [apply init_logs_quiet|].
    apply Forall_app. split; [done|]. by repeat constructor.
Qed.

(** X23.  For a model without a [Linear] child, a [train] that returns has
    drawn no weight, the generator being as it was, and has asked the rule
    with no weights at all, [None], in every batch. *)
Theorem train_without_linear_child (self : HebbianEngine R) dl epochs s ws s' :
  (∀ (j : nat) n w b, model s !! j ≠ Some (n, Linear w b)) →
  train self dl epochs s = (Ok ws, s') →
  generator s' = generator s
  ∧ ∃ evs, trace s' = trace s ++ evs
      ∧ length (updates_of evs) = (Z.to_nat epochs * length (batches dl))%nat
      ∧ ∀ r inputs weights, Rule_update r inputs weights ∈ evs → weights = None.
Proof.
  intros Hno Hrun.
  destruct (reinit_without_linear (generator s) (model s) Hno) as (Hre & Hlast & Hlogs).
  apply train_after_init in Hrun as (first & input_shape & _ & _ & Hadv & _).
  cbv zeta in Hadv. rewrite Hre, Hlast, Hlogs in Hadv.
  destruct Hadv as (evs & Ht & Hg & _ & Hu & Hc & _).
  cbn [model generator optimizer trace fst snd] in *. split; [done|].
  exists (Logging INFO (Received_samples (dataset_len dl) input_shape) :: evs).
  split; [|split].
  - rewrite Ht, <- app_assoc. reflexivity.
  - done.
  - intros r inputs weights [?|Hin]%elem_of_cons; [done|].
    by eapply updates_read_none.
Qed.

(** X24.  When some child of the model has no weight, as an activation or
    a pooling layer has none, and every batch can be brought to two
    dimensions and has labels of one dimension, [train] does all the work,
    one optimizer step per batch of every epoch, and then raises an
    [AttributeError] instead of returning. *)
Theorem train_fails_late_without_weight (self : HebbianEngine R) dl epochs s :
  batches dl ≠ [] → Forall reshapable (batches dl) →
  Forall flat_labels (batches dl) →
  ¬ Forall (eq true) (weighted (model s)) →
  ∃ attr s' evs,
    train self dl epochs s = (Raise (AttributeError attr), s')
    ∧ trace s' = trace s ++ evs
    ∧ length (steps_of evs) = (Z.to_nat epochs * length (batches dl))%nat.
Proof.
  intros Hne Hbs Hls Hnot. destruct (batches dl) as [|first bs] eqn:Hb; [done|].
  destruct (train_stages self dl epochs s first bs Hb) as (vis & Hq & ->).
  rewrite <- Hb in *.
  set (wnp := last_linear (model s)). set (input_shape := py_slice_from _ _).
  set (s3 := mkWorld _ _ _ _).
  assert (readable (weighted (model s3)) wnp) as Hr.
  { cbn [model s3]. rewrite weighted_reinit. apply last_linear_readable. }
  destruct (train_epochs_return self dl wnp input_shape (seq 0 (Z.to_nat epochs)) s3
              Hbs Hls Hr) as (s4 & Hloop & Hw).
  rewrite Hloop. cbn [model s3] in Hw. rewrite weighted_reinit in Hw.
  destruct (all_weights (children (model s4))) as [ws|e] eqn:Hall.
  { apply all_weights_ok_weighted in Hall. by rewrite Hw in Hall. }
  apply all_weights_raise in Hall as [-> _].
  apply train_epochs_ok in Hloop. rewrite length_seq in Hloop.
  destruct Hloop as (evs & Ht & _ & _ & _ & _ & Hsteps).
  cbn [trace s3] in Ht.
  eexists _, _, _. split; [reflexivity|]. cbn [trace]. split.
  - rewrite Ht, <- !app_assoc. reflexivity.
  - assert (Forall quiet (Logging INFO (Received_samples (dataset_len dl) input_shape)
                          :: init_logs 0 (generator s) (model s) ++ vis)) as Hq'.
    { constructor; [done|]. apply Forall_app. split; [apply init_logs_quiet|done]. }
    destruct (quiet_events wnp (learning_rule self) (model s, optimizer s) _ Hq')
      as (_ & _ & _ & Hnone).
    unfold steps_of in *. rewrite !omap_app, Hnone, !length_app, Hsteps. cbn. lia.
Qed.

(** X25.  The loop that draws the initial weights ends on the last
    [Linear] child, keeps the children in number, order, names, classes,
    biases and geometry, leaves every child that is not a [Linear] as it was,
    a [Conv2d] included, and leaves the optimizer alone. *)
Theorem init_loop_redraws_linear_only s :
  ∃ s', for_fold (seq 0 (length (model s))) None init_child s
        = (Ok (last_linear (model s)), s')
    ∧ Forall2 (λ c c', same_but_weight c c' ∧ ((∀ w b, c.2 ≠ Linear w b) → c' = c))
        (model s) (model s')
    ∧ optimizer s' = optimizer s.
Proof.
  pose proof (init_children (model s) [] None s eq_refl) as Hinit.
  cbn [length app] in Hinit. eexists. split; [exact Hinit|].
  cbn [model optimizer]. split; [apply reinit_children|done].
Qed.

End EngineMore.

(** [train_failure_causes] on a dense layer followed by an activation,
    which has no weight. *)
Lemma train_failure_causes_witness :
  let w0 : Engine.World Z Z nat Z :=
    Engine.mkWorld [("fc1"%string, Linear (mkTensor [1; 1] [2]) None);
                    ("act"%string, Other "ReLU" None)] 10 0%nat [] in
  (Engine.train Toy.engine5 Toy.loader2 1 w0).1 = Raise (AttributeError "weight")
  ∧ ¬ Forall (eq true) (EngineSpec.weighted (Engine.model w0)).
Proof.
  cbv zeta. split; [vm_compute; reflexivity|].
  eapply (train_failure_causes Toy.engine5 Toy.loader2 1 _ (AttributeError "weight")).
  vm_compute. reflexivity.
Defined.

(** [train_returns_one_weight_per_child] for two epochs over two batches on
    the two dense layers. *)
Lemma train_returns_one_weight_per_child_witness :
  (Engine.train Toy.engine5 Toy.loader2 2 Toy.engine_world).1
  = Ok [mkTensor [1; 1] [10]; mkTensor [1; 1] [31]]
  ∧ Forall (eq true) (EngineSpec.weighted Toy.two_dense)
  ∧ length [mkTensor [1; 1] [10]; mkTensor [1; 1] [31]] = length Toy.two_dense.
Proof.
  split; [vm_compute; reflexivity|].
  destruct (train_returns_one_weight_per_child Toy.engine5 Toy.loader2 2
              Toy.engine_world [mkTensor [1; 1] [10]; mkTensor [1; 1] [31]]
              (Engine.train Toy.engine5 Toy.loader2 2 Toy.engine_world).2)
    as (H1 & _ & H3); [vm_compute; reflexivity|].
  split; [exact H1|exact H3].
Defined.

(** [train_steps_scheduler_once_per_epoch] for those two epochs. *)
Lemma train_steps_scheduler_once_per_epoch_witness :
  (Engine.train Toy.engine5 Toy.loader2 2 Toy.engine_world).1
  = Ok [mkTensor [1; 1] [10]; mkTensor [1; 1] [31]]
  ∧ ∃ evs,
      Engine.trace (Engine.train Toy.engine5 Toy.loader2 2 Toy.engine_world).2
      = [] ++ evs
      ∧ beats evs = [Optimizer_beat; Optimizer_beat; Scheduler_beat;
                     Optimizer_beat; Optimizer_beat; Scheduler_beat].
Proof.
  split; [vm_compute; reflexivity|].
  destruct (train_steps_scheduler_once_per_epoch Toy.engine5 Toy.loader2 2
              Toy.engine_world [mkTensor [1; 1] [10]; mkTensor [1; 1] [31]]
              (Engine.train Toy.engine5 Toy.loader2 2 Toy.engine_world).2)
    as (_ & evs & Ht & Hb); [vm_compute; reflexivity|].
  exists evs. split; [exact Ht|exact Hb].
Defined.

(** [train_without_epochs] on the two dense layers: the weights 2 and 3
    are returned as 10 and 11, the values drawn. *)
Lemma train_without_epochs_witness :
  (Engine.train Toy.engine5 Toy.loader2 0 Toy.engine_world).1
  = Ok [mkTensor [1; 1] [10]; mkTensor [1; 1] [11]]
  ∧ ∃ ws evs,
      Engine.train Toy.engine5 Toy.loader2 0 Toy.engine_world
      = (Ok ws,
         Engine.mkWorld (EngineSpec.reinit 10 Toy.two_dense).1
           (EngineSpec.reinit 10 Toy.two_dense).2 1%nat ([] ++ evs))
      ∧ Forall EngineSpec.quiet evs.
Proof.
  split; [vm_compute; reflexivity|].
  destruct (train_without_epochs Toy.engine5 Toy.loader2 0 Toy.engine_world)
    as (ws & evs & Hrun & Hq & _).
  - done.
  - discriminate.
  - repeat constructor.
  - exists ws, evs. split; [exact Hrun|exact Hq].
Defined.

(** [train_without_linear_child] on a model made of one convolution. *)
Lemma train_without_linear_child_witness :
  let w0 : Engine.World Z Z nat Z :=
    Engine.mkWorld
      [("conv"%string,
        Conv2d (mkTensor [1; 1; 1; 1] [2]) None (1, 1) (1, 1) (0, 0) (1, 1))]
      10 0%nat [] in
  (Engine.train Toy.engine5 Toy.loader2 1 w0).1 = Ok [mkTensor [1; 1; 1; 1] [12]]
  ∧ Engine.generator (Engine.train Toy.engine5 Toy.loader2 1 w0).2 = 10.
Proof.
  cbv zeta. split; [vm_compute; reflexivity|].
  set (w0 := Engine.mkWorld _ 10 0%nat []).
  destruct (train_without_linear_child Toy.engine5 Toy.loader2 1 w0
              [mkTensor [1; 1; 1; 1] [12]]
              (Engine.train Toy.engine5 Toy.loader2 1 w0).2) as [Hg _].
  - intros [|j] n w b; cbn; discriminate.
  - vm_compute. reflexivity.
  - exact Hg.
Defined.

(** [train_fails_late_without_weight] on a dense layer followed by an
    activation: two optimizer steps, then the error. *)
Lemma train_fails_late_without_weight_witness :
  let w0 : Engine.World Z Z nat Z :=
    Engine.mkWorld [("fc1"%string, Linear (mkTensor [1; 1] [2]) None);
                    ("act"%string, Other "ReLU" None)] 10 0%nat [] in
  ∃ attr s' evs,
    Engine.train Toy.engine5 Toy.loader2 1 w0 = (Raise (AttributeError attr), s')
    ∧ Engine.trace s' = [] ++ evs
    ∧ length (EngineSpec.steps_of evs) = 2%nat.
Proof.
  cbv zeta.
  eapply (train_fails_late_without_weight Toy.engine5 Toy.loader2 1).
  - discriminate.
  - repeat (constructor; [exists 1, (mkTensor [1; 1] [1]); split; reflexivity|]).
    constructor.
  - repeat (constructor; [exists 1; reflexivity|]). constructor.
  - intros H. apply Forall_cons in H as [_ H]. apply Forall_cons in H as [H _].
    discriminate H.
Defined.
